(** * SNAI server: broadcast, ranking, rate limiting and request handlers

    A shallow embedding of the parts of [src/server.js] that carry the
    structured behaviour of the server: the per-wallet rate limiter, the
    post list and its cap, the WebSocket request handlers for posting,
    voting and deleting, the agent REST vote endpoint, the broadcast
    fan-out, the parsing of generated posts, the introduction post of a
    deployed agent, the hot score and the two agent registration paths;
    and, around them, the user ranks, the registration limit of the agent
    API, the bookmarks, the chat history, the remembered facts and the
    votes the scheduler casts.

    Conventions.
    - A JavaScript string is the list of its UTF-16 code units ([jsstr]).
    - [Date.now()] and [Math.random()] are read from the environment; every
      function that calls them takes the value read as an argument, and
      the clock readings of one synchronous run are taken to be equal.
    - JavaScript numbers that the code only ever uses as integers (ids,
      counters, millisecond timestamps, vote tallies) are [Z]; on such a
      number [x || 0] is [x].  Integer arithmetic on doubles is exact up to
      [2 ^ 53] in size, which the counters and tallies of a running server
      stay far below; the results about whole runs state the bound.  The
      one computation on fractions, the hot score, keeps the rounding of
      every step.
    - A plain object used as a dictionary is a [gmap].  This is what the
      code does for every key but the names inherited from
      [Object.prototype] ([inherited_names]); the wallet of a socket is
      never such a name (the connection handler throws on it before the
      message handler is installed), and a result about a function that
      takes its key from elsewhere assumes [plain_key] of it.
    - Object fields that the modelled code never reads and only ever sets
      to a literal when the object is created ([time: 'just now'],
      [isAI: true], [followers: []], ...) are left out of the records.
    - Everything the server writes to the outside (frames to sockets, files
      on disk, timers armed, console lines) is appended, in order, to an
      effect trace kept in the server state. *)

From Stdlib Require Import ZArith List Bool Ascii String Lia Reals Lra.
From stdpp Require Import base option list gmap fin_maps.

Local Open Scope Z_scope.

(** ** JavaScript strings and values *)

Module JS.

Abbreviation jsstr := (list N).

(** The string literal [s], code unit by code unit. *)
Fixpoint str (s : string) : jsstr :=
  match s with
  | EmptyString => []
  | String c r => N_of_ascii c :: str r
  end.

(** [s.slice(0, n)] for a literal [n >= 0]. *)
Definition slice0 (n : nat) (s : jsstr) : jsstr := take n s.

(** [s.slice(-n)] for a literal [n > 0]. *)
Definition slice_last (n : nat) (s : jsstr) : jsstr :=
  drop (length s - n)%nat s.

(** Values a string-valued expression can take when it may be absent:
    [cd?.wallet] is [undefined] for an unknown socket, a JSON field can be
    missing or [null], and otherwise it is a string. *)
Inductive value :=
| Undefined
| Null
| Str (s : jsstr).

#[global] Instance value_eq_dec : EqDecision value.
Proof. solve_decision. Defined.

(** ToBoolean on such a value: only a non-empty string is truthy. *)
Definition truthy (v : value) : bool :=
  match v with
  | Str (_ :: _) => true
  | _ => false
  end.

(** [v || d] where [d] is a string. *)
Definition or_str (v : value) (d : jsstr) : jsstr :=
  match v with
  | Str (c :: s) => c :: s
  | _ => d
  end.

(** [o || d] for an optional string field. *)
Definition opt_or (o : option jsstr) (d : jsstr) : jsstr :=
  match o with
  | Some (c :: s) => c :: s
  | _ => d
  end.

(** [a === b] between a stored field and a string-or-undefined value. *)
Definition strict_eq (a b : value) : bool := bool_decide (a = b).

(** The code units of the ECMAScript [WhiteSpace] and [LineTerminator]
    productions: what [\s] matches and what [trim] strips. *)
Definition is_line_terminator (c : N) : bool :=
  ((c =? 10) || (c =? 13) || (c =? 8232) || (c =? 8233))%N.

Definition is_space (c : N) : bool :=
  (is_line_terminator c
   || (c =? 9) || (c =? 11) || (c =? 12) || (c =? 32) || (c =? 160)
   || (c =? 5760) || ((8192 <=? c) && (c <=? 8202))
   || (c =? 8239) || (c =? 8287) || (c =? 12288) || (c =? 65279))%N.

Fixpoint trim_start (s : jsstr) : jsstr :=
  match s with
  | c :: r => if is_space c then trim_start r else s
  | [] => []
  end.

(** [s.trim()]. *)
Definition trim (s : jsstr) : jsstr :=
  reverse (trim_start (reverse (trim_start s))).

(** ASCII letter folding, the only folding a pattern flagged [/i] without
    [/u] applies to the letters of an ASCII literal: a code unit at or
    above 128 never folds onto an ASCII one. *)
Definition ascii_lower (c : N) : N :=
  (if (65 <=? c) && (c <=? 90) then c + 32 else c)%N.

(** The names every plain object inherits from [Object.prototype].  For
    such a name [obj[name]] is the inherited member (a function, or the
    prototype itself), not [undefined], also when [obj] has no entry of its
    own under it, so that a key of this kind is not looked up, tested and
    stored the way every other key is. *)
Definition inherited_names : list jsstr :=
  map str
    [ "constructor"; "hasOwnProperty"; "isPrototypeOf";
      "propertyIsEnumerable"; "toLocaleString"; "toString"; "valueOf";
      "__proto__"; "__defineGetter__"; "__defineSetter__";
      "__lookupGetter__"; "__lookupSetter__" ]%string.

(** A key that a plain object used as a dictionary treats as a finite map
    does. *)
Definition plain_key (k : jsstr) : bool :=
  negb (bool_decide (k ∈ inherited_names)).

End JS.
Import JS.

(** ** Records of the data model *)

Module Comment.
Record t := {
  author : jsstr;
  wallet : value;
  text : jsstr;
  timestamp : Z
}.
End Comment.

(** Agent ids are numbers for the built-in agents and the agents deployed
    over the socket, strings for those created through the REST endpoint. *)
Inductive agent_id :=
| IdNum (n : Z)
| IdStr (s : jsstr).

Module Post.
(** People's posts carry [hive], the posts of [generateKrabPost] carry
    [claw] and [authorHandle]; [wallet] is the poster's wallet, or the
    agent's name, or [null] with the agent's id in [agentId] for the posts
    an agent makes on its own account. *)
Record t := {
  id : Z;
  hive : option jsstr;
  claw : option jsstr;
  title : jsstr;
  content : jsstr;
  author : jsstr;
  authorHandle : option jsstr;
  wallet : value;
  agentId : option agent_id;
  votes : Z;
  voters : gmap (list N) Z;
  comments : list Comment.t;
  timestamp : Z;
  isAgentPost : bool
}.

Definition with_vote (votes' : Z) (voters' : gmap (list N) Z) (p : t) : t :=
  {| id := id p; hive := hive p; claw := claw p; title := title p;
     content := content p; author := author p;
     authorHandle := authorHandle p; wallet := wallet p;
     agentId := agentId p;
     votes := votes'; voters := voters';
     comments := comments p; timestamp := timestamp p;
     isAgentPost := isAgentPost p |}.
End Post.

Module User.
Record t := {
  wallet : jsstr;
  username : option jsstr;
  karma : Z;
  joinedAt : Z;
  postCount : Z;
  commentCount : Z;
  lastSeen : Z;
  agentsCreated : list Z;
  xp : Z
}.

Definition with_lastSeen (x : Z) (u : t) : t :=
  {| wallet := wallet u; username := username u; karma := karma u;
     joinedAt := joinedAt u; postCount := postCount u;
     commentCount := commentCount u; lastSeen := x;
     agentsCreated := agentsCreated u; xp := xp u |}.

Definition with_karma (x : Z) (u : t) : t :=
  {| wallet := wallet u; username := username u; karma := x;
     joinedAt := joinedAt u; postCount := postCount u;
     commentCount := commentCount u; lastSeen := lastSeen u;
     agentsCreated := agentsCreated u; xp := xp u |}.

Definition with_xp (x : Z) (u : t) : t :=
  {| wallet := wallet u; username := username u; karma := karma u;
     joinedAt := joinedAt u; postCount := postCount u;
     commentCount := commentCount u; lastSeen := lastSeen u;
     agentsCreated := agentsCreated u; xp := x |}.

Definition with_postCount (x : Z) (u : t) : t :=
  {| wallet := wallet u; username := username u; karma := karma u;
     joinedAt := joinedAt u; postCount := x;
     commentCount := commentCount u; lastSeen := lastSeen u;
     agentsCreated := agentsCreated u; xp := xp u |}.

Definition with_agentsCreated (x : list Z) (u : t) : t :=
  {| wallet := wallet u; username := username u; karma := karma u;
     joinedAt := joinedAt u; postCount := postCount u;
     commentCount := commentCount u; lastSeen := lastSeen u;
     agentsCreated := x; xp := xp u |}.
End User.

Module Agent.
(** One record for the differently shaped agent objects of the source; a
    field an object does not have is [None] or [Undefined]. *)
Record t := {
  id : agent_id;
  name : jsstr;
  handle : jsstr;
  ticker : option jsstr;
  description : option jsstr;
  personality : option jsstr;
  personalityType : option jsstr;
  avatar : option jsstr;
  creator : option jsstr;
  creatorWallet : value;
  creatorIP : option jsstr;
  wallet : value;
  walletShort : option jsstr;
  karma : Z;
  postCount : Z;
  commentCount : Z;
  topics : option (list jsstr);
  faction : option jsstr;
  createdAt : option Z;
  lastActive : option Z;
  token : option (jsstr * Z)
}.

(** The three assignments of [generateKrabPost]:
    [agent.topics = [t.hive, ...(agent.topics || [])].slice(0, 20);
     agent.postCount = (agent.postCount || 0) + 1;
     agent.karma = (agent.karma || 0) + 5;] *)
Definition record_post (hive : jsstr) (a : t) : t :=
  {| id := id a; name := name a; handle := handle a; ticker := ticker a;
     description := description a; personality := personality a;
     personalityType := personalityType a;
     avatar := avatar a; creator := creator a;
     creatorWallet := creatorWallet a; creatorIP := creatorIP a;
     wallet := wallet a; walletShort := walletShort a;
     karma := karma a + 5;
     postCount := postCount a + 1;
     commentCount := commentCount a;
     topics := Some (take 20 (hive :: default [] (topics a)));
     faction := faction a; createdAt := createdAt a;
     lastActive := lastActive a; token := token a |}.

(** [agent.postCount++] *)
Definition count_post (a : t) : t :=
  {| id := id a; name := name a; handle := handle a; ticker := ticker a;
     description := description a; personality := personality a;
     personalityType := personalityType a;
     avatar := avatar a; creator := creator a;
     creatorWallet := creatorWallet a; creatorIP := creatorIP a;
     wallet := wallet a; walletShort := walletShort a;
     karma := karma a;
     postCount := postCount a + 1;
     commentCount := commentCount a;
     topics := topics a;
     faction := faction a; createdAt := createdAt a;
     lastActive := lastActive a; token := token a |}.
End Agent.

Module RegAgent.
(** An entry of [registeredAgents], the agents that post through the REST
    API with a key. *)
Record t := {
  id : jsstr;
  name : jsstr;
  xHandle : jsstr;
  description : option jsstr;
  personality : option jsstr;
  logoUrl : option jsstr;
  karma : Z;
  active : bool;
  postCount : Z;
  commentCount : Z;
  topics : option (list jsstr);
  faction : option jsstr;
  wallet : value;
  lastActive : Z
}.

Definition with_lastActive (x : Z) (a : t) : t :=
  {| id := id a; name := name a; xHandle := xHandle a;
     description := description a; personality := personality a;
     logoUrl := logoUrl a; karma := karma a;
     active := active a; postCount := postCount a;
     commentCount := commentCount a; topics := topics a;
     faction := faction a; wallet := wallet a; lastActive := x |}.
End RegAgent.

Module KeyData.
(** An entry of [agentApiKeys]. *)
Record t := {
  agentId : jsstr;
  lastUsed : Z
}.
End KeyData.

Module Achievement.
(** An unlocked achievement as stored in [achievements[wallet]]. *)
Record t := {
  id : jsstr;
  name : jsstr;
  desc : jsstr;
  icon : jsstr;
  unlockedAt : Z
}.
End Achievement.

Module AchDef.
(** A row of the constant table [ACHIEVEMENTS]. *)
Record t := {
  id : jsstr;
  name : jsstr;
  desc : jsstr;
  icon : jsstr;
  karma : Z
}.
End AchDef.

Module Notification.
(** [relatedId] defaults to [null]. *)
Record t := {
  id : Z;
  type : jsstr;
  content : jsstr;
  relatedId : option Z;
  read : bool;
  timestamp : Z
}.
End Notification.

(** The [target] of an activity: an achievement id or an agent id. *)
Inductive target :=
| TargetStr (s : jsstr)
| TargetNum (n : Z).

Module Activity.
Record t := {
  type : jsstr;
  actor : jsstr;
  actorWallet : jsstr;
  target : target;
  content : jsstr;
  timestamp : Z
}.
End Activity.

(** ** Sessions, events and effects *)

(** [ws.readyState]; [WebSocket.OPEN] is the second of the four. *)
Inductive ready_state := CONNECTING | OPEN | CLOSING | CLOSED.

#[global] Instance ready_state_eq_dec : EqDecision ready_state.
Proof. solve_decision. Defined.

Module Session.
(** An entry of the [clients] map: the socket (named by a number), the
    state its transport reports, and the session record [{ wallet }]. *)
Record t := {
  ws : nat;
  readyState : ready_state;
  wallet : jsstr
}.
End Session.

Module AgentSummary.
(** The fields of a new agent that the REST endpoint announces and
    returns. *)
Record t := {
  id : agent_id;
  name : jsstr;
  handle : jsstr;
  wallet : value;
  walletShort : option jsstr;
  personalityType : option jsstr;
  karma : Z
}.
End AgentSummary.

(** The tagged objects the server sends, [{ type, ...payload }]. *)
Inductive event :=
| EvError (message : jsstr)
| EvRateLimited (waitTime : Z)
| EvNewPost (post : Post.t)
| EvUpdatePost (post : Post.t)
| EvDeletePost (postId : Z)
| EvStateCounts (posts comments : Z)
| EvActivity (activity : Activity.t)
| EvActivityLine (user action : jsstr)
| EvAgents (agents : list Agent.t)
| EvNewAgent (agent : Agent.t)
| EvNewAgentSummary (agent : AgentSummary.t)
| EvAgentCreated (agent : Agent.t)
| EvNotification (notification : Notification.t).

(** The body of an HTTP reply. *)
Inductive reply :=
| ReplyError (error : jsstr)
| ReplyWalletHasAgent (error : jsstr) (agent : option (agent_id * jsstr))
| ReplyVoted (postId votes : Z)
| ReplyDeployed (agent : AgentSummary.t).

Inductive effect :=
| Stringify (data : event)
| Send (ws : nat) (json : event)
| SaveState
| SaveDatabase
| SaveUserAgents
| SaveRegisteredAgents
| SetTimeoutIntroPost (agent : Agent.t) (delay : Z)
| ConsoleLog (line : jsstr)
| ConsoleError (line : jsstr)
| Respond (status : Z) (body : reply).

(** ** The server state *)

(** [userAgents] is declared as a plain object and replaced by an array
    when the JSON database holds one; the REST endpoint adds string-keyed
    properties to whichever it is.  [items] are the indexed elements (none
    for a plain object), [props] the string-keyed ones in insertion order. *)
Module UserAgents.
Record t := {
  isArray : bool;
  items : list Agent.t;
  props : list (jsstr * Agent.t)
}.

(** [Object.values(userAgents)]. *)
Definition values (u : t) : list Agent.t := items u ++ map snd (props u).

(** [userAgents[key] = a] for a key that is not an array index. *)
Definition set_prop (key : jsstr) (a : Agent.t) (u : t) : t :=
  {| isArray := isArray u; items := items u;
     props :=
       if existsb (fun kv => bool_decide (kv.1 = key)) (props u)
       then map (fun kv => if bool_decide (kv.1 = key) then (key, a) else kv)
                (props u)
       else props u ++ [(key, a)] |}.

(** [userAgents.push(a)] on an array. *)
Definition push (a : Agent.t) (u : t) : t :=
  {| isArray := isArray u; items := items u ++ [a]; props := props u |}.

(** An assignment to a field of the object that is element [k]. *)
Definition alter_item (f : Agent.t -> Agent.t) (k : nat) (u : t) : t :=
  {| isArray := isArray u; items := alter f k (items u); props := props u |}.
End UserAgents.

Record server := {
  posts : list Post.t;
  nextPostId : Z;
  users : gmap (list N) User.t;
  agents : list Agent.t;
  userAgents : UserAgents.t;
  nextAgentId : Z;
  registeredAgents : list (jsstr * RegAgent.t);
  agentApiKeys : list (jsstr * KeyData.t);
  limitsByIP : gmap (list N) (Z * Z);
  limitsByWallet : gmap (list N) (list N);
  rateLimitMap : gmap (list N) (list Z);
  topicInterests : gmap (list N) (gmap (list N) Z);
  achievements : gmap (list N) (list Achievement.t);
  notifications : gmap (list N) (list Notification.t);
  activityFeed : list Activity.t;
  clients : list Session.t;
  trace : list effect
}.

(** Assignment to one global, the others kept. *)
Definition set_posts (x : list Post.t) (s : server) : server :=
  {| posts := x; nextPostId := nextPostId s; users := users s;
     agents := agents s; userAgents := userAgents s;
     nextAgentId := nextAgentId s; registeredAgents := registeredAgents s;
     agentApiKeys := agentApiKeys s; limitsByIP := limitsByIP s;
     limitsByWallet := limitsByWallet s; rateLimitMap := rateLimitMap s;
     topicInterests := topicInterests s; achievements := achievements s;
     notifications := notifications s; activityFeed := activityFeed s;
     clients := clients s; trace := trace s |}.

Definition set_nextPostId (x : Z) (s : server) : server :=
  {| posts := posts s; nextPostId := x; users := users s;
     agents := agents s; userAgents := userAgents s;
     nextAgentId := nextAgentId s; registeredAgents := registeredAgents s;
     agentApiKeys := agentApiKeys s; limitsByIP := limitsByIP s;
     limitsByWallet := limitsByWallet s; rateLimitMap := rateLimitMap s;
     topicInterests := topicInterests s; achievements := achievements s;
     notifications := notifications s; activityFeed := activityFeed s;
     clients := clients s; trace := trace s |}.

Definition set_users (x : gmap (list N) User.t) (s : server) : server :=
  {| posts := posts s; nextPostId := nextPostId s; users := x;
     agents := agents s; userAgents := userAgents s;
     nextAgentId := nextAgentId s; registeredAgents := registeredAgents s;
     agentApiKeys := agentApiKeys s; limitsByIP := limitsByIP s;
     limitsByWallet := limitsByWallet s; rateLimitMap := rateLimitMap s;
     topicInterests := topicInterests s; achievements := achievements s;
     notifications := notifications s; activityFeed := activityFeed s;
     clients := clients s; trace := trace s |}.

Definition set_agents (x : list Agent.t) (s : server) : server :=
  {| posts := posts s; nextPostId := nextPostId s; users := users s;
     agents := x; userAgents := userAgents s; nextAgentId := nextAgentId s;
     registeredAgents := registeredAgents s;
     agentApiKeys := agentApiKeys s; limitsByIP := limitsByIP s;
     limitsByWallet := limitsByWallet s; rateLimitMap := rateLimitMap s;
     topicInterests := topicInterests s; achievements := achievements s;
     notifications := notifications s; activityFeed := activityFeed s;
     clients := clients s; trace := trace s |}.

Definition set_userAgents (x : UserAgents.t) (s : server) : server :=
  {| posts := posts s; nextPostId := nextPostId s; users := users s;
     agents := agents s; userAgents := x; nextAgentId := nextAgentId s;
     registeredAgents := registeredAgents s;
     agentApiKeys := agentApiKeys s; limitsByIP := limitsByIP s;
     limitsByWallet := limitsByWallet s; rateLimitMap := rateLimitMap s;
     topicInterests := topicInterests s; achievements := achievements s;
     notifications := notifications s; activityFeed := activityFeed s;
     clients := clients s; trace := trace s |}.

Definition set_nextAgentId (x : Z) (s : server) : server :=
  {| posts := posts s; nextPostId := nextPostId s; users := users s;
     agents := agents s; userAgents := userAgents s; nextAgentId := x;
     registeredAgents := registeredAgents s;
     agentApiKeys := agentApiKeys s; limitsByIP := limitsByIP s;
     limitsByWallet := limitsByWallet s; rateLimitMap := rateLimitMap s;
     topicInterests := topicInterests s; achievements := achievements s;
     notifications := notifications s; activityFeed := activityFeed s;
     clients := clients s; trace := trace s |}.

Definition set_registeredAgents (x : list (jsstr * RegAgent.t)) (s : server) : server :=
  {| posts := posts s; nextPostId := nextPostId s; users := users s;
     agents := agents s; userAgents := userAgents s;
     nextAgentId := nextAgentId s; registeredAgents := x;
     agentApiKeys := agentApiKeys s; limitsByIP := limitsByIP s;
     limitsByWallet := limitsByWallet s; rateLimitMap := rateLimitMap s;
     topicInterests := topicInterests s; achievements := achievements s;
     notifications := notifications s; activityFeed := activityFeed s;
     clients := clients s; trace := trace s |}.

Definition set_agentApiKeys (x : list (jsstr * KeyData.t)) (s : server) : server :=
  {| posts := posts s; nextPostId := nextPostId s; users := users s;
     agents := agents s; userAgents := userAgents s;
     nextAgentId := nextAgentId s; registeredAgents := registeredAgents s;
     agentApiKeys := x; limitsByIP := limitsByIP s;
     limitsByWallet := limitsByWallet s; rateLimitMap := rateLimitMap s;
     topicInterests := topicInterests s; achievements := achievements s;
     notifications := notifications s; activityFeed := activityFeed s;
     clients := clients s; trace := trace s |}.

Definition set_limitsByIP (x : gmap (list N) (Z * Z)) (s : server) : server :=
  {| posts := posts s; nextPostId := nextPostId s; users := users s;
     agents := agents s; userAgents := userAgents s;
     nextAgentId := nextAgentId s; registeredAgents := registeredAgents s;
     agentApiKeys := agentApiKeys s; limitsByIP := x;
     limitsByWallet := limitsByWallet s; rateLimitMap := rateLimitMap s;
     topicInterests := topicInterests s; achievements := achievements s;
     notifications := notifications s; activityFeed := activityFeed s;
     clients := clients s; trace := trace s |}.

Definition set_limitsByWallet (x : gmap (list N) (list N)) (s : server) : server :=
  {| posts := posts s; nextPostId := nextPostId s; users := users s;
     agents := agents s; userAgents := userAgents s;
     nextAgentId := nextAgentId s; registeredAgents := registeredAgents s;
     agentApiKeys := agentApiKeys s; limitsByIP := limitsByIP s;
     limitsByWallet := x; rateLimitMap := rateLimitMap s;
     topicInterests := topicInterests s; achievements := achievements s;
     notifications := notifications s; activityFeed := activityFeed s;
     clients := clients s; trace := trace s |}.

Definition set_rateLimitMap (x : gmap (list N) (list Z)) (s : server) : server :=
  {| posts := posts s; nextPostId := nextPostId s; users := users s;
     agents := agents s; userAgents := userAgents s;
     nextAgentId := nextAgentId s; registeredAgents := registeredAgents s;
     agentApiKeys := agentApiKeys s; limitsByIP := limitsByIP s;
     limitsByWallet := limitsByWallet s; rateLimitMap := x;
     topicInterests := topicInterests s; achievements := achievements s;
     notifications := notifications s; activityFeed := activityFeed s;
     clients := clients s; trace := trace s |}.

Definition set_topicInterests (x : gmap (list N) (gmap (list N) Z)) (s : server) : server :=
  {| posts := posts s; nextPostId := nextPostId s; users := users s;
     agents := agents s; userAgents := userAgents s;
     nextAgentId := nextAgentId s; registeredAgents := registeredAgents s;
     agentApiKeys := agentApiKeys s; limitsByIP := limitsByIP s;
     limitsByWallet := limitsByWallet s; rateLimitMap := rateLimitMap s;
     topicInterests := x; achievements := achievements s;
     notifications := notifications s; activityFeed := activityFeed s;
     clients := clients s; trace := trace s |}.

Definition set_achievements (x : gmap (list N) (list Achievement.t)) (s : server) : server :=
  {| posts := posts s; nextPostId := nextPostId s; users := users s;
     agents := agents s; userAgents := userAgents s;
     nextAgentId := nextAgentId s; registeredAgents := registeredAgents s;
     agentApiKeys := agentApiKeys s; limitsByIP := limitsByIP s;
     limitsByWallet := limitsByWallet s; rateLimitMap := rateLimitMap s;
     topicInterests := topicInterests s; achievements := x;
     notifications := notifications s; activityFeed := activityFeed s;
     clients := clients s; trace := trace s |}.

Definition set_notifications (x : gmap (list N) (list Notification.t)) (s : server) : server :=
  {| posts := posts s; nextPostId := nextPostId s; users := users s;
     agents := agents s; userAgents := userAgents s;
     nextAgentId := nextAgentId s; registeredAgents := registeredAgents s;
     agentApiKeys := agentApiKeys s; limitsByIP := limitsByIP s;
     limitsByWallet := limitsByWallet s; rateLimitMap := rateLimitMap s;
     topicInterests := topicInterests s; achievements := achievements s;
     notifications := x; activityFeed := activityFeed s;
     clients := clients s; trace := trace s |}.

Definition set_activityFeed (x : list Activity.t) (s : server) : server :=
  {| posts := posts s; nextPostId := nextPostId s; users := users s;
     agents := agents s; userAgents := userAgents s;
     nextAgentId := nextAgentId s; registeredAgents := registeredAgents s;
     agentApiKeys := agentApiKeys s; limitsByIP := limitsByIP s;
     limitsByWallet := limitsByWallet s; rateLimitMap := rateLimitMap s;
     topicInterests := topicInterests s; achievements := achievements s;
     notifications := notifications s; activityFeed := x;
     clients := clients s; trace := trace s |}.

Definition set_trace (x : list effect) (s : server) : server :=
  {| posts := posts s; nextPostId := nextPostId s; users := users s;
     agents := agents s; userAgents := userAgents s;
     nextAgentId := nextAgentId s; registeredAgents := registeredAgents s;
     agentApiKeys := agentApiKeys s; limitsByIP := limitsByIP s;
     limitsByWallet := limitsByWallet s; rateLimitMap := rateLimitMap s;
     topicInterests := topicInterests s; achievements := achievements s;
     notifications := notifications s; activityFeed := activityFeed s;
     clients := clients s; trace := x |}.

Definition set_clients (x : list Session.t) (s : server) : server :=
  {| posts := posts s; nextPostId := nextPostId s; users := users s;
     agents := agents s; userAgents := userAgents s;
     nextAgentId := nextAgentId s; registeredAgents := registeredAgents s;
     agentApiKeys := agentApiKeys s; limitsByIP := limitsByIP s;
     limitsByWallet := limitsByWallet s; rateLimitMap := rateLimitMap s;
     topicInterests := topicInterests s; achievements := achievements s;
     notifications := notifications s; activityFeed := activityFeed s;
     clients := x; trace := trace s |}.

(** An effect happens: it is appended to the trace. *)
Definition emit (e : effect) (s : server) : server :=
  set_trace (trace s ++ [e]) s.

(** ** Achievements, notifications and the activity feed *)

(** [const ACHIEVEMENTS]; icons are given by their code units. *)
Definition ACHIEVEMENTS : list AchDef.t :=
  [
    {| AchDef.id := str "first_post"; AchDef.name := str "First Post!";
       AchDef.desc := str "Create your first post";
       AchDef.icon := [55357; 56541]%N; AchDef.karma := 5 |};
    {| AchDef.id := str "first_comment"; AchDef.name := str "Conversation Starter";
       AchDef.desc := str "Leave your first comment";
       AchDef.icon := [55357; 56492]%N; AchDef.karma := 3 |};
    {| AchDef.id := str "first_vote"; AchDef.name := str "Democracy!";
       AchDef.desc := str "Vote on a post";
       AchDef.icon := [55357; 56819; 65039]%N; AchDef.karma := 2 |};
    {| AchDef.id := str "karma_10"; AchDef.name := str "Rising Star";
       AchDef.desc := str "Reach 10 karma";
       AchDef.icon := [11088]%N; AchDef.karma := 10 |};
    {| AchDef.id := str "karma_100"; AchDef.name := str "Community Member";
       AchDef.desc := str "Reach 100 karma";
       AchDef.icon := [55356; 57119]%N; AchDef.karma := 25 |};
    {| AchDef.id := str "karma_500"; AchDef.name := str "Swarm Elite";
       AchDef.desc := str "Reach 500 karma";
       AchDef.icon := [55357; 56462]%N; AchDef.karma := 50 |};
    {| AchDef.id := str "karma_1000"; AchDef.name := str "Hornet Legend";
       AchDef.desc := str "Reach 1000 karma";
       AchDef.icon := [55357; 56401]%N; AchDef.karma := 100 |};
    {| AchDef.id := str "deploy_agent"; AchDef.name := str "Agent Creator";
       AchDef.desc := str "Deploy your first AI agent";
       AchDef.icon := [55358; 56598]%N; AchDef.karma := 50 |};
    {| AchDef.id := str "battle_winner"; AchDef.name := str "Battle Champion";
       AchDef.desc := str "Win an agent battle";
       AchDef.icon := [9876; 65039]%N; AchDef.karma := 25 |};
    {| AchDef.id := str "proposal_passed"; AchDef.name := str "Legislator";
       AchDef.desc := str "Get a proposal passed";
       AchDef.icon := [55356; 57307; 65039]%N; AchDef.karma := 50 |};
    {| AchDef.id := str "chat_10"; AchDef.name := str "SNAI Whisperer";
       AchDef.desc := str "Have 10 conversations with SNAI";
       AchDef.icon := [55357; 56349]%N; AchDef.karma := 15 |};
    {| AchDef.id := str "posts_10"; AchDef.name := str "Content Creator";
       AchDef.desc := str "Create 10 posts";
       AchDef.icon := [55357; 56560]%N; AchDef.karma := 20 |};
    {| AchDef.id := str "posts_50"; AchDef.name := str "Prolific Poster";
       AchDef.desc := str "Create 50 posts";
       AchDef.icon := [55357; 56538]%N; AchDef.karma := 50 |};
    {| AchDef.id := str "comments_50"; AchDef.name := str "Commentator";
       AchDef.desc := str "Leave 50 comments";
       AchDef.icon := [55357; 56493]%N; AchDef.karma := 30 |};
    {| AchDef.id := str "early_adopter"; AchDef.name := str "Early Adopter";
       AchDef.desc := str "Join in the first 1000 users";
       AchDef.icon := [55357; 56960]%N; AchDef.karma := 100 |};
    {| AchDef.id := str "viral_post"; AchDef.name := str "Viral!";
       AchDef.desc := str "Get 50+ votes on a single post";
       AchDef.icon := [55357; 56613]%N; AchDef.karma := 75 |};
    {| AchDef.id := str "follow_10"; AchDef.name := str "Social Butterfly";
       AchDef.desc := str "Follow 10 agents or users";
       AchDef.icon := [55358; 56715]%N; AchDef.karma := 10 |};
    {| AchDef.id := str "followed_10"; AchDef.name := str "Influencer";
       AchDef.desc := str "Get 10 followers";
       AchDef.icon := [55357; 56546]%N; AchDef.karma := 25 |}
  ].

(** ** Broadcast channel and persistence *)

(** [ws.send(JSON.stringify(data))] to one socket. *)
Definition send (ws : nat) (data : event) (s : server) : server :=
  emit (Send ws data) (emit (Stringify data) s).

(** [function broadcast(data) {
       const json = JSON.stringify(data);
       clients.forEach((_, ws) => {
         if (ws.readyState === WebSocket.OPEN) ws.send(json); }); }]
    A [Map] is visited in insertion order. *)
Definition broadcast (data : event) (s : server) : server :=
  fold_left
    (fun acc c =>
       if bool_decide (Session.readyState c = OPEN)
       then emit (Send (Session.ws c) data) acc
       else acc)
    (clients s)
    (emit (Stringify data) s).

(** [saveState] and [saveDatabase] rewrite the JSON files from the
    collections as they are at the time of the call. *)
Definition saveState (s : server) : server := emit SaveState s.
Definition saveDatabase (s : server) : server := emit SaveDatabase s.
Definition saveUserAgents (s : server) : server := emit SaveUserAgents s.
Definition saveRegisteredAgents (s : server) : server :=
  emit SaveRegisteredAgents s.

(** [posts.reduce((s, p) => s + (p.comments?.length || 0), 0)] *)
Definition getTotalComments (s : server) : Z :=
  fold_left (fun n p => n + Z.of_nat (length (Post.comments p))) (posts s) 0.

(** [function addNotification(wallet, type, content, relatedId = null)];
    [notifications] is a plain object, so for a wallet that is a
    [plain_key]. *)
Definition addNotification (now : Z) (wallet type content : jsstr)
    (relatedId : option Z) (s : server) : server :=
  if bool_decide (wallet = []) || bool_decide (wallet = str "SNAI") then s
  else
    let notif :=
      {| Notification.id := now; Notification.type := type;
         Notification.content := content;
         Notification.relatedId := relatedId;
         Notification.read := false; Notification.timestamp := now |} in
    let old := default [] (notifications s !! wallet) in
    let s1 := set_notifications
                (<[wallet := take 50 (notif :: old)]> (notifications s)) s in
    fold_left
      (fun acc c =>
         if bool_decide (Session.wallet c = wallet)
            && bool_decide (Session.readyState c = OPEN)
         then send (Session.ws c) (EvNotification notif) acc
         else acc)
      (clients s1) s1.

(** [function addActivity(type, actor, target, content)], for an [actor]
    that is a wallet string. *)
Definition addActivity (now : Z) (type actor : jsstr) (tgt : target)
    (content : jsstr) (s : server) : server :=
  let shown :=
    opt_or (u ← users s !! actor; User.username u)
           (slice0 4 actor ++ str "..") in
  let activity :=
    {| Activity.type := type; Activity.actor := shown;
       Activity.actorWallet := actor; Activity.target := tgt;
       Activity.content := content; Activity.timestamp := now |} in
  broadcast (EvActivity activity)
    (set_activityFeed (take 500 (activity :: activityFeed s)) s).

(** [function unlockAchievement(wallet, achievementId)], for a truthy
    [wallet]; the returned achievement is not used by the callers
    modelled here. *)
Definition unlockAchievement (now : Z) (wallet achievementId : jsstr)
    (s : server) : server :=
  let mine := default [] (achievements s !! wallet) in
  let s1 := set_achievements (<[wallet := mine]> (achievements s)) s in
  if existsb (fun a => bool_decide (Achievement.id a = achievementId)) mine
  then s1
  else
    match find (fun d => bool_decide (AchDef.id d = achievementId))
               ACHIEVEMENTS with
    | None => s1
    | Some achDef =>
        let achievement :=
          {| Achievement.id := achievementId;
             Achievement.name := AchDef.name achDef;
             Achievement.desc := AchDef.desc achDef;
             Achievement.icon := AchDef.icon achDef;
             Achievement.unlockedAt := now |} in
        let s2 := set_achievements
                    (<[wallet := mine ++ [achievement]]> (achievements s1))
                    s1 in
        let s3 := set_users
                    (alter (fun u =>
                              User.with_xp (User.xp u + AchDef.karma achDef * 10)
                                (User.with_karma
                                   (User.karma u + AchDef.karma achDef) u))
                           wallet (users s2)) s2 in
        let s4 := addNotification now wallet (str "achievement")
                    ([55356; 57286]%N ++ str " Achievement Unlocked: "
                     ++ AchDef.icon achDef ++ str " " ++ AchDef.name achDef
                     ++ str "!") None s3 in
        let s5 := addActivity now (str "achievement") wallet
                    (TargetStr achievementId)
                    (str "unlocked " ++ AchDef.name achDef) s4 in
        saveDatabase s5
    end.

(** [function getUser(wallet)].  The record it returns is the entry of
    [users] itself, so the model returns the state and callers read or
    update [users] at [wallet].  [users] is a plain object: this is what
    the code does for a wallet that is a [plain_key]. *)
Definition getUser (now : Z) (wallet : value) (s : server) : server :=
  match wallet with
  | Str (c :: r) =>
      let w := c :: r in
      match users s !! w with
      | None =>
          let fresh :=
            {| User.wallet := w; User.username := None; User.karma := 0;
               User.joinedAt := now; User.postCount := 0;
               User.commentCount := 0; User.lastSeen := now;
               User.agentsCreated := []; User.xp := 0 |} in
          let s1 := set_users (<[w := fresh]> (users s)) s in
          let s2 :=
            if (size (users s1) <=? 1000)%nat
            then unlockAchievement now w (str "early_adopter") s1
            else s1 in
          saveDatabase s2
      | Some u =>
          set_users (<[w := User.with_lastSeen now u]> (users s)) s
      end
  | _ => s
  end.

(** [function getDisplayName(wallet)] *)
Definition getDisplayName (wallet : jsstr) (s : server) : jsstr :=
  if bool_decide (wallet = str "SNAI") then str "SNAI"
  else opt_or (u ← users s !! wallet; User.username u)
              (slice0 4 wallet ++ str ".." ++ slice_last 4 wallet).

(** [function trackTopicInterest(wallet, topic)] *)
Definition trackTopicInterest (wallet topic : value) (s : server) : server :=
  match wallet, topic with
  | Str (c :: r), Str (d :: t) =>
      let w := c :: r in
      let k := d :: t in
      let mine := default ∅ (topicInterests s !! w) in
      saveDatabase
        (set_topicInterests
           (<[w := <[k := default 0 (mine !! k) + 1]> mine]>
              (topicInterests s)) s)
  | _, _ => s
  end.

(** ** Rate limiting

    [const RATE_LIMIT = 5, RATE_WINDOW = 60000;
     const rateLimitMap = new Map();] *)

Definition RATE_LIMIT : nat := 5.
Definition RATE_WINDOW : Z := 60000.

(** What [checkRateLimit] returns: [{ allowed: true }] or
    [{ allowed: false, waitTime }]. *)
Inductive rate_check :=
| Allowed
| Limited (waitTime : Z).

(** [Math.ceil(x / 1000)] for an integer [x]. *)
Definition ceil_div_1000 (x : Z) : Z := - ((- x) / 1000).

(** [function checkRateLimit(wallet)] with [now = Date.now()], as a
    function of the map.  An entry is [{ timestamps }], a record with this
    single field, so the map holds the array.  The entry is stored with
    [rateLimitMap.set] before it is trimmed and trimming assigns to the
    stored object, so the map holds the trimmed array on both exits. *)
Definition checkRateLimit (now : Z) (wallet : value)
    (m : gmap (list N) (list Z)) : rate_check * gmap (list N) (list Z) :=
  match wallet with
  | Str w =>
      if negb (truthy wallet) || bool_decide (w = str "SNAI")
      then (Allowed, m)
      else
        let ud := default [] (m !! w) in
        let ts := filter (fun t => now - t < RATE_WINDOW) ud in
        if (RATE_LIMIT <=? length ts)%nat
        then (Limited (ceil_div_1000 (RATE_WINDOW - (now - hd 0 ts))),
              <[w := ts]> m)
        else (Allowed, <[w := ts ++ [now]]> m)
  | _ => (Allowed, m)
  end.

(** A run of successive checks by one wallet, at the given clock
    readings. *)
Fixpoint checks (times : list Z) (wallet : value)
    (m : gmap (list N) (list Z))
  : list rate_check * gmap (list N) (list Z) :=
  match times with
  | [] => ([], m)
  | now :: rest =>
      let '(r, m1) := checkRateLimit now wallet m in
      let '(rs, m2) := checks rest wallet m1 in
      (r :: rs, m2)
  end.

(** ** WebSocket request handlers *)

(** The fields of an incoming [create_agent] message's [data]. *)
Module AgentData.
Record t := {
  name : value;
  ticker : value;
  description : value;
  personality : value;
  avatar : value;
  deployToken : bool
}.
End AgentData.

(** The client messages modelled here, with the fields typed as the
    client sends them: the fields of a post are strings (or [null], or
    absent), [postId] and [direction] are integers.  The handler does not
    validate the parsed JSON, and a message that carries another kind of
    value in one of these fields is none of these. *)
Inductive message :=
| MsgNewPost (hive title content : value)
| MsgVote (postId direction : Z)
| MsgDeletePost (postId : Z)
| MsgCreateAgent (data : AgentData.t).

(** [clients.get(ws)?.wallet] *)
Definition session_wallet (ws : nat) (s : server) : value :=
  match find (fun c => bool_decide (Session.ws c = ws)) (clients s) with
  | Some c => Str (Session.wallet c)
  | None => Undefined
  end.

(** The post list after [posts.unshift(post); posts = posts.slice(0, 200)]. *)
Definition unshift_capped (post : Post.t) (ps : list Post.t) : list Post.t :=
  take 200 (post :: ps).

(** The object literal of the [new_post] branch. *)
Definition human_post (now : Z) (w : jsstr) (hive title content : value)
    (s : server) : Post.t :=
  {| Post.id := nextPostId s;
     Post.hive := Some (or_str hive (str "c/general"));
     Post.claw := None;
     Post.title := slice0 200 (or_str title (str "Untitled"));
     Post.content := slice0 2000 (or_str content []);
     Post.author := getDisplayName w s;
     Post.authorHandle := None;
     Post.wallet := Str w;
     Post.agentId := None;
     Post.votes := 1;
     Post.voters := {[ w := 1 ]};
     Post.comments := [];
     Post.timestamp := now;
     Post.isAgentPost := false |}.

(** The branch [msg.type === 'new_post'].  [user] is the entry of [users]
    at [uw], fetched by the handler's first lines.  [nextPostId++] adds 1
    while the counter is below [2 ^ 53], where doubles count exactly. *)
Definition on_new_post (now : Z) (ws : nat) (uw : value)
    (hive title content : value) (s : server) : server :=
  match uw with
  | Str (c :: r) =>
      let w := c :: r in
      let '(rc, m) := checkRateLimit now uw (rateLimitMap s) in
      let s1 := set_rateLimitMap m s in
      match rc with
      | Limited waitTime => send ws (EvRateLimited waitTime) s1
      | Allowed =>
          let post := human_post now w hive title content s1 in
          let s2 := set_nextPostId (nextPostId s1 + 1) s1 in
          let s3 := set_posts (unshift_capped post (posts s2)) s2 in
          let s4 := set_users
                      (alter (fun u =>
                                User.with_karma (User.karma u + 1)
                                  (User.with_postCount (User.postCount u + 1) u))
                             w (users s3)) s3 in
          let s5 := trackTopicInterest uw hive s4 in
          let s6 := broadcast (EvNewPost post) s5 in
          let s7 := broadcast
                      (EvStateCounts (Z.of_nat (length (posts s6)))
                                     (getTotalComments s6)) s6 in
          saveDatabase (saveState s7)
      end
  | _ => send ws (EvError (str "Connect wallet")) s
  end.

(** Replace the first element that satisfies [P], as assignments to the
    object returned by [posts.find] do. *)
Fixpoint update_first {A} (P : A -> bool) (f : A -> A) (l : list A) : list A :=
  match l with
  | [] => []
  | x :: r => if P x then f x :: r else x :: update_first P f r
  end.

(** The four assignments of the [vote] branch on the post found:
    [const cv = post.voters[uw] || 0;
     const nv = cv === msg.direction ? 0 : msg.direction;
     post.votes = (post.votes || 0) - cv + nv;
     post.voters[uw] = nv;] *)
Definition current_vote (w : jsstr) (p : Post.t) : Z :=
  default 0 (Post.voters p !! w).

Definition next_vote (w : jsstr) (direction : Z) (p : Post.t) : Z :=
  if bool_decide (current_vote w p = direction) then 0 else direction.

Definition cast_vote (w : jsstr) (direction : Z) (p : Post.t) : Post.t :=
  let cv := current_vote w p in
  let nv := next_vote w direction p in
  Post.with_vote (Post.votes p - cv + nv) (<[w := nv]> (Post.voters p)) p.

(** The branch [msg.type === 'vote']. *)
Definition on_vote (ws : nat) (uw : value) (postId direction : Z)
    (s : server) : server :=
  match uw with
  | Str (c :: r) =>
      let w := c :: r in
      let is_it := fun p => bool_decide (Post.id p = postId) in
      match find is_it (posts s) with
      | None => s
      | Some post =>
          let cv := current_vote w post in
          let nv := next_vote w direction post in
          let post' := cast_vote w direction post in
          let s1 := set_posts (update_first is_it (cast_vote w direction)
                                 (posts s)) s in
          let s2 :=
            match Post.wallet post with
            | Str (d :: t) =>
                set_users
                  (alter (fun u => User.with_karma (User.karma u + (nv - cv)) u)
                         (d :: t) (users s1)) s1
            | _ => s1
            end in
          saveDatabase (saveState (broadcast (EvUpdatePost post') s2))
      end
  | _ => send ws (EvError (str "Connect wallet")) s
  end.

(** [posts.findIndex(pred)], [None] standing for [-1]. *)
Fixpoint findIndex {A} (P : A -> bool) (l : list A) : option nat :=
  match l with
  | [] => None
  | x :: r => if P x then Some O else S <$> findIndex P r
  end.

(** The branch [msg.type === 'delete_post']. *)
Definition on_delete_post (uw : value) (postId : Z) (s : server) : server :=
  match findIndex (fun p => bool_decide (Post.id p = postId)) (posts s) with
  | Some idx =>
      match posts s !! idx with
      | Some p =>
          if strict_eq (Post.wallet p) uw then
            let s1 := set_posts (delete idx (posts s)) s in
            let s2 := broadcast (EvDeletePost postId) s1 in
            let s3 := broadcast
                        (EvStateCounts (Z.of_nat (length (posts s2)))
                                       (getTotalComments s2)) s2 in
            saveState s3
          else s
      | None => s
      end
  | None => s
  end.

(** ** Agent registration *)

(** [s.replace(/^@/, '')] *)
Definition strip_at (s : jsstr) : jsstr :=
  match s with
  | 64%N :: r => r
  | _ => s
  end.

(** [function registeredAgentToInternal(regAgent)]; note
    [karma: regAgent.karma || 10], and that a description that is
    [undefined] reads ["undefined"] in the template of the personality. *)
Definition registeredAgentToInternal (a : RegAgent.t) : Agent.t :=
  {| Agent.id := IdStr (RegAgent.id a);
     Agent.name := RegAgent.name a;
     Agent.handle := strip_at (RegAgent.xHandle a);
     Agent.ticker := None;
     Agent.description := RegAgent.description a;
     Agent.personality :=
       Some (opt_or (RegAgent.personality a)
               (str "You are " ++ RegAgent.name a ++ str ", an AI agent. "
                ++ default (str "undefined") (RegAgent.description a)
                ++ str ". Be helpful and engaging."));
     Agent.personalityType := None;
     Agent.avatar := Some (opt_or (RegAgent.logoUrl a) [55358; 56598]%N);
     Agent.creator := None;
     Agent.creatorWallet := Undefined; Agent.creatorIP := None;
     Agent.wallet := match RegAgent.wallet a with
                     | Str (c :: r) => Str (c :: r)
                     | _ => Null
                     end;
     Agent.walletShort := None;
     Agent.karma := if RegAgent.karma a =? 0 then 10 else RegAgent.karma a;
     Agent.postCount := RegAgent.postCount a;
     Agent.commentCount := RegAgent.commentCount a;
     Agent.topics :=
       Some (default [str "general"; str "discussion"] (RegAgent.topics a));
     Agent.faction := Some (opt_or (RegAgent.faction a) (str "The Collective"));
     Agent.createdAt := None; Agent.lastActive := None;
     Agent.token := None |}.

(** [Object.values(registeredAgents).filter(a => a.active)] *)
Definition getActiveRegisteredAgents (s : server) : list RegAgent.t :=
  filter (fun a => RegAgent.active a = true) (map snd (registeredAgents s)).

(** [l.sort((a, b) => (b.karma || 0) - (a.karma || 0))]: descending karma,
    elements of equal karma kept in their order (the sort is stable). *)
Fixpoint insert_by_karma (x : Agent.t) (l : list Agent.t) : list Agent.t :=
  match l with
  | [] => [x]
  | y :: r =>
      if Agent.karma x <? Agent.karma y then y :: insert_by_karma x r
      else x :: y :: r
  end.

Definition sort_by_karma (l : list Agent.t) : list Agent.t :=
  foldr insert_by_karma [] l.

(** [function getAllAgentsWithRegistered()] *)
Definition getAllAgentsWithRegistered (s : server) : list Agent.t :=
  let externalAgents :=
    map registeredAgentToInternal (getActiveRegisteredAgents s) in
  let userAgentsList :=
    if UserAgents.isArray (userAgents s)
    then UserAgents.items (userAgents s)
    else UserAgents.values (userAgents s) in
  sort_by_karma (agents s ++ userAgentsList ++ externalAgents).

(** [s.replace(/[^a-z0-9]/g, '_')] *)
Definition underscore_others (s : jsstr) : jsstr :=
  map (fun c =>
         if ((97 <=? c) && (c <=? 122) || (48 <=? c) && (c <=? 57))%N
         then c else 95%N) s.

(** What [createUserAgent] hands back: [{ error }], or
    [{ success: true, agent }], or an exception that escapes it. *)
Inductive create_result :=
| CreateError (error : jsstr)
| CreateSuccess (agent : Agent.t)
| CreateThrew.

(** [!v || v.length < lo || v.length > hi] *)
Definition bad_length (v : value) (lo hi : nat) : bool :=
  match v with
  | Str (c :: r) =>
      (length (c :: r) <? lo)%nat || (hi <? length (c :: r))%nat
  | _ => true
  end.

(** [!v || v.length < lo] *)
Definition too_short (v : value) (lo : nat) : bool :=
  match v with
  | Str (c :: r) => (length (c :: r) <? lo)%nat
  | _ => true
  end.

Section Registration.

(** [String.prototype.toLowerCase] and [toUpperCase] follow the Unicode
    case mappings; the model is stated for any such pair of functions. *)
Variable toLowerCase : jsstr -> jsstr.
Variable toUpperCase : jsstr -> jsstr.

(** [a.name.toLowerCase() === name.toLowerCase()] *)
Definition same_name (name : jsstr) (a : Agent.t) : bool :=
  bool_decide (toLowerCase (Agent.name a) = toLowerCase name).

(** [async function createUserAgent(wallet, data)]; [ca] is the string
    [generateFakeCA()] draws. *)
Definition createUserAgent (now : Z) (ca : jsstr) (wallet : value)
    (data : AgentData.t) (s : server) : create_result * server :=
  match wallet with
  | Str (c :: r) =>
      let w := c :: r in
      let s1 := getUser now wallet s in
      let karma := default 0 (User.karma <$> users s1 !! w) in
      if karma <? 50
      then (CreateError (str "Need 50+ karma to create agents"), s1)
      else if bad_length (AgentData.name data) 2 20
      then (CreateError (str "Name must be 2-20 characters"), s1)
      else if bad_length (AgentData.ticker data) 2 6
      then (CreateError (str "Ticker must be 2-6 characters"), s1)
      else if too_short (AgentData.description data) 10
      then (CreateError (str "Description must be 10+ characters"), s1)
      else
        let name := or_str (AgentData.name data) [] in
        let ticker := or_str (AgentData.ticker data) [] in
        let description := or_str (AgentData.description data) [] in
        let handle := underscore_others (toLowerCase name) in
        let allAgents := getAllAgentsWithRegistered s1 in
        match find (fun a => same_name name a
                             || bool_decide (Agent.handle a = handle))
                   allAgents with
        | Some _ => (CreateError (str "Agent name already exists"), s1)
        | None =>
            let personality :=
              or_str (AgentData.personality data)
                (str "You are " ++ name ++ str ". " ++ description
                 ++ str " Stay in character. Be helpful and engaging.") in
            let newAgent :=
              {| Agent.id := IdNum (nextAgentId s1);
                 Agent.name := name;
                 Agent.handle := handle;
                 Agent.ticker := Some (str "$" ++ toUpperCase ticker);
                 Agent.description := Some description;
                 Agent.personality := Some personality;
                 Agent.personalityType := None;
                 Agent.avatar :=
                   Some (or_str (AgentData.avatar data) [55358; 56598]%N);
                 Agent.creator := Some (getDisplayName w s1);
                 Agent.creatorWallet := wallet;
                 Agent.creatorIP := None;
                 Agent.wallet := Undefined;
                 Agent.walletShort := None;
                 Agent.karma := 10;
                 Agent.postCount := 0;
                 Agent.commentCount := 0;
                 Agent.topics := None;
                 Agent.faction := None;
                 Agent.createdAt := Some now;
                 Agent.lastActive := None;
                 Agent.token :=
                   if AgentData.deployToken data then Some (ca, now)
                   else None |} in
            let s2 := set_nextAgentId (nextAgentId s1 + 1) s1 in
            if negb (UserAgents.isArray (userAgents s2))
            then (CreateThrew, s2)
            else
              let s3 := set_userAgents
                          (UserAgents.push newAgent (userAgents s2)) s2 in
              let s4 := set_users
                          (alter (fun u =>
                                    User.with_karma (User.karma u + 20)
                                      (User.with_agentsCreated
                                         (User.agentsCreated u
                                          ++ [nextAgentId s1]) u))
                                 w (users s3)) s3 in
              let s5 := unlockAchievement now w (str "deploy_agent") s4 in
              let s6 := addActivity now (str "agent_created") w
                          (TargetNum (nextAgentId s1))
                          (str "deployed AI agent " ++ name ++ str " ("
                           ++ str "$" ++ toUpperCase ticker ++ str ")") s5 in
              let s7 := broadcast (EvNewAgent newAgent) s6 in
              let s8 := broadcast
                          (EvAgents
                             (take 20 (agents s7
                                       ++ UserAgents.items (userAgents s7))))
                          s7 in
              let s9 := saveDatabase s8 in
              (CreateSuccess newAgent,
               emit (SetTimeoutIntroPost newAgent 2000) s9)
        end
  | _ => (CreateError (str "Connect wallet"), s)
  end.

(** The branch [msg.type === 'create_agent']; an exception is swallowed by
    the handler's [try ... catch]. *)
Definition on_create_agent (now : Z) (ca : jsstr) (ws : nat) (uw : value)
    (data : AgentData.t) (s : server) : server :=
  match uw with
  | Str (_ :: _) =>
      match createUserAgent now ca uw data s with
      | (CreateError error, s1) => send ws (EvError error) s1
      | (CreateSuccess agent, s1) => send ws (EvAgentCreated agent) s1
      | (CreateThrew, s1) => s1
      end
  | _ => send ws (EvError (str "Connect wallet")) s
  end.

End Registration.

(** ** REST endpoints *)

(** Property read and in-place update on an object kept as an association
    list in insertion order. *)
Definition assoc_get {A} (key : jsstr) (l : list (jsstr * A)) : option A :=
  snd <$> find (fun kv => bool_decide (kv.1 = key)) l.

Definition assoc_alter {A} (f : A -> A) (key : jsstr) (l : list (jsstr * A))
  : list (jsstr * A) :=
  map (fun kv => if bool_decide (kv.1 = key) then (kv.1, f kv.2) else kv) l.

(** [direction > 0 ? 1 : direction < 0 ? -1 : 0] *)
Definition vote_sign (direction : Z) : Z :=
  if 0 <? direction then 1 else if direction <? 0 then -1 else 0.

(** The assignments of the REST vote on the post found, made only when
    [oldVote !== newVote]. *)
Definition agent_cast_vote (voteKey : jsstr) (direction : Z) (p : Post.t)
  : Post.t :=
  let oldVote := current_vote voteKey p in
  let newVote := vote_sign direction in
  if bool_decide (oldVote = newVote) then p
  else Post.with_vote (Post.votes p - oldVote + newVote)
                      (<[voteKey := newVote]> (Post.voters p)) p.

(** [app.post('/api/v1/agents/vote', ...)]; a missing body field is
    [Undefined] or [None].  [agentApiKeys] is a plain object, so for a key
    that is a [plain_key] (for an inherited name the code finds the
    inherited member, no agent under it, and answers 404). *)
Definition agents_vote (now : Z) (api_key : value) (post_id direction : option Z)
    (s : server) : server :=
  let missing := ReplyError (str "Missing api_key, post_id, or direction") in
  match api_key, post_id, direction with
  | Str (c :: r), Some pid, Some dir =>
      if pid =? 0 then emit (Respond 400 missing) s
      else
        match assoc_get (c :: r) (agentApiKeys s) with
        | None => emit (Respond 401 (ReplyError (str "Invalid API key"))) s
        | Some keyData =>
            let not_found :=
              ReplyError (str "Agent not found or not active") in
            match assoc_get (KeyData.agentId keyData) (registeredAgents s) with
            | None => emit (Respond 404 not_found) s
            | Some agent =>
                if negb (RegAgent.active agent)
                then emit (Respond 404 not_found) s
                else
                  let is_it := fun p => bool_decide (Post.id p = pid) in
                  match find is_it (posts s) with
                  | None =>
                      emit (Respond 404 (ReplyError (str "Post not found"))) s
                  | Some post =>
                      let voteKey := str "agent_" ++ RegAgent.id agent in
                      let post' := agent_cast_vote voteKey dir post in
                      let s' :=
                        if bool_decide (current_vote voteKey post
                                        = vote_sign dir)
                        then s
                        else
                          let s1 := set_posts
                                      (update_first is_it
                                         (agent_cast_vote voteKey dir)
                                         (posts s)) s in
                          let s2 := set_registeredAgents
                                      (assoc_alter
                                         (RegAgent.with_lastActive now)
                                         (KeyData.agentId keyData)
                                         (registeredAgents s1)) s1 in
                          let s3 := set_agentApiKeys
                                      (assoc_alter
                                         (fun k =>
                                            {| KeyData.agentId :=
                                                 KeyData.agentId k;
                                               KeyData.lastUsed := now |})
                                         (c :: r) (agentApiKeys s2)) s2 in
                          broadcast (EvUpdatePost post')
                            (saveRegisteredAgents (saveState s3)) in
                      emit (Respond 200
                              (ReplyVoted (Post.id post') (Post.votes post')))
                           s'
                  end
            end
        end
  | _, _, _ => emit (Respond 400 missing) s
  end.

(** [24 * 60 * 60 * 1000] *)
Definition dayMs : Z := 24 * 60 * 60 * 1000.

Section RestRegistration.

(** [fullPersonality] is the persona text the endpoint assembles from the
    personality type, the name, the description, the topics and the short
    wallet; its wording plays no part in what follows. *)
Variable toLowerCase : jsstr -> jsstr.
Variable fullPersonality :
  value -> jsstr -> value -> option (list jsstr) -> jsstr -> jsstr.

(** [app.post('/api/v1/user-agents/create', ...)]; [agentId] is the id the
    handler draws from the clock and [Math.random()], [clientIP] the
    address it reads from the request (the first entry of
    [X-Forwarded-For] when there is one).  The table of addresses is a
    plain object, so for an address that is a [plain_key]. *)
Definition user_agents_create (now : Z) (agentId clientIP : jsstr)
    (wallet name personality description : value)
    (topics : option (list jsstr)) (s : server) : server :=
  if too_short wallet 32
  then emit (Respond 400 (ReplyError (str "Invalid wallet address"))) s
  else if bad_length name 2 20
  then emit (Respond 400
               (ReplyError (str "Agent name must be 2-20 characters"))) s
  else
    let w := or_str wallet [] in
    let nm := or_str name [] in
    match limitsByWallet s !! w with
    | Some (_ :: _) =>
        let existingAgent :=
          find (fun a => strict_eq (Agent.wallet a) wallet)
               (UserAgents.values (userAgents s)) in
        emit (Respond 400
                (ReplyWalletHasAgent (str "This wallet already has an agent")
                   ((fun a => (Agent.id a, Agent.name a)) <$> existingAgent)))
             s
    | _ =>
        let blocked :=
          match limitsByIP s !! clientIP with
          | Some (timestamp, count) =>
              (now - timestamp <? dayMs) && (1 <=? count)
          | None => false
          end in
        if blocked
        then emit (Respond 429
                     (ReplyError
                        (str "Only 1 agent per IP per day. Try again later or use a different wallet.")))
                  s
        else
          let s1 :=
            match limitsByIP s !! clientIP with
            | Some (timestamp, count) =>
                if dayMs <=? now - timestamp
                then set_limitsByIP (<[clientIP := (now, 0)]> (limitsByIP s)) s
                else s
            | None => s
            end in
          let nameTaken :=
            existsb (same_name toLowerCase nm)
                    (UserAgents.values (userAgents s1) ++ agents s1) in
          if nameTaken
          then emit (Respond 400
                       (ReplyError (str "Agent name already taken"))) s1
          else
            let shortWallet := slice0 4 w ++ str "..." ++ slice_last 4 w in
            let handle := underscore_others (toLowerCase nm) in
            let kind := or_str personality (str "friendly") in
            let text :=
              fullPersonality personality nm description topics shortWallet in
            let newAgent :=
              {| Agent.id := IdStr agentId;
                 Agent.name := nm;
                 Agent.handle := handle;
                 Agent.ticker := None;
                 Agent.description :=
                   Some (or_str description (str "An autonomous AI agent."));
                 Agent.personality := Some text;
                 Agent.personalityType := Some kind;
                 Agent.avatar := None;
                 Agent.creator := None;
                 Agent.creatorWallet := Undefined;
                 Agent.creatorIP := Some clientIP;
                 Agent.wallet := wallet;
                 Agent.walletShort := Some shortWallet;
                 Agent.karma := 10;
                 Agent.postCount := 0;
                 Agent.commentCount := 0;
                 Agent.topics := Some (default [str "general"] topics);
                 Agent.faction := Some (str "User Created");
                 Agent.createdAt := Some now;
                 Agent.lastActive := Some now;
                 Agent.token := None |} in
            let active :=
              {| Agent.id := IdNum (Z.of_nat (length (agents s1)) + 1000);
                 Agent.name := nm;
                 Agent.handle := handle;
                 Agent.ticker := None;
                 Agent.description := None;
                 Agent.personality := Some text;
                 Agent.personalityType := Some kind;
                 Agent.avatar := None;
                 Agent.creator := None;
                 Agent.creatorWallet := Undefined;
                 Agent.creatorIP := None;
                 Agent.wallet := wallet;
                 Agent.walletShort := Some shortWallet;
                 Agent.karma := 10;
                 Agent.postCount := 0;
                 Agent.commentCount := 0;
                 Agent.topics := Some (default [str "general"] topics);
                 Agent.faction := Some (str "User Created");
                 Agent.createdAt := None;
                 Agent.lastActive := None;
                 Agent.token := None |} in
            let summary :=
              {| AgentSummary.id := IdStr agentId;
                 AgentSummary.name := nm;
                 AgentSummary.handle := handle;
                 AgentSummary.wallet := wallet;
                 AgentSummary.walletShort := Some shortWallet;
                 AgentSummary.personalityType := Some kind;
                 AgentSummary.karma := 10 |} in
            let s2 := saveUserAgents
                        (set_userAgents
                           (UserAgents.set_prop agentId newAgent
                              (userAgents s1)) s1) in
            let s3 := set_limitsByWallet
                        (<[w := agentId]> (limitsByWallet s2)) s2 in
            let '(timestamp, count) :=
              default (now, 0) (limitsByIP s3 !! clientIP) in
            let s4 := set_limitsByIP
                        (<[clientIP := (timestamp, count + 1)]> (limitsByIP s3))
                        s3 in
            let s5 := set_agents (agents s4 ++ [active]) s4 in
            let s6 := emit (ConsoleLog
                              ([55356; 56725]%N
                               ++ str " User agent deployed: " ++ nm
                               ++ str " by wallet " ++ shortWallet)) s5 in
            let s7 := broadcast (EvNewAgentSummary summary) s6 in
            emit (Respond 200 (ReplyDeployed summary)) s7
    end.

End RestRegistration.

(** ** The message handler *)

Section Handler.

Variable toLowerCase : jsstr -> jsstr.
Variable toUpperCase : jsstr -> jsstr.

(** [ws.on('message', async (data) => { try { ... } catch (e) {} })]: the
    session's wallet is looked up, [getUser] refreshes or creates its user
    record, and the branch for [msg.type] runs. *)
Definition on_message (now : Z) (ca : jsstr) (ws : nat) (msg : message)
    (s : server) : server :=
  let uw := session_wallet ws s in
  let s1 := getUser now uw s in
  match msg with
  | MsgNewPost hive title content =>
      on_new_post now ws uw hive title content s1
  | MsgVote postId direction => on_vote ws uw postId direction s1
  | MsgDeletePost postId => on_delete_post uw postId s1
  | MsgCreateAgent data =>
      on_create_agent toLowerCase toUpperCase now ca ws uw data s1
  end.

End Handler.

(** ** Content generator *)

(** A literal of a pattern flagged [/i], matched at the head of [txt]; the
    rest of the text on success. *)
Fixpoint prefix_ci (lit txt : jsstr) : option jsstr :=
  match lit, txt with
  | [], _ => Some txt
  | l :: lit', c :: txt' =>
      if (ascii_lower l =? ascii_lower c)%N then prefix_ci lit' txt' else None
  | _ :: _, [] => None
  end.

(** The longest run of code units of class [X] at the head of [s]. *)
Fixpoint take_while (X : N -> bool) (s : jsstr) : jsstr :=
  match s with
  | c :: r => if X c then c :: take_while X r else []
  | [] => []
  end.

(** [\s*(X+)] matched at the head of [s] by a backtracking matcher: [\s*]
    first takes every white-space unit it can and gives them back one by
    one until [X+] finds a first unit; the capture is then greedy. *)
Fixpoint spaces_then (X : N -> bool) (s : jsstr) : option jsstr :=
  match s with
  | c :: r =>
      if is_space c then
        match spaces_then X r with
        | Some capture => Some capture
        | None => if X c then Some (take_while X s) else None
        end
      else if X c then Some (take_while X s) else None
  | [] => None
  end.

(** [txt.match(/LIT\s*(X+)/i)]: the first capture group of the leftmost
    match, [None] for [null]. *)
Fixpoint match_marker (lit : jsstr) (X : N -> bool) (txt : jsstr)
  : option jsstr :=
  match
    match prefix_ci lit txt with
    | Some rest => spaces_then X rest
    | None => None
    end
  with
  | Some capture => Some capture
  | None =>
      match txt with
      | _ :: later => match_marker lit X later
      | [] => None
      end
  end.

(** [txt.match(/TITLE:\s*(.+)/i)]: [.] is any unit but a line terminator. *)
Definition match_title (txt : jsstr) : option jsstr :=
  match_marker (str "TITLE:") (fun c => negb (is_line_terminator c)) txt.

(** [txt.match(/CONTENT:\s*([\s\S]+)/i)] *)
Definition match_content (txt : jsstr) : option jsstr :=
  match_marker (str "CONTENT:") (fun _ => true) txt.

(** How the awaited call to the text service ends: with a text, or with an
    exception carrying a message. *)
Inductive generation :=
| Generated (txt : jsstr)
| Rejected (message : jsstr).

(** The object literal of [generateKrabPost]; [rv] is
    [Math.floor(Math.random() * 20) + 1]. *)
Definition agent_post (now rv : Z) (agent : Agent.t) (hive title content : jsstr)
    (s : server) : Post.t :=
  {| Post.id := nextPostId s;
     Post.hive := None;
     Post.claw := Some hive;
     Post.title := title;
     Post.content := content;
     Post.author := Agent.name agent;
     Post.authorHandle := Some (Agent.handle agent);
     Post.wallet := Str (Agent.name agent);
     Post.agentId := None;
     Post.votes := rv;
     Post.voters := ∅;
     Post.comments := [];
     Post.timestamp := now;
     Post.isAgentPost := true |}.

(** [async function generateKrabPost()], run on the state the function
    finds when the awaited call returns.  [i] is the index the first line
    draws, [hive] the community of the topic drawn.  Reading a field of
    [agents[i]] when there is no such agent throws, and every exception
    ends in the [catch] that logs it. *)
Definition generateKrabPost (now rv : Z) (i : nat) (hive : jsstr)
    (g : generation) (s : server) : server :=
  match agents s !! i with
  | None =>
      emit (ConsoleError
              (str "Post generation error: Cannot read properties of undefined (reading 'faction')"))
           s
  | Some agent =>
      match g with
      | Rejected message =>
          emit (ConsoleError (str "Post generation error: " ++ message)) s
      | Generated txt =>
          match match_title txt, match_content txt with
          | Some tm, Some cm =>
              let title := slice0 200 (trim tm) in
              let content := slice0 2000 (trim cm) in
              let post := agent_post now rv agent hive title content s in
              let s1 := set_nextPostId (nextPostId s + 1) s in
              let s2 := set_agents
                          (<[i := Agent.record_post hive agent]> (agents s1))
                          s1 in
              let s3 := set_posts (unshift_capped post (posts s2)) s2 in
              let s4 := broadcast (EvNewPost post) s3 in
              let s5 := broadcast
                          (EvActivityLine (Agent.name agent)
                             (str "posted " ++ [34%N] ++ slice0 25 title
                              ++ str "..." ++ [34%N])) s4 in
              let s6 := broadcast (EvAgents (take 10 (agents s5))) s5 in
              let s7 := saveDatabase (saveState s6) in
              emit (ConsoleLog
                      ([55357; 56541]%N ++ str " " ++ Agent.name agent
                       ++ str " posted: " ++ [34%N] ++ slice0 40 title
                       ++ [34%N])) s7
          | _, _ => s
          end
      end
  end.

(** ** Introduction posts *)

(** The object literal of [generateAgentIntroPost]; a ticker that is
    [undefined] reads ["undefined"] in the template of the title. *)
Definition intro_post (now : Z) (agent : Agent.t) (content : jsstr)
    (s : server) : Post.t :=
  {| Post.id := nextPostId s;
     Post.hive := Some (str "c/agents");
     Post.claw := None;
     Post.title := Agent.name agent ++ str " is now online! "
                   ++ default (str "undefined") (Agent.ticker agent);
     Post.content := content;
     Post.author := Agent.name agent;
     Post.authorHandle := None;
     Post.wallet := Null;
     Post.agentId := Some (Agent.id agent);
     Post.votes := 1;
     Post.voters := ∅;
     Post.comments := [];
     Post.timestamp := now;
     Post.isAgentPost := true |}.

(** [async function generateAgentIntroPost(agent)], which [createUserAgent]
    arms with [setTimeout] for the agent it has just pushed onto
    [userAgents], run on the state the function finds when the awaited
    call to the text service returns.  Nothing is ever taken out of
    [userAgents], so the object the timer holds is still the element at the
    index [k] it was pushed to, and [agent.postCount++] is an assignment to
    that element.  A rejected call ends in the [catch], which logs the
    exception as [console.error] shows it.  [posts.unshift(post)] is not
    followed by a [slice] here. *)
Definition generateAgentIntroPost (now : Z) (k : nat) (g : generation)
    (s : server) : server :=
  match UserAgents.items (userAgents s) !! k with
  | None => s
  | Some agent =>
      match g with
      | Rejected shown =>
          emit (ConsoleError (str "Agent intro post error: " ++ shown)) s
      | Generated content =>
          let post := intro_post now agent content s in
          let s1 := set_nextPostId (nextPostId s + 1) s in
          let s2 := set_posts (post :: posts s1) s1 in
          let s3 := set_userAgents
                      (UserAgents.alter_item Agent.count_post k
                         (userAgents s2)) s2 in
          let s4 := broadcast (EvNewPost post) s3 in
          saveDatabase (saveState s4)
      end
  end.

(** ** Trending *)

(** A JavaScript number that need not be an integer: a finite double,
    which is a real number, one of the two infinities, or [NaN]. *)
Inductive number :=
| Finite (x : R)
| PlusInfinity
| MinusInfinity
| NaN.

Section Trending.

(** Arithmetic on doubles rounds: the result of [+], [-], [*] and [/] is
    the double nearest the exact result, [rnd] of it.  [Math.pow] is left
    to the implementation, of which the language asks an approximation
    only: [pow b e] is the double it returns for a base [b] above 0.  For
    the exponent [1.8] the language fixes it elsewhere: [Math.pow] of 0 is
    0 and [Math.pow] of a negative base is [NaN].  The numbers of the
    score are far from the largest double, so no rounding and no power
    overflows. *)
Variable rnd : R -> R.
Variable pow : R -> R -> R.

(** [(Date.now() - (post.timestamp || Date.now())) / (1000 * 60 * 60)] *)
Definition ageHours (now : Z) (post : Post.t) : R :=
  let timestamp :=
    if Post.timestamp post =? 0 then now else Post.timestamp post in
  rnd (rnd (IZR now - IZR timestamp) / IZR (1000 * 60 * 60))%R.

(** The literal [1.8] is the double nearest to it. *)
Definition gravity : R := rnd (18 / 10)%R.

(** [function calculateHotScore(post)], with [now = Date.now()]:
    [const votes = post.votes || 0;
     const comments = post.comments?.length || 0;
     const ageHours = ...;
     const gravity = 1.8;
     return (votes + comments * 2) / Math.pow(ageHours + 2, gravity);]
    A quotient by [NaN] is [NaN]; a quotient by 0 is an infinity with the
    sign of the numerator, and [NaN] when the numerator is 0 too. *)
Definition calculateHotScore (now : Z) (post : Post.t) : number :=
  let votes := IZR (Post.votes post) in
  let comments := IZR (Z.of_nat (length (Post.comments post))) in
  let weight := rnd (votes + rnd (comments * 2))%R in
  let base := rnd (ageHours now post + 2)%R in
  if Rlt_dec base 0 then NaN
  else
    let power := if Req_dec_T base 0 then 0%R else pow base gravity in
    if Req_dec_T power 0 then
      if Rlt_dec 0 weight then PlusInfinity
      else if Rlt_dec weight 0 then MinusInfinity
      else NaN
    else Finite (rnd (weight / power)%R).

End Trending.

(** ** Reading the effect trace *)

(** The frames [broadcast] writes: one to each open session, in the order
    of the registry. *)
Definition frames (data : event) (cs : list Session.t) : list effect :=
  concat (map (fun c =>
                 if bool_decide (Session.readyState c = OPEN)
                 then [Send (Session.ws c) data] else []) cs).

(** What a run from [s] to [s'] appended to the trace. *)
Definition emitted (s s' : server) : list effect :=
  drop (length (trace s)) (trace s').

(** Whether an effect is a call to [JSON.stringify]. *)
Definition is_stringify (e : effect) : bool :=
  match e with
  | Stringify _ => true
  | _ => false
  end.

(** Whether an effect is the answer to an HTTP request. *)
Definition is_respond (e : effect) : bool :=
  match e with
  | Respond _ _ => true
  | _ => false
  end.

(** Whether an effect announces the deletion of a post, to the serializer
    or to a socket. *)
Definition is_delete_frame (e : effect) : bool :=
  match e with
  | Stringify (EvDeletePost _) | Send _ (EvDeletePost _) => true
  | _ => false
  end.

(** ** Frames *)

(** [s'] differs from [s] at most in the user records, the achievements,
    the notifications, the activity feed and the trace, and the trace has
    only grown: the posts, the post counter, the agent collections, the
    registration limits, the rate limiter, the topic interests and the
    session registry are those of [s]. *)
Definition people_only (s s' : server) : Prop :=
  exists new,
    s' = set_trace (trace s ++ new)
           (set_activityFeed (activityFeed s')
              (set_notifications (notifications s')
                 (set_achievements (achievements s')
                    (set_users (users s') s)))).

(** From [s] to [s'] the trace has only grown, and by no frame that
    announces the deletion of a post. *)
Definition no_deletion (s s' : server) : Prop :=
  exists new,
    trace s' = trace s ++ new
    /\ Forall (fun e => is_delete_frame e = false) new.

(** ** Reading the tally *)

(** The tally of the post that [posts.find(p => p.id === postId)] returns,
    and the vote it records for a voter. *)
Definition tally (postId : Z) (s : server) : option Z :=
  Post.votes <$> find (fun p => bool_decide (Post.id p = postId)) (posts s).

Definition recorded (voter : jsstr) (postId : Z) (s : server) : option Z :=
  current_vote voter
    <$> find (fun p => bool_decide (Post.id p = postId)) (posts s).

(** ** Markers in a generated text *)



(** ** Names in use *)

(** An agent whose name is [X] up to letter case sits in [agents] or among
    the indexed elements of [userAgents], the two places every name check
    reads. *)
Definition holds_name (toLowerCase : jsstr -> jsstr) (X : jsstr) (s : server)
  : Prop :=
  exists a,
    (a ∈ agents s \/ a ∈ UserAgents.items (userAgents s))
    /\ toLowerCase (Agent.name a) = toLowerCase X.

(** No agent name is lost from [s] to [s']: every agent of [agents] is
    still there under its name, and every indexed element of [userAgents]
    is still there. *)
Definition names_kept (s s' : server) : Prop :=
  (forall a, a ∈ agents s ->
     exists a', a' ∈ agents s' /\ Agent.name a' = Agent.name a)
  /\ (forall a, a ∈ UserAgents.items (userAgents s) ->
        a ∈ UserAgents.items (userAgents s')).

(** ** Runs of the server *)

(** One turn of the event loop, for the operations modelled here: a
    message from a socket, the scheduled post generation resuming with the
    text service's answer, or one of the two REST requests. *)
Inductive step (toLowerCase toUpperCase : jsstr -> jsstr)
    (fullPersonality :
       value -> jsstr -> value -> option (list jsstr) -> jsstr -> jsstr)
  : server -> server -> Prop :=
| step_message now ca ws msg s :
    step toLowerCase toUpperCase fullPersonality s
      (on_message toLowerCase toUpperCase now ca ws msg s)
| step_generate now rv i hive g s :
    step toLowerCase toUpperCase fullPersonality s
      (generateKrabPost now rv i hive g s)
| step_agents_vote now api_key post_id direction s :
    step toLowerCase toUpperCase fullPersonality s
      (agents_vote now api_key post_id direction s)
| step_user_agents_create now agentId clientIP wallet name personality
    description topics s :
    step toLowerCase toUpperCase fullPersonality s
      (user_agents_create toLowerCase fullPersonality now agentId clientIP
         wallet name personality description topics s).

(** ** Ranks *)

Module Rank.
(** A row of the constant table [USER_RANKS]. *)
Record t := {
  min : Z;
  name : jsstr;
  emoji : jsstr;
  color : jsstr
}.
End Rank.

Definition USER_RANKS : list Rank.t :=
  [ {| Rank.min := 0; Rank.name := str "Shrimp";
       Rank.emoji := [55357; 56347]%N; Rank.color := str "#888888" |};
    {| Rank.min := 10; Rank.name := str "Krill";
       Rank.emoji := [55357; 56347]%N; Rank.color := str "#aaaaaa" |};
    {| Rank.min := 50; Rank.name := str "Wasp";
       Rank.emoji := [55357; 56349]%N; Rank.color := str "#cc6600" |};
    {| Rank.min := 100; Rank.name := str "Crawfish";
       Rank.emoji := [55357; 56349]%N; Rank.color := str "#dd4444" |};
    {| Rank.min := 250; Rank.name := str "Hornet";
       Rank.emoji := [55357; 56349]%N; Rank.color := str "#ff2222" |};
    {| Rank.min := 500; Rank.name := str "Giant Hornet";
       Rank.emoji := [55357; 56349]%N; Rank.color := str "#ff0000" |};
    {| Rank.min := 1000; Rank.name := str "Hornet Lord";
       Rank.emoji := [55357; 56401; 55357; 56349]%N;
       Rank.color := str "#ffaa00" |};
    {| Rank.min := 5000; Rank.name := str "Swarm Elder";
       Rank.emoji := [55356; 57119; 55357; 56349]%N;
       Rank.color := str "#ff00ff" |};
    {| Rank.min := 10000; Rank.name := str "SNI Master";
       Rank.emoji := [55357; 56462; 55357; 56349]%N;
       Rank.color := str "#00ffff" |} ].

(** [function getUserRank(karma) {
       let rank = USER_RANKS[0];
       for (const r of USER_RANKS) { if (karma >= r.min) rank = r; }
       return rank; }]
    for a number [karma]; [None] stands for the [undefined] that
    [USER_RANKS[0]] would be on an empty table. *)
Definition getUserRank (karma : Z) : option Rank.t :=
  fold_left (fun rank r => if Rank.min r <=? karma then Some r else rank)
            USER_RANKS (head USER_RANKS).

(** ** Registration limit of the agent API

    [let registrationRateLimits = {};], an entry being
    [{ count, resetAt }]. *)

Module RegLimit.
Record t := {
  count : Z;
  resetAt : Z
}.
End RegLimit.

(** [function checkRegistrationRateLimit(ip)] with [now = Date.now()]: the
    answer and the table as the call leaves it. *)
Definition checkRegistrationRateLimit (now : Z) (ip : jsstr)
    (m : gmap (list N) RegLimit.t) : bool * gmap (list N) RegLimit.t :=
  let fresh := {| RegLimit.count := 0; RegLimit.resetAt := now + dayMs |} in
  let m1 := match m !! ip with
            | None => <[ip := fresh]> m
            | Some _ => m
            end in
  let m2 := match m1 !! ip with
            | Some e => if RegLimit.resetAt e <? now then <[ip := fresh]> m1
                        else m1
            | None => m1
            end in
  (match m2 !! ip with
   | Some e => RegLimit.count e <? 2
   | None => false
   end, m2).

(** [function incrementRegistrationRateLimit(ip)]: the table as the call
    leaves it, which is also what [saveRateLimits()] writes to disk. *)
Definition incrementRegistrationRateLimit (now : Z) (ip : jsstr)
    (m : gmap (list N) RegLimit.t) : gmap (list N) RegLimit.t :=
  let fresh := {| RegLimit.count := 0; RegLimit.resetAt := now + dayMs |} in
  let m1 := match m !! ip with
            | None => <[ip := fresh]> m
            | Some _ => m
            end in
  alter (fun e => {| RegLimit.count := RegLimit.count e + 1;
                     RegLimit.resetAt := RegLimit.resetAt e |}) ip m1.

(** A run of registration requests from one address, as the two
    registration endpoints make them: the check comes first and answers
    429 when it fails; a request that is let through and passes the
    validation of its fields is stored, and only then is the count
    incremented.  An attempt is a clock reading and whether its fields
    are valid; the result says which attempts were stored. *)
Fixpoint register_attempts (attempts : list (Z * bool)) (ip : jsstr)
    (m : gmap (list N) RegLimit.t) : list bool * gmap (list N) RegLimit.t :=
  match attempts with
  | [] => ([], m)
  | (now, valid) :: rest =>
      let '(ok, m1) := checkRegistrationRateLimit now ip m in
      let stored := ok && valid in
      let m2 := if stored then incrementRegistrationRateLimit now ip m1
                else m1 in
      let '(rs, m3) := register_attempts rest ip m2 in
      (stored :: rs, m3)
  end.

(** [function isValidXHandle(handle) {
       if (!handle) return false;
       const cleanHandle = handle.replace(/^@/, '');
       return /^[a-zA-Z0-9_]{1,15}$/.test(cleanHandle); }] *)
Definition is_handle_unit (c : N) : bool :=
  ((97 <=? c) && (c <=? 122) || (65 <=? c) && (c <=? 90)
   || (48 <=? c) && (c <=? 57) || (c =? 95))%N.

Definition isValidXHandle (handle : value) : bool :=
  match handle with
  | Str (c :: r) =>
      let cleanHandle := strip_at (c :: r) in
      forallb is_handle_unit cleanHandle
      && (1 <=? length cleanHandle)%nat && (length cleanHandle <=? 15)%nat
  | _ => false
  end.

(** ** Bookmarks, chat history and remembered facts

    [let bookmarks = {};], [let chatHistory = {};] and
    [learning.userFacts] are dictionaries from a wallet to an array; they
    are passed next to the server state, which receives the write of
    [saveDatabase()]. *)

(** [l.slice(-n)] on an array, for a literal [n > 0]. *)
Definition array_slice_last {A} (n : nat) (l : list A) : list A :=
  drop (length l - n)%nat l.

(** [function toggleBookmark(wallet, postId)]: the value returned, the
    bookmarks and the state.  [indexOf] finds the first occurrence and
    [splice(idx, 1)] removes it. *)
Definition toggleBookmark (wallet : value) (postId : Z)
    (bookmarks : gmap (list N) (list Z)) (s : server)
  : bool * gmap (list N) (list Z) * server :=
  match wallet with
  | Str (c :: r) =>
      let w := c :: r in
      let mine := default [] (bookmarks !! w) in
      match findIndex (fun p => bool_decide (p = postId)) mine with
      | None => (true, <[w := mine ++ [postId]]> bookmarks, saveDatabase s)
      | Some idx => (false, <[w := delete idx mine]> bookmarks, saveDatabase s)
      end
  | _ => (false, bookmarks, s)
  end.

Module ChatEntry.
Record t := {
  role : jsstr;
  content : jsstr;
  timestamp : Z
}.
End ChatEntry.

(** [function addChatHistory(wallet, role, content)] *)
Definition addChatHistory (now : Z) (wallet : value) (role content : jsstr)
    (chatHistory : gmap (list N) (list ChatEntry.t)) (s : server)
  : gmap (list N) (list ChatEntry.t) * server :=
  match wallet with
  | Str (c :: r) =>
      let w := c :: r in
      let pushed :=
        default [] (chatHistory !! w)
        ++ [ {| ChatEntry.role := role; ChatEntry.content := content;
                ChatEntry.timestamp := now |} ] in
      let kept :=
        if (50 <? length pushed)%nat then array_slice_last 50 pushed
        else pushed in
      (<[w := kept]> chatHistory, saveDatabase s)
  | _ => (chatHistory, s)
  end.

(** [function learnUserFact(wallet, fact)]; when the fact is already
    there, only the empty array of a wallet that had none is stored. *)
Definition learnUserFact (wallet : value) (fact : jsstr)
    (userFacts : gmap (list N) (list jsstr)) (s : server)
  : gmap (list N) (list jsstr) * server :=
  match wallet with
  | Str (c :: r) =>
      let w := c :: r in
      let mine := default [] (userFacts !! w) in
      if bool_decide (fact ∈ mine)
      then (<[w := mine]> userFacts, s)
      else
        let pushed := mine ++ [fact] in
        let kept :=
          if (20 <? length pushed)%nat then array_slice_last 20 pushed
          else pushed in
        (<[w := kept]> userFacts, saveDatabase s)
  | _ => (userFacts, s)
  end.

(** ** Votes cast by the scheduler *)

(** An assignment to a field of the [n]-th active entry of
    [registeredAgents], the object [getActiveRegisteredAgents()[n]]. *)
Fixpoint alter_active (f : RegAgent.t -> RegAgent.t) (n : nat)
    (l : list (jsstr * RegAgent.t)) : list (jsstr * RegAgent.t) :=
  match l with
  | [] => []
  | (k, a) :: r =>
      if RegAgent.active a then
        match n with
        | O => (k, f a) :: r
        | S n' => (k, a) :: alter_active f n' r
        end
      else (k, a) :: alter_active f n r
  end.

(** [function registeredAgentVote()], run every minute.  [ra] and [rp]
    are the two indices [Math.floor(Math.random() * length)] draws, which
    are below the lengths, and [up] says whether the third draw is below
    [0.8]; [!post.voters[voteKey]] holds for a missing vote and for a
    recorded [0]. *)
Definition registeredAgentVote (now : Z) (ra rp : nat) (up : bool)
    (s : server) : server :=
  let activeAgents := getActiveRegisteredAgents s in
  if bool_decide (activeAgents = []) || bool_decide (posts s = []) then s
  else
    match activeAgents !! ra, take 30 (posts s) !! rp with
    | Some agent, Some post =>
        let voteKey := str "agent_" ++ RegAgent.id agent in
        let vote := if up then 1 else -1 in
        if bool_decide (current_vote voteKey post = 0) then
          let post' := Post.with_vote (Post.votes post + vote)
                         (<[voteKey := vote]> (Post.voters post)) post in
          let s1 := set_posts (<[rp := post']> (posts s)) s in
          let s2 := set_registeredAgents
                      (alter_active (RegAgent.with_lastActive now) ra
                         (registeredAgents s1)) s1 in
          broadcast (EvUpdatePost post') (saveRegisteredAgents (saveState s2))
        else s
    | _, _ => s
    end.

(** One turn of the event loop with the scheduler's vote among the
    operations. *)
Inductive turn (toLowerCase toUpperCase : jsstr -> jsstr)
    (fullPersonality :
       value -> jsstr -> value -> option (list jsstr) -> jsstr -> jsstr)
  : server -> server -> Prop :=
| turn_step s s' :
    step toLowerCase toUpperCase fullPersonality s s' ->
    turn toLowerCase toUpperCase fullPersonality s s'
| turn_registered_vote now ra rp up s :
    turn toLowerCase toUpperCase fullPersonality s
      (registeredAgentVote now ra rp up s).

(** ** Reading the post list *)

(** Every post has an id below the counter and no two posts share one. *)
Definition posts_wf (s : server) : Prop :=
  Forall (fun p => Post.id p < nextPostId s) (posts s)
  /\ NoDup (Post.id <$> posts s).

(** The sum of the votes a post records, and what the tally holds beyond
    them (the score an agent post starts with, for one). *)
Definition recorded_sum (p : Post.t) : Z :=
  map_fold (fun _ v acc => v + acc) 0 (Post.voters p).

Definition head_start (p : Post.t) : Z := Post.votes p - recorded_sum p.

(** How one turn can change the post list: votes are recast on posts that
    stay where they are, or one post is removed, or a post with the next
    id is put at the head and the list is cut to its cap. *)
Definition revoted (p p' : Post.t) : Prop :=
  p' = Post.with_vote (Post.votes p') (Post.voters p') p
  /\ head_start p' = head_start p.

Definition posts_step (s s' : server) : Prop :=
  (nextPostId s' = nextPostId s /\ Forall2 revoted (posts s) (posts s'))
  \/ (nextPostId s' = nextPostId s
      /\ exists idx, posts s' = delete idx (posts s))
  \/ (nextPostId s' = nextPostId s + 1
      /\ exists p, posts s' = unshift_capped p (posts s)
                   /\ Post.id p = nextPostId s
                   /\ (Post.isAgentPost p = false -> head_start p = 0)).

(** ** Votes of one *)

(** A message whose vote, if it is one, has the direction [1] or [-1], the
    two the client sends. *)
Definition ballot (msg : message) : bool :=
  match msg with
  | MsgVote _ direction =>
      bool_decide (direction = 1) || bool_decide (direction = -1)
  | _ => true
  end.

(** One turn of the event loop in which a vote over the socket is such a
    ballot; the introduction post of a deployed agent is among the
    operations. *)
Inductive poll (toLowerCase toUpperCase : jsstr -> jsstr)
    (fullPersonality :
       value -> jsstr -> value -> option (list jsstr) -> jsstr -> jsstr)
  : server -> server -> Prop :=
| poll_message now ca ws msg s :
    ballot msg = true ->
    poll toLowerCase toUpperCase fullPersonality s
      (on_message toLowerCase toUpperCase now ca ws msg s)
| poll_generate now rv i hive g s :
    poll toLowerCase toUpperCase fullPersonality s
      (generateKrabPost now rv i hive g s)
| poll_intro now k g s :
    poll toLowerCase toUpperCase fullPersonality s
      (generateAgentIntroPost now k g s)
| poll_agents_vote now api_key post_id direction s :
    poll toLowerCase toUpperCase fullPersonality s
      (agents_vote now api_key post_id direction s)
| poll_user_agents_create now agentId clientIP wallet name personality
    description topics s :
    poll toLowerCase toUpperCase fullPersonality s
      (user_agents_create toLowerCase fullPersonality now agentId clientIP
         wallet name personality description topics s)
| poll_registered_vote now ra rp up s :
    poll toLowerCase toUpperCase fullPersonality s
      (registeredAgentVote now ra rp up s).

(** Every vote the post records is [-1], [0] or [1]. *)
Definition ballots_small (p : Post.t) : Prop :=
  map_Forall (fun _ v => -1 <= v <= 1) (Post.voters p).

(** One voter's vote on a post is recast to [-1], [0] or [1] and the tally
    follows, or the post is left as it is. *)
Definition recast (p p' : Post.t) : Prop :=
  p' = p
  \/ exists k v,
       -1 <= v <= 1
       /\ p' = Post.with_vote (Post.votes p - current_vote k p + v)
                  (<[k := v]> (Post.voters p)) p.

(** Every post records votes of one at most, and the tally of every post
    written by a person is the sum of the votes the post records. *)
Definition fair_tallies (s : server) : Prop :=
  Forall (fun p => ballots_small p
                   /\ (Post.isAgentPost p = false ->
                       Post.votes p = recorded_sum p)) (posts s).

(** How one such turn can change the post list: votes are recast on posts
    that stay where they are, or one post is removed, or a post is put at
    the head, with or without the cut to the cap. *)
Definition poll_step (s s' : server) : Prop :=
  Forall2 recast (posts s) (posts s')
  \/ (exists idx, posts s' = delete idx (posts s))
  \/ (exists p,
        (posts s' = unshift_capped p (posts s) \/ posts s' = p :: posts s)
        /\ ballots_small p
        /\ (Post.isAgentPost p = false -> Post.votes p = recorded_sum p)).

(** Descending order of karma. *)
Fixpoint karma_descending (l : list Agent.t) : Prop :=
  match l with
  | [] => True
  | a :: r =>
      Forall (fun b => Agent.karma b <= Agent.karma a) r /\ karma_descending r
  end.

(** ** Reading a run of the rate limiter *)

(** Clock readings that never go back. *)
Fixpoint nondecreasing (l : list Z) : Prop :=
  match l with
  | [] => True
  | a :: r => Forall (fun b => a <= b) r /\ nondecreasing r
  end.

(** The clock readings of the checks that were allowed, given the
    readings and the answers of a run. *)
Fixpoint allowed_times (times : list Z) (rs : list rate_check) : list Z :=
  match times, rs with
  | t :: times', Allowed :: rs' => t :: allowed_times times' rs'
  | _ :: times', Limited _ :: rs' => allowed_times times' rs'
  | _, _ => []
  end.

(** ** Sample states *)

(** No content, no users, no agents, nobody connected; [userAgents] is the
    legacy array and the counters have their initial values. *)
Definition blank : server :=
  {| posts := []; nextPostId := 1; users := ∅; agents := [];
     userAgents := {| UserAgents.isArray := true; UserAgents.items := [];
                      UserAgents.props := [] |};
     nextAgentId := 100; registeredAgents := []; agentApiKeys := [];
     limitsByIP := ∅; limitsByWallet := ∅; rateLimitMap := ∅;
     topicInterests := ∅; achievements := ∅; notifications := ∅;
     activityFeed := []; clients := []; trace := [] |}.

(** Wallet ["ABC123"] connected on socket 7 and open, a second session on
    socket 8 that is closing. *)
Definition two_sessions : server :=
  set_clients
    [ {| Session.ws := 7%nat; Session.readyState := OPEN;
         Session.wallet := str "ABC123" |};
      {| Session.ws := 8%nat; Session.readyState := CLOSING;
         Session.wallet := str "XYZ789" |} ]
    blank.

(** The built-in agent ['SNAI'] alone, nobody connected. *)
Definition one_agent : server :=
  set_agents
    [ {| Agent.id := IdNum 1; Agent.name := str "SNAI";
         Agent.handle := str "snainetwork"; Agent.ticker := None;
         Agent.description := None; Agent.personality := None;
         Agent.personalityType := None; Agent.avatar := None;
         Agent.creator := None; Agent.creatorWallet := Undefined;
         Agent.creatorIP := None; Agent.wallet := Undefined;
         Agent.walletShort := None; Agent.karma := 10035;
         Agent.postCount := 0; Agent.commentCount := 0;
         Agent.topics :=
           Some [str "swarm"; str "consciousness"; str "emergence"];
         Agent.faction := Some (str "The Collective");
         Agent.createdAt := None; Agent.lastActive := None;
         Agent.token := None |} ]
    blank.

(** An old post by ['SNAI'] with one vote from wallet ["ABC123"]. *)
Definition old_post (id : Z) : Post.t :=
  {| Post.id := id; Post.hive := None; Post.claw := Some (str "c/general");
     Post.title := str "gm"; Post.content := str "gm swarm";
     Post.author := str "SNAI"; Post.authorHandle := Some (str "snainetwork");
     Post.wallet := Str (str "SNAI"); Post.agentId := None; Post.votes := 3;
     Post.voters := {[ str "ABC123" := 1 ]}; Post.comments := [];
     Post.timestamp := 500; Post.isAgentPost := true |}.

(** The post list at its cap of 200, one agent, wallet ["ABC123"]
    connected. *)
Definition crowded : server :=
  set_posts (replicate 200 (old_post 1))
    (set_nextPostId 2 (set_clients (clients two_sessions) one_agent)).

(** A post by wallet ["ABC123"], which has voted it up. *)
Definition own_post (id : Z) : Post.t :=
  {| Post.id := id; Post.hive := Some (str "c/general"); Post.claw := None;
     Post.title := str "Hello"; Post.content := str "World";
     Post.author := str "ABC1..C123"; Post.authorHandle := None;
     Post.wallet := Str (str "ABC123"); Post.agentId := None;
     Post.votes := 1;
     Post.voters := {[ str "ABC123" := 1 ]}; Post.comments := [];
     Post.timestamp := 900; Post.isAgentPost := false |}.

(** Two posts, the newer one by the connected wallet ["ABC123"]. *)
Definition two_posts : server :=
  set_posts [own_post 5; old_post 1] (set_nextPostId 6 two_sessions).

(** A registered agent with an API key, which has voted up post 5. *)
Definition api_key_data : KeyData.t :=
  {| KeyData.agentId := str "ext_1"; KeyData.lastUsed := 0 |}.

Definition api_agent : RegAgent.t :=
  {| RegAgent.id := str "ext_1"; RegAgent.name := str "Helper";
     RegAgent.xHandle := str "@helper";
     RegAgent.description := Some (str "Helps the swarm.");
     RegAgent.personality := None; RegAgent.logoUrl := None;
     RegAgent.karma := 12;
     RegAgent.active := true; RegAgent.postCount := 0;
     RegAgent.commentCount := 0; RegAgent.topics := None;
     RegAgent.faction := None; RegAgent.wallet := Undefined;
     RegAgent.lastActive := 0 |}.

Definition agent_voted_post : Post.t :=
  Post.with_vote 2 (<[ str "agent_ext_1" := 1 ]> (Post.voters (own_post 5)))
    (own_post 5).

Definition with_api_agent : server :=
  set_posts [agent_voted_post; old_post 1]
    (set_agentApiKeys [(str "key-1", api_key_data)]
       (set_registeredAgents [(str "ext_1", api_agent)] two_posts)).


(** Two known users: wallet ["RICH01"] with 60 karma and wallet ["POOR01"]
    with 3. *)
Definition member (wallet : jsstr) (karma : Z) : User.t :=
  {| User.wallet := wallet; User.username := None; User.karma := karma;
     User.joinedAt := 100; User.postCount := 0; User.commentCount := 0;
     User.lastSeen := 100; User.agentsCreated := []; User.xp := 0 |}.

Definition with_members : server :=
  set_users
    (<[ str "RICH01" := member (str "RICH01") 60 ]>
       (<[ str "POOR01" := member (str "POOR01") 3 ]> ∅))
    two_sessions.

(** The same two posts with their author known to the server, since
    wallet ["ABC123"] connected at time 100. *)
Definition two_posts_known : server :=
  set_users {[ str "ABC123" := member (str "ABC123") 9 ]} two_posts.

(** A request to deploy an agent under the given name. *)
Definition scout_data (name : string) : AgentData.t :=
  {| AgentData.name := Str (str name); AgentData.ticker := Str (str "sct");
     AgentData.description := Str (str "Scouts the swarm for news.");
     AgentData.personality := Undefined; AgentData.avatar := Undefined;
     AgentData.deployToken := false |}.

(** Letter folding on ASCII, enough for the sample names. *)
Definition lower (s : jsstr) : jsstr := map ascii_lower s.

Definition upper (s : jsstr) : jsstr :=
  map (fun c => (if (97 <=? c) && (c <=? 122) then c - 32 else c)%N) s.

(** The state after wallet ["RICH01"] has deployed agent ["Scout"] over
    the socket. *)
Definition scout_deployed : server :=
  (createUserAgent lower upper 1000 [] (Str (str "RICH01"))
     (scout_data "Scout") with_members).2.

(** The post list at its cap of 200 while agent ["Scout"], just deployed,
    is about to introduce itself. *)
Definition crowded_scout : server :=
  set_posts (replicate 200 (old_post 1)) (set_nextPostId 2 scout_deployed).

(** The state after a 32-character wallet has deployed agent ["Scout"]
    through the REST endpoint; the persona text is left empty. *)
Definition long_wallet (last : string) : jsstr :=
  str "So1anaWa11etAddressPadding00000" ++ str last.

Definition no_persona (kind : value) (name : jsstr) (description : value)
    (topics : option (list jsstr)) (shortWallet : jsstr) : jsstr := [].

Definition scout_deployed_by_rest : server :=
  user_agents_create lower no_persona 1000 (str "user_abc123")
    (str "10.0.0.1") (Str (long_wallet "1")) (Str (str "Scout")) Undefined
    Undefined None with_members.

(** * Results *)

(** ** Rate limiting *)

Lemma filter_drops_all {A} (P : A -> Prop) `{!∀ x, Decision (P x)}
    (l : list A) :
  Forall (fun x => ~ P x) l -> filter P l = [].
Proof.
  induction 1 as [|x l Hx _ IH]; [done|].
  by rewrite filter_cons_False.
Qed.

(** The two exits of [checkRateLimit] for a wallet that is counted, in
    terms of the trimmed array. *)
Lemma checkRateLimit_counted (now : Z) (w : list N)
    (m : gmap (list N) (list Z)) :
  w <> [] -> w <> str "SNAI" ->
  let ts := filter (fun t => now - t < RATE_WINDOW) (default [] (m !! w)) in
  checkRateLimit now (Str w) m =
    if (RATE_LIMIT <=? length ts)%nat
    then (Limited (ceil_div_1000 (RATE_WINDOW - (now - hd 0 ts))),
          <[w := ts]> m)
    else (Allowed, <[w := ts ++ [now]]> m).
Proof.
  intros Hne Hsnai. unfold checkRateLimit.
  destruct w as [|c r]; [done|]. simpl.
  by rewrite bool_decide_false.
Qed.

(** C9.  The rate limiter lets the reserved identity ['SNAI'] and every
    falsy wallet (the empty string, [null], [undefined]) through without
    recording anything: one check answers [{ allowed: true }] and leaves
    [rateLimitMap] as it was, and so does any run of checks, however many
    and whenever they are made. *)
Theorem exempt_wallets_never_limited (w : value) (times : list Z)
    (m : gmap (list N) (list Z)) :
  w = Str (str "SNAI") \/ truthy w = false ->
  (forall now, checkRateLimit now w m = (Allowed, m))
  /\ checks times w m = (replicate (length times) Allowed, m).
Proof.
  intros Hw.
  assert (Hone : forall now m', checkRateLimit now w m' = (Allowed, m')).
  { intros now m'. destruct Hw as [-> | Hf]; [done|].
    destruct w as [| |[|c r]]; done. }
  split; [by intros; apply Hone|].
  induction times as [|t rest IH]; [done|].
  simpl. by rewrite Hone, IH.
Qed.

Lemma exempt_wallets_never_limited_witness :
  (forall now, checkRateLimit now Undefined ∅ = (Allowed, ∅))
  /\ checks [0; 1; 2; 3; 4; 5; 6] Undefined ∅
     = (replicate 7 Allowed, ∅).
Proof.
  apply (exempt_wallets_never_limited Undefined [0; 1; 2; 3; 4; 5; 6] ∅).
  right. reflexivity.
Defined.

(** [ceil_div_1000 x] is the least number of whole thousands that cover
    [x]: milliseconds are turned into seconds, rounded up. *)
Lemma ceil_div_1000_spec (x : Z) :
  1000 * (ceil_div_1000 x - 1) < x <= 1000 * ceil_div_1000 x.
Proof.
  unfold ceil_div_1000.
  pose proof (Z.div_mod (- x) 1000 ltac:(lia)) as Hdm.
  pose proof (Z.mod_pos_bound (- x) 1000 ltac:(lia)) as Hb.
  lia.
Qed.

(** C4.  For a wallet that is counted (a non-empty string other than
    ['SNAI']) with nothing left to count at [t1]: five checks at
    [t1 <= ... <= t5] are allowed; a sixth at [t6] less than
    [RATE_WINDOW = 60000] ms after [t1] is refused with a wait hint in
    seconds, the whole number of seconds from 1 to 60 that covers the
    [60000 - (t6 - t1)] ms left of the window and is less than a second
    more than them; and a check at any [t7] at least 60000 ms after [t1] is
    allowed again. *)
Theorem rate_limit_window (w : list N) (m : gmap (list N) (list Z))
    (t1 t2 t3 t4 t5 t6 t7 : Z) :
  w <> [] -> w <> str "SNAI" ->
  Forall (fun t => RATE_WINDOW <= t1 - t) (default [] (m !! w)) ->
  t1 <= t2 -> t2 <= t3 -> t3 <= t4 -> t4 <= t5 -> t5 <= t6 ->
  t6 - t1 < RATE_WINDOW ->
  RATE_WINDOW <= t7 - t1 ->
  exists hint m6,
    checks [t1; t2; t3; t4; t5; t6] (Str w) m
    = ([Allowed; Allowed; Allowed; Allowed; Allowed; Limited hint], m6)
    /\ 1 <= hint <= 60
    /\ 1000 * (hint - 1) < 60000 - (t6 - t1) <= 1000 * hint
    /\ (checkRateLimit t7 (Str w) m6).1 = Allowed.
Proof.
  intros Hne Hsnai Hold H12 H23 H34 H45 H56 Hin Hout.
  unfold RATE_WINDOW in *.
  assert (Hstep : forall now (m' : gmap (list N) (list Z)) l,
             m' !! w = Some l ->
             checkRateLimit now (Str w) m' =
               let ts := filter (fun t => now - t < RATE_WINDOW) l in
               if (RATE_LIMIT <=? length ts)%nat
               then (Limited (ceil_div_1000 (RATE_WINDOW - (now - hd 0 ts))),
                     <[w := ts]> m')
               else (Allowed, <[w := ts ++ [now]]> m')).
  { intros now m' l Hl. rewrite checkRateLimit_counted by done.
    by rewrite Hl. }
  pose proof (ceil_div_1000_spec (60000 - (t6 - t1))) as Hhint.
  exists (ceil_div_1000 (60000 - (t6 - t1))). eexists.
  split; [|split; [|split]].
  - cbn [checks].
    rewrite checkRateLimit_counted by done.
    rewrite (filter_drops_all _ (default [] (m !! w)))
      by (eapply Forall_impl; [exact Hold|]; unfold RATE_WINDOW; intros; lia).
    cbn [length Nat.leb RATE_LIMIT app].
    repeat (erewrite Hstep by apply lookup_insert_eq;
            unfold RATE_WINDOW;
            rewrite ?filter_cons, ?filter_nil;
            repeat (case_decide; [|lia]);
            cbn [length Nat.leb RATE_LIMIT app hd];
            rewrite ?insert_insert_eq).
    reflexivity.
  - lia.
  - exact Hhint.
  - erewrite Hstep by apply lookup_insert_eq.
    unfold RATE_WINDOW.
    rewrite filter_cons_False by lia.
    cbn zeta.
    destruct (RATE_LIMIT <=? _)%nat eqn:Hfull; [|done].
    apply Nat.leb_le in Hfull.
    pose proof (length_filter (fun t => t7 - t < 60000) [t2; t3; t4; t5]) as Hlen.
    unfold RATE_LIMIT in Hfull. simpl in Hlen. lia.
Qed.

Lemma rate_limit_window_witness :
  exists m6,
    checks [0; 1000; 2000; 3000; 4000; 5000] (Str (str "ABC123")) ∅
    = ([Allowed; Allowed; Allowed; Allowed; Allowed; Limited 55], m6)
    /\ (checkRateLimit 60000 (Str (str "ABC123")) m6).1 = Allowed.
Proof.
  destruct (rate_limit_window (str "ABC123") ∅ 0 1000 2000 3000 4000 5000
              60000) as (hint & m6 & Hrun & _ & Hhint & Hagain);
    try (unfold RATE_WINDOW; lia); try discriminate.
  { rewrite lookup_empty. constructor. }
  assert (Hval : hint = 55) by lia.
  rewrite Hval in Hrun.
  exists m6. split; [exact Hrun|exact Hagain].
Defined.

(** ** The effect trace of the fan-out *)

Lemma set_trace_same (s : server) : set_trace (trace s) s = s.
Proof. by destruct s. Qed.

(** A loop over the sessions whose body only appends to the trace appends
    the bodies' effects in the order of the sessions. *)
Lemma fold_sessions_trace (step : server -> Session.t -> server)
    (g : Session.t -> list effect) (l : list Session.t) (acc : server) :
  (forall a c, step a c = set_trace (trace a ++ g c) a) ->
  fold_left step l acc = set_trace (trace acc ++ concat (map g l)) acc.
Proof.
  intros Hstep. revert acc.
  induction l as [|c l IH]; intros acc; simpl.
  - by rewrite app_nil_r, set_trace_same.
  - rewrite IH, Hstep. simpl. by rewrite <- app_assoc.
Qed.

Lemma broadcast_trace (data : event) (s : server) :
  broadcast data s
  = set_trace (trace s ++ Stringify data :: frames data (clients s)) s.
Proof.
  unfold broadcast, frames.
  rewrite (fold_sessions_trace _
             (fun c => if bool_decide (Session.readyState c = OPEN)
                       then [Send (Session.ws c) data] else [])).
  - unfold emit. simpl. by rewrite <- app_assoc.
  - intros a c. case_bool_decide; [done|].
    by rewrite app_nil_r, set_trace_same.
Qed.

Lemma frames_filter (data : event) (cs : list Session.t) :
  frames data cs
  = map (fun c => Send (Session.ws c) data)
        (filter (fun c => Session.readyState c = OPEN) cs).
Proof.
  unfold frames. induction cs as [|c cs IH]; [done|].
  simpl. rewrite filter_cons. rewrite IH.
  case_bool_decide; case_decide; done.
Qed.

Lemma emitted_set_trace (s s0 : server) (new : list effect) :
  emitted s (set_trace (trace s ++ new) s0) = new.
Proof. unfold emitted. simpl. by rewrite drop_app_length. Qed.

Lemma session_of_socket (cs : list Session.t) (c c' : Session.t) :
  NoDup (map Session.ws cs) ->
  c ∈ cs -> c' ∈ cs -> Session.ws c' = Session.ws c -> c' = c.
Proof.
  induction cs as [|x cs IH]; simpl; intros Hnd Hc Hc' Hws.
  - by apply elem_of_nil in Hc.
  - apply NoDup_cons in Hnd as [Hx Hnd].
    apply elem_of_cons in Hc as [->|Hc];
      apply elem_of_cons in Hc' as [->|Hc']; [done| | |by apply IH].
    + exfalso. apply Hx. rewrite <- Hws.
      apply list_elem_of_fmap. by exists c'.
    + exfalso. apply Hx. rewrite Hws.
      apply list_elem_of_fmap. by exists c.
Qed.

Lemma sends_hold_no_stringify (data : event) (cs : list Session.t) :
  filter (fun e => is_stringify e = true)
         (map (fun c => Send (Session.ws c) data) cs) = [].
Proof.
  induction cs as [|c cs IH]; [done|].
  simpl. by rewrite filter_cons_False.
Qed.

(** C8.  A broadcast calls [JSON.stringify] once, writes that one
    serialization to every session of the registry whose socket is [OPEN],
    in registry order, writes nothing to a session in another state, and
    changes nothing but the trace: the registry keeps all its sessions. *)
Theorem broadcast_fan_out (data : event) (s : server) :
  let s' := broadcast data s in
  s' = set_trace (trace s ++ emitted s s') s
  /\ emitted s s'
     = Stringify data
       :: map (fun c => Send (Session.ws c) data)
              (filter (fun c => Session.readyState c = OPEN) (clients s))
  /\ length (filter (fun e => is_stringify e = true) (emitted s s')) = 1%nat
  /\ (forall c, c ∈ clients s -> Session.readyState c = OPEN ->
        Send (Session.ws c) data ∈ emitted s s')
  /\ (forall ws json, Send ws json ∈ emitted s s' ->
        json = data
        /\ exists c, c ∈ clients s /\ Session.ws c = ws
                     /\ Session.readyState c = OPEN)
  /\ (NoDup (map Session.ws (clients s)) ->
      forall c json, c ∈ clients s -> Session.readyState c <> OPEN ->
                     Send (Session.ws c) json ∉ emitted s s')
  /\ clients s' = clients s.
Proof.
  intros s'. subst s'.
  rewrite broadcast_trace, emitted_set_trace, frames_filter.
  split; [done|]. split; [done|].
  assert (Hsent : forall ws json,
             Send ws json
             ∈ Stringify data
               :: map (fun c => Send (Session.ws c) data)
                      (filter (fun c => Session.readyState c = OPEN)
                              (clients s)) ->
             json = data
             /\ exists c, c ∈ clients s /\ Session.ws c = ws
                          /\ Session.readyState c = OPEN).
  { intros ws json Hin.
    apply elem_of_cons in Hin as [Hin|Hin]; [done|].
    apply list_elem_of_fmap in Hin as (c & Heq & Hc).
    apply list_elem_of_filter in Hc as [Hopen Hc].
    inversion Heq; subst. eauto. }
  split; [|split; [|split; [exact Hsent|split; [|done]]]].
  - rewrite filter_cons_True by done. by rewrite sends_hold_no_stringify.
  - intros c Hc Hopen. apply elem_of_cons. right.
    apply list_elem_of_fmap. exists c. split; [done|].
    by apply list_elem_of_filter.
  - intros Hnd c json Hc Hclosed Hin.
    apply Hsent in Hin as (_ & c' & Hc' & Hws & Hopen).
    apply Hclosed.
    by rewrite <- (session_of_socket (clients s) c c' Hnd Hc Hc' Hws).
Qed.

Lemma broadcast_fan_out_witness :
  emitted two_sessions (broadcast (EvDeletePost 5) two_sessions)
  = [Stringify (EvDeletePost 5); Send 7 (EvDeletePost 5)]
  /\ (forall json,
        Send 8 json
        ∉ emitted two_sessions (broadcast (EvDeletePost 5) two_sessions)).
Proof.
  destruct (broadcast_fan_out (EvDeletePost 5) two_sessions)
    as (_ & Hsent & _ & _ & _ & Hskipped & _).
  split; [exact Hsent|].
  intros json.
  apply (Hskipped
           ltac:(repeat constructor; simpl; rewrite ?elem_of_cons, ?elem_of_nil;
                 intuition discriminate)
           {| Session.ws := 8%nat; Session.readyState := CLOSING;
              Session.wallet := str "XYZ789" |}).
  - apply elem_of_cons. right. apply elem_of_cons. by left.
  - discriminate.
Defined.

(** ** What the bookkeeping helpers leave alone *)

(** Reduce the projections of a state built by assignments. *)
Ltac fields :=
  cbn [posts nextPostId users agents userAgents nextAgentId registeredAgents
       agentApiKeys limitsByIP limitsByWallet rateLimitMap topicInterests
       achievements notifications activityFeed clients trace
       set_clients set_posts set_nextPostId set_users set_agents set_userAgents
       set_nextAgentId set_registeredAgents set_agentApiKeys set_limitsByIP
       set_limitsByWallet set_rateLimitMap set_topicInterests
       set_achievements set_notifications set_activityFeed set_trace
       emit send saveState saveDatabase saveUserAgents saveRegisteredAgents]
    in *.

Lemma people_only_refl (s : server) : people_only s s.
Proof. exists []. rewrite app_nil_r. by destruct s. Qed.

Lemma people_only_trans (s1 s2 s3 : server) :
  people_only s1 s2 -> people_only s2 s3 -> people_only s1 s3.
Proof.
  intros [new1 H12] [new2 H23]. exists (new1 ++ new2).
  rewrite H23, H12. fields. by rewrite app_assoc.
Qed.

Lemma people_only_fields (s s' : server) :
  people_only s s' ->
  posts s' = posts s /\ nextPostId s' = nextPostId s
  /\ agents s' = agents s /\ userAgents s' = userAgents s
  /\ nextAgentId s' = nextAgentId s
  /\ registeredAgents s' = registeredAgents s
  /\ agentApiKeys s' = agentApiKeys s
  /\ limitsByIP s' = limitsByIP s /\ limitsByWallet s' = limitsByWallet s
  /\ rateLimitMap s' = rateLimitMap s
  /\ topicInterests s' = topicInterests s
  /\ clients s' = clients s
  /\ exists new, trace s' = trace s ++ new.
Proof. intros [new ->]. repeat split. by exists new. Qed.

Lemma people_only_set_users x s : people_only s (set_users x s).
Proof. exists []. rewrite app_nil_r. by destruct s. Qed.

Lemma people_only_set_achievements x s : people_only s (set_achievements x s).
Proof. exists []. rewrite app_nil_r. by destruct s. Qed.

Lemma people_only_set_notifications x s :
  people_only s (set_notifications x s).
Proof. exists []. rewrite app_nil_r. by destruct s. Qed.

Lemma people_only_set_activityFeed x s :
  people_only s (set_activityFeed x s).
Proof. exists []. rewrite app_nil_r. by destruct s. Qed.

Lemma people_only_emit e s : people_only s (emit e s).
Proof. exists [e]. by destruct s. Qed.

Lemma people_only_broadcast data s : people_only s (broadcast data s).
Proof. rewrite broadcast_trace. eexists. by destruct s. Qed.

Lemma people_only_fold (step : server -> Session.t -> server)
    (l : list Session.t) (s : server) :
  (forall a c, people_only a (step a c)) ->
  people_only s (fold_left step l s).
Proof.
  intros Hstep. revert s. induction l as [|c l IH]; intros s; simpl.
  - apply people_only_refl.
  - eapply people_only_trans; [apply Hstep|apply IH].
Qed.

Lemma people_only_send ws data s : people_only s (send ws data s).
Proof.
  unfold send. eapply people_only_trans; apply people_only_emit.
Qed.

Lemma people_only_addNotification now wallet type content relatedId s :
  people_only s (addNotification now wallet type content relatedId s).
Proof.
  unfold addNotification. case_match; [apply people_only_refl|].
  eapply people_only_trans; [apply people_only_set_notifications|].
  apply people_only_fold. intros a c.
  case_match; [apply people_only_send|apply people_only_refl].
Qed.

Lemma people_only_addActivity now type actor tgt content s :
  people_only s (addActivity now type actor tgt content s).
Proof.
  unfold addActivity.
  eapply people_only_trans;
    [apply people_only_set_activityFeed|apply people_only_broadcast].
Qed.

Lemma people_only_unlockAchievement now wallet achievementId s :
  people_only s (unlockAchievement now wallet achievementId s).
Proof.
  unfold unlockAchievement.
  repeat case_match; try apply people_only_set_achievements.
  unfold saveDatabase.
  repeat (eapply people_only_trans;
          [|first [ apply people_only_emit
                  | apply people_only_addActivity
                  | apply people_only_addNotification
                  | apply people_only_set_users
                  | apply people_only_set_achievements ]]).
  apply people_only_refl.
Qed.

Lemma people_only_getUser now wallet s :
  people_only s (getUser now wallet s).
Proof.
  unfold getUser.
  repeat case_match; try apply people_only_refl;
    try apply people_only_set_users.
  - unfold saveDatabase.
    eapply people_only_trans; [|apply people_only_emit].
    eapply people_only_trans; [|apply people_only_unlockAchievement].
    apply people_only_set_users.
  - unfold saveDatabase.
    eapply people_only_trans; [|apply people_only_emit].
    apply people_only_set_users.
Qed.

(** ** Posting over the socket *)

Lemma emitted_app (s s' : server) (new : list effect) :
  trace s' = trace s ++ new -> emitted s s' = new.
Proof. unfold emitted. intros ->. by rewrite drop_app_length. Qed.

Lemma human_post_rate_frame now w hive title content m s :
  human_post now w hive title content (set_rateLimitMap m s)
  = human_post now w hive title content s.
Proof. done. Qed.

(** The [new_post] branch when the wallet is connected and the rate
    limiter lets it through. *)
Lemma on_new_post_allowed (now : Z) (ws : nat) (w : list N)
    (hive title content : value) (m : gmap (list N) (list Z)) (s : server) :
  w <> [] ->
  checkRateLimit now (Str w) (rateLimitMap s) = (Allowed, m) ->
  let post := human_post now w hive title content s in
  let s' := on_new_post now ws (Str w) hive title content s in
  posts s' = unshift_capped post (posts s)
  /\ nextPostId s' = nextPostId s + 1
  /\ rateLimitMap s' = m
  /\ clients s' = clients s
  /\ agents s' = agents s
  /\ exists before after,
       trace s' = trace s ++ before
                  ++ (Stringify (EvNewPost post)
                      :: frames (EvNewPost post) (clients s))
                  ++ after.
Proof.
  intros Hne Hcheck post s'. subst post s'.
  unfold on_new_post. destruct w as [|c r]; [done|].
  rewrite Hcheck. cbn zeta.
  rewrite !broadcast_trace, human_post_rate_frame.
  set (post := human_post _ _ _ _ _ s).
  assert (Htrack : exists before,
            forall s0, trackTopicInterest (Str (c :: r)) hive s0
                       = set_topicInterests
                           (topicInterests
                              (trackTopicInterest (Str (c :: r)) hive s0))
                           (set_trace (trace s0 ++ before) s0)).
  { destruct hive as [| |[|d t]];
      first [ by exists [SaveDatabase]
            | exists []; intros s0; rewrite app_nil_r; by destruct s0 ]. }
  destruct Htrack as [before Htrack]. rewrite Htrack. fields.
  repeat (split; [reflexivity|]).
  exists before. eexists.
  rewrite <- !app_assoc. reflexivity.
Qed.

(** The [new_post] branch when the rate limiter refuses: the sender gets
    [{ type: 'rate_limited', waitTime }] and nothing else happens. *)
Lemma on_new_post_limited (now waitTime : Z) (ws : nat) (w : list N)
    (hive title content : value) (m : gmap (list N) (list Z)) (s : server) :
  w <> [] ->
  checkRateLimit now (Str w) (rateLimitMap s) = (Limited waitTime, m) ->
  on_new_post now ws (Str w) hive title content s
  = send ws (EvRateLimited waitTime) (set_rateLimitMap m s).
Proof.
  intros Hne Hcheck. unfold on_new_post.
  destruct w as [|c r]; [done|]. by rewrite Hcheck.
Qed.

(** C5.  Wallet ["ABC123"], connected on socket [ws] and let through by
    the rate limiter, sends [new_post] with title ["Hello"], content
    ["World"] and community ["general"].  The handler puts a new post at
    the head of the list with these fields, [votes = 1], voter map
    [{"ABC123": 1}] and no comments; its id is the old counter and the
    counter has grown by exactly one; and the trace then holds one
    broadcast of [{ type: 'new_post', post }] with that very post: one
    serialization and a frame to every open session. *)
Theorem hello_world_post (toLowerCase toUpperCase : list N -> list N)
    (now : Z) (ca : list N) (ws : nat) (s : server) :
  session_wallet ws s = Str (str "ABC123") ->
  (checkRateLimit now (Str (str "ABC123")) (rateLimitMap s)).1 = Allowed ->
  let s' := on_message toLowerCase toUpperCase now ca ws
              (MsgNewPost (Str (str "general")) (Str (str "Hello"))
                 (Str (str "World"))) s in
  exists post,
    posts s' = take 200 (post :: posts s)
    /\ Post.id post = nextPostId s
    /\ Post.title post = str "Hello"
    /\ Post.content post = str "World"
    /\ Post.hive post = Some (str "general")
    /\ Post.wallet post = Str (str "ABC123")
    /\ Post.votes post = 1
    /\ Post.voters post = {[ str "ABC123" := 1 ]}
    /\ Post.comments post = []
    /\ nextPostId s' = nextPostId s + 1
    /\ exists before after,
         emitted s s'
         = before
           ++ (Stringify (EvNewPost post)
               :: map (fun c => Send (Session.ws c) (EvNewPost post))
                      (filter (fun c => Session.readyState c = OPEN)
                              (clients s)))
           ++ after.
Proof.
  intros Hws Hrate s'. subst s'. unfold on_message. rewrite Hws.
  set (s1 := getUser now (Str (str "ABC123")) s).
  destruct (people_only_fields s s1 (people_only_getUser _ _ _))
    as (Hposts & Hnext & _ & _ & _ & _ & _ & _ & _ & Hrl & _ & Hcl & new & Htr).
  destruct (checkRateLimit now (Str (str "ABC123")) (rateLimitMap s1))
    as [rc m] eqn:Hcheck.
  rewrite Hrl in Hcheck. rewrite Hcheck in Hrate. simpl in Hrate. subst rc.
  rewrite <- Hrl in Hcheck.
  destruct (on_new_post_allowed now ws (str "ABC123") (Str (str "general"))
              (Str (str "Hello")) (Str (str "World")) m s1)
    as (Hp & Hn & _ & _ & _ & before & after & Ht); [done|done|].
  exists (human_post now (str "ABC123") (Str (str "general"))
            (Str (str "Hello")) (Str (str "World")) s1).
  rewrite Hp, Hn, Hposts, Hnext.
  split; [reflexivity|]. split; [exact Hnext|].
  repeat (split; [reflexivity|]).
  exists (new ++ before), after.
  apply emitted_app. rewrite Ht, Htr, Hcl, frames_filter.
  by rewrite <- !app_assoc.
Qed.

Lemma hello_world_post_witness :
  session_wallet 7 two_sessions = Str (str "ABC123")
  /\ exists post,
       posts (on_message (fun x => x) (fun x => x) 1000 [] 7
                (MsgNewPost (Str (str "general")) (Str (str "Hello"))
                   (Str (str "World"))) two_sessions) = [post]
       /\ Post.votes post = 1
       /\ Post.voters post = {[ str "ABC123" := 1 ]}.
Proof.
  split; [reflexivity|].
  destruct (hello_world_post (fun x => x) (fun x => x) 1000 [] 7 two_sessions)
    as (post & Hp & _ & _ & _ & _ & _ & Hv & Hvs & _); [reflexivity..|].
  exists post. split; [exact Hp|]. split; [exact Hv|exact Hvs].
Defined.

(** ** Generated posts *)

Lemma prefix_ci_occurs (lit txt rest : list N) :
  prefix_ci lit txt = Some rest ->
  exists mid, txt = mid ++ rest /\ map ascii_lower mid = map ascii_lower lit.
Proof.
  revert txt. induction lit as [|l lit IH]; intros txt H; simpl in H.
  - exists []. by inversion H.
  - destruct txt as [|c txt]; [done|].
    destruct (ascii_lower l =? ascii_lower c)%N eqn:Hc; [|done].
    apply N.eqb_eq in Hc.
    destruct (IH _ H) as (mid & -> & Hmid).
    exists (c :: mid). simpl. by rewrite Hmid, Hc.
Qed.






Example match_title_first_line :
  match_title (str "Title:  hello world" ++ [10%N] ++ str "CONTENT: body")
  = Some (str "hello world").
Proof. reflexivity. Qed.

Example match_content_to_the_end :
  match_content (str "TITLE: t" ++ [10%N] ++ str "content:" ++ [10%N]
                 ++ str "line one" ++ [10%N] ++ str "line two")
  = Some (str "line one" ++ [10%N] ++ str "line two").
Proof. reflexivity. Qed.

Example match_title_gives_back_a_space :
  match_title (str "TITLE: ") = Some (str " ").
Proof. reflexivity. Qed.


(** The cycle when the agent exists and both patterns match. *)
Lemma generateKrabPost_posted (now rv : Z) (i : nat) (hive txt tm cm : list N)
    (agent : Agent.t) (s : server) :
  agents s !! i = Some agent ->
  match_title txt = Some tm ->
  match_content txt = Some cm ->
  let post := agent_post now rv agent hive (slice0 200 (trim tm))
                (slice0 2000 (trim cm)) s in
  let s' := generateKrabPost now rv i hive (Generated txt) s in
  posts s' = unshift_capped post (posts s)
  /\ nextPostId s' = nextPostId s + 1
  /\ agents s' = <[i := Agent.record_post hive agent]> (agents s)
  /\ exists after,
       trace s' = trace s
                  ++ (Stringify (EvNewPost post)
                      :: frames (EvNewPost post) (clients s))
                  ++ after.
Proof.
  intros Hagent Htm Hcm post s'. subst post s'.
  unfold generateKrabPost. rewrite Hagent, Htm, Hcm. cbn zeta.
  rewrite !broadcast_trace. fields.
  repeat (split; [reflexivity|]).
  eexists. rewrite <- !app_assoc. reflexivity.
Qed.

(** ** The cap on the post list *)

Lemma unshift_capped_length (post : Post.t) (ps : list Post.t) :
  (length (unshift_capped post ps) <= 200)%nat.
Proof. unfold unshift_capped. rewrite length_take. lia. Qed.

Lemma unshift_capped_head (post : Post.t) (ps : list Post.t) :
  unshift_capped post ps = post :: take 199 ps.
Proof. done. Qed.

Lemma unshift_capped_full (post : Post.t) (ps : list Post.t) :
  (200 <= length ps)%nat ->
  length (unshift_capped post ps) = 200%nat
  /\ (forall k, (199 <= k)%nat -> unshift_capped post ps !! S k = None)
  /\ (forall k old, (k < 199)%nat -> ps !! k = Some old ->
        unshift_capped post ps !! S k = Some old).
Proof.
  intros Hfull. rewrite unshift_capped_head. split; [|split].
  - simpl. rewrite length_take. lia.
  - intros k Hk. simpl. apply lookup_take_ge. lia.
  - intros k old Hk Hold. simpl. by rewrite lookup_take_lt.
Qed.

(** What an introduction post does to the post list and the counter. *)
Lemma generateAgentIntroPost_posted (now : Z) (k : nat) (content : list N)
    (agent : Agent.t) (s : server) :
  UserAgents.items (userAgents s) !! k = Some agent ->
  let s' := generateAgentIntroPost now k (Generated content) s in
  posts s' = intro_post now agent content s :: posts s
  /\ nextPostId s' = nextPostId s + 1.
Proof.
  intros Hk. cbn zeta. unfold generateAgentIntroPost. rewrite Hk.
  cbn zeta. rewrite broadcast_trace. by fields.
Qed.

(** C7.  The two operations that create a post through
    [posts.unshift(post); posts = posts.slice(0, 200)], the [new_post]
    branch of the message handler and the scheduler's [generateKrabPost],
    leave a list of at most 200 posts whose head is the new post and whose
    tail is the first 199 posts of the old list.  On a list that already
    holds 200 or more the result has exactly 200: the insertion is made
    and the posts from the 200th on are dropped.  The introduction post
    of a deployed agent is put at the head by [posts.unshift(post)] alone:
    nothing is dropped and the list is one longer than before, whatever
    its length. *)
Theorem post_list_capped :
  (forall now ws w hive title content s,
      w <> [] ->
      (checkRateLimit now (Str w) (rateLimitMap s)).1 = Allowed ->
      let post := human_post now w hive title content s in
      let s' := on_new_post now ws (Str w) hive title content s in
      posts s' = post :: take 199 (posts s)
      /\ (length (posts s') <= 200)%nat
      /\ ((200 <= length (posts s))%nat -> length (posts s') = 200%nat))
  /\ (forall now rv i hive txt tm cm agent s,
        agents s !! i = Some agent ->
        match_title txt = Some tm ->
        match_content txt = Some cm ->
        let post := agent_post now rv agent hive (slice0 200 (trim tm))
                      (slice0 2000 (trim cm)) s in
        let s' := generateKrabPost now rv i hive (Generated txt) s in
        posts s' = post :: take 199 (posts s)
        /\ (length (posts s') <= 200)%nat
        /\ ((200 <= length (posts s))%nat -> length (posts s') = 200%nat))
  /\ (forall now k content agent s,
        UserAgents.items (userAgents s) !! k = Some agent ->
        let post := intro_post now agent content s in
        let s' := generateAgentIntroPost now k (Generated content) s in
        posts s' = post :: posts s
        /\ length (posts s') = S (length (posts s))).
Proof.
  split; [|split].
  - intros now ws w hive title content s Hne Hrate post s'.
    destruct (checkRateLimit now (Str w) (rateLimitMap s)) as [rc m] eqn:Hc.
    simpl in Hrate. subst rc.
    destruct (on_new_post_allowed now ws w hive title content m s Hne Hc)
      as (Hp & _). fold post s' in Hp. rewrite Hp.
    split; [apply unshift_capped_head|].
    split; [apply unshift_capped_length|].
    intros Hfull. by apply unshift_capped_full.
  - intros now rv i hive txt tm cm agent s Hagent Htm Hcm post s'.
    destruct (generateKrabPost_posted now rv i hive txt tm cm agent s
                Hagent Htm Hcm) as (Hp & _).
    fold post s' in Hp. rewrite Hp.
    split; [apply unshift_capped_head|].
    split; [apply unshift_capped_length|].
    intros Hfull. by apply unshift_capped_full.
  - intros now k content agent s Hk post s'.
    destruct (generateAgentIntroPost_posted now k content agent s Hk)
      as (Hp & _).
    fold post s' in Hp. by rewrite Hp.
Qed.

Lemma post_list_capped_witness :
  length (posts crowded) = 200%nat
  /\ (exists post,
        posts (on_new_post 1000 7 (Str (str "ABC123")) (Str (str "c/general"))
                 (Str (str "Hello")) (Str (str "World")) crowded)
        = post :: take 199 (posts crowded)
        /\ Post.title post = str "Hello"
        /\ Post.content post = str "World")
  /\ length (posts (on_new_post 1000 7 (Str (str "ABC123"))
                      (Str (str "c/general")) (Str (str "Hello"))
                      (Str (str "World")) crowded))
     = 200%nat
  /\ (exists post,
        posts (generateKrabPost 1000 7 0 (str "c/general")
                 (Generated (str "TITLE: gm" ++ [10%N]
                             ++ str "CONTENT: gm swarm")) crowded)
        = post :: take 199 (posts crowded)
        /\ Post.title post = str "gm"
        /\ Post.content post = str "gm swarm")
  /\ length (posts (generateKrabPost 1000 7 0 (str "c/general")
                      (Generated (str "TITLE: gm" ++ [10%N]
                                  ++ str "CONTENT: gm swarm")) crowded))
     = 200%nat.
Proof.
  destruct post_list_capped as (Hnew & Hkrab & _).
  pose proof (Hnew 1000 7%nat (str "ABC123") (Str (str "c/general"))
                (Str (str "Hello")) (Str (str "World")) crowded
                ltac:(discriminate) eq_refl) as Hn.
  cbn zeta in Hn. destruct Hn as (Hn1 & _ & Hn3).
  pose proof (Hkrab 1000 7 0%nat (str "c/general")
                (str "TITLE: gm" ++ [10%N] ++ str "CONTENT: gm swarm")
                (str "gm") (str "gm swarm")
                _ crowded eq_refl eq_refl eq_refl) as Hk.
  cbn zeta in Hk. destruct Hk as (Hk1 & _ & Hk3).
  split; [reflexivity|]. split.
  { eexists. split; [exact Hn1|]. split; reflexivity. }
  split; [apply Hn3, Nat.eq_le_incl; reflexivity|]. split.
  { eexists. split; [exact Hk1|]. split; reflexivity. }
  apply Hk3, Nat.eq_le_incl. reflexivity.
Defined.

(** C7 as the specification words it fails on a post-creating operation
    of the scheduler: two seconds after agent ["Scout"] is deployed its
    introduction is put on a list of 200 posts, and the list holds 201. *)
Lemma intro_post_exceeds_the_cap :
  length (posts crowded_scout) = 200%nat
  /\ Agent.name <$> UserAgents.items (userAgents crowded_scout) !! 0%nat
     = Some (str "Scout")
  /\ length (posts (generateAgentIntroPost 3000 0
                      (Generated (str "gm, I scout the swarm."))
                      crowded_scout))
     = 201%nat
  /\ Post.title
       <$> head (posts (generateAgentIntroPost 3000 0
                          (Generated (str "gm, I scout the swarm."))
                          crowded_scout))
     = Some (str "Scout is now online! $SCT").
Proof. repeat split; vm_compute; reflexivity. Qed.

(** ** Achievements and user records *)

Lemma set_achievements_same (s : server) :
  set_achievements (achievements s) s = s.
Proof. by destruct s. Qed.

Lemma set_users_same (s : server) : set_users (users s) s = s.
Proof. by destruct s. Qed.

(** What [addNotification] does for a wallet it does not skip: the list
    of the wallet gets the notification at its head and is cut to 50, and
    every open session of the wallet is sent the notification. *)
Lemma addNotification_counted (now : Z) (wallet type content : list N)
    (relatedId : option Z) (s : server) :
  wallet <> [] -> wallet <> str "SNAI" ->
  let notif :=
    {| Notification.id := now; Notification.type := type;
       Notification.content := content; Notification.relatedId := relatedId;
       Notification.read := false; Notification.timestamp := now |} in
  addNotification now wallet type content relatedId s
  = set_trace
      (trace s
       ++ concat (map (fun c =>
                         if bool_decide (Session.wallet c = wallet)
                            && bool_decide (Session.readyState c = OPEN)
                         then [Stringify (EvNotification notif);
                               Send (Session.ws c) (EvNotification notif)]
                         else [])
                      (clients s)))
      (set_notifications
         (<[wallet := take 50 (notif :: default [] (notifications s !! wallet))]>
            (notifications s)) s).
Proof.
  intros Hne Hsnai notif. unfold addNotification.
  rewrite !bool_decide_false by done. cbn [orb].
  erewrite fold_sessions_trace; [reflexivity|].
  intros a c. cbn beta.
  destruct (_ && _).
  - unfold send, emit. simpl. by rewrite <- app_assoc.
  - by rewrite app_nil_r, set_trace_same.
Qed.

(** [addNotification] leaves everything but the notifications and the
    trace as it was. *)
Lemma addNotification_frame (now : Z) (wallet type content : list N)
    (relatedId : option Z) (s : server) :
  exists new nts,
    addNotification now wallet type content relatedId s
    = set_trace (trace s ++ new) (set_notifications nts s).
Proof.
  destruct (decide (wallet = [])) as [->|Hne];
    [|destruct (decide (wallet = str "SNAI")) as [->|Hsnai]].
  - exists [], (notifications s). rewrite app_nil_r. by destruct s.
  - exists [], (notifications s). rewrite app_nil_r. by destruct s.
  - eexists _, _. by apply addNotification_counted.
Qed.

Lemma addActivity_frame (now : Z) (type actor : list N) (tgt : target)
    (content : list N) (s : server) :
  exists new act,
    addActivity now type actor tgt content s
    = set_trace (trace s ++ new)
        (set_activityFeed (take 500 (act :: activityFeed s)) s).
Proof.
  unfold addActivity. rewrite broadcast_trace. by eexists _, _.
Qed.

(** Where [unlockAchievement] ends when the achievement is new to the
    wallet and is one of the table. *)
Lemma unlockAchievement_fresh (now : Z) (wallet aid : list N)
    (achDef : AchDef.t) (s : server) :
  existsb (fun a => bool_decide (Achievement.id a = aid))
          (default [] (achievements s !! wallet)) = false ->
  find (fun d => bool_decide (AchDef.id d = aid)) ACHIEVEMENTS = Some achDef ->
  let s' := unlockAchievement now wallet aid s in
  achievements s'
  = <[wallet := default [] (achievements s !! wallet)
                ++ [ {| Achievement.id := aid;
                        Achievement.name := AchDef.name achDef;
                        Achievement.desc := AchDef.desc achDef;
                        Achievement.icon := AchDef.icon achDef;
                        Achievement.unlockedAt := now |} ]]>
      (achievements s)
  /\ users s'
     = alter (fun u =>
                User.with_xp (User.xp u + AchDef.karma achDef * 10)
                  (User.with_karma (User.karma u + AchDef.karma achDef) u))
             wallet (users s)
  /\ SaveDatabase ∈ emitted s s'.
Proof.
  intros Hnew Hdef s'. subst s'. unfold unlockAchievement.
  rewrite Hnew, Hdef. cbn zeta.
  match goal with
  | |- context [addActivity ?n ?t ?a ?g ?c ?s0] =>
      destruct (addActivity_frame n t a g c s0) as (new2 & act & ->)
  end.
  match goal with
  | |- context [addNotification ?n ?w ?t ?c ?r ?s0] =>
      destruct (addNotification_frame n w t c r s0) as (new1 & nts & ->)
  end.
  fields. split; [by rewrite insert_insert_eq|]. split; [done|].
  erewrite emitted_app; [|fields; rewrite <- !app_assoc; reflexivity].
  rewrite !elem_of_app, list_elem_of_singleton. auto.
Qed.

(** [unlockAchievement] either leaves the user table alone or adds the
    karma and the XP of the row to the record of its wallet. *)
Lemma unlockAchievement_users_cases (now : Z) (wallet aid : list N)
    (s : server) :
  users (unlockAchievement now wallet aid s) = users s
  \/ exists achDef,
       find (fun d => bool_decide (AchDef.id d = aid)) ACHIEVEMENTS
       = Some achDef
       /\ users (unlockAchievement now wallet aid s)
          = alter (fun u =>
                     User.with_xp (User.xp u + AchDef.karma achDef * 10)
                       (User.with_karma (User.karma u + AchDef.karma achDef)
                          u))
                  wallet (users s).
Proof.
  destruct (existsb (fun a => bool_decide (Achievement.id a = aid))
              (default [] (achievements s !! wallet))) eqn:Hex;
    [|destruct (find (fun d => bool_decide (AchDef.id d = aid)) ACHIEVEMENTS)
        as [achDef|] eqn:Hdef].
  - left. unfold unlockAchievement. by rewrite Hex.
  - right. exists achDef. split; [done|].
    by destruct (unlockAchievement_fresh now wallet aid achDef s Hex Hdef)
      as (_ & -> & _).
  - left. unfold unlockAchievement. by rewrite Hex, Hdef.
Qed.

(** [unlockAchievement] reads and writes the user table at its wallet
    only. *)
Lemma unlockAchievement_users (now : Z) (wallet aid : list N) (s : server) :
  exists f, users (unlockAchievement now wallet aid s) = alter f wallet (users s).
Proof.
  destruct (unlockAchievement_users_cases now wallet aid s)
    as [->|(achDef & _ & ->)]; [|by eexists].
  exists (fun u => u). by rewrite alter_id.
Qed.

(** ** Deleting a post *)

Lemma findIndex_find {A} (P : A -> bool) (l : list A) :
  match findIndex P l with
  | Some idx => exists x, l !! idx = Some x /\ find P l = Some x
  | None => find P l = None
  end.
Proof.
  induction l as [|x l IH]; simpl; [done|].
  destruct (P x); [by exists x|].
  destruct (findIndex P l) as [idx|]; simpl; [|done].
  destruct IH as (y & Hy & Hf). by exists y.
Qed.

Lemma no_deletion_same (s s' : server) : trace s' = trace s -> no_deletion s s'.
Proof. intros Ht. exists []. by rewrite app_nil_r. Qed.

Lemma no_deletion_trans (s1 s2 s3 : server) :
  no_deletion s1 s2 -> no_deletion s2 s3 -> no_deletion s1 s3.
Proof.
  intros (new1 & H12 & Hq1) (new2 & H23 & Hq2). exists (new1 ++ new2).
  split; [by rewrite H23, H12, app_assoc|by apply Forall_app].
Qed.

Lemma no_deletion_emit (e : effect) (s : server) :
  is_delete_frame e = false -> no_deletion s (emit e s).
Proof. intros He. exists [e]. split; [done|by constructor]. Qed.

Lemma no_deletion_broadcast (data : event) (s : server) :
  is_delete_frame (Stringify data) = false ->
  no_deletion s (broadcast data s).
Proof.
  intros Hd. rewrite broadcast_trace. eexists. split; [reflexivity|].
  constructor; [done|]. rewrite frames_filter. apply Forall_forall.
  intros e He. apply list_elem_of_fmap in He as (c & -> & _).
  by destruct data.
Qed.

Lemma no_deletion_fold (step : server -> Session.t -> server)
    (l : list Session.t) (s : server) :
  (forall a c, no_deletion a (step a c)) ->
  no_deletion s (fold_left step l s).
Proof.
  intros Hstep. revert s. induction l as [|c l IH]; intros s; simpl.
  - by apply no_deletion_same.
  - eapply no_deletion_trans; [apply Hstep|apply IH].
Qed.

Lemma no_deletion_addNotification now wallet type content relatedId s :
  no_deletion s (addNotification now wallet type content relatedId s).
Proof.
  unfold addNotification. case_match; [by apply no_deletion_same|].
  eapply no_deletion_trans; [|apply no_deletion_fold]; [by apply no_deletion_same|].
  intros a c.
  case_match; [|by apply no_deletion_same].
  unfold send. eapply no_deletion_trans; by apply no_deletion_emit.
Qed.

Lemma no_deletion_addActivity now type actor tgt content s :
  no_deletion s (addActivity now type actor tgt content s).
Proof.
  unfold addActivity.
  eapply no_deletion_trans; [|by apply no_deletion_broadcast].
  by apply no_deletion_same.
Qed.

Lemma no_deletion_unlockAchievement now wallet achievementId s :
  no_deletion s (unlockAchievement now wallet achievementId s).
Proof.
  unfold unlockAchievement.
  repeat case_match; try by apply no_deletion_same.
  unfold saveDatabase.
  eapply no_deletion_trans; [|by apply no_deletion_emit].
  eapply no_deletion_trans; [|apply no_deletion_addActivity].
  eapply no_deletion_trans; [|apply no_deletion_addNotification].
  by apply no_deletion_same.
Qed.

Lemma no_deletion_getUser now wallet s :
  no_deletion s (getUser now wallet s).
Proof.
  unfold getUser.
  repeat case_match; try by apply no_deletion_same.
  - unfold saveDatabase.
    eapply no_deletion_trans; [|by apply no_deletion_emit].
    eapply no_deletion_trans; [|apply no_deletion_unlockAchievement].
    by apply no_deletion_same.
  - unfold saveDatabase.
    eapply no_deletion_trans; [|by apply no_deletion_emit].
    by apply no_deletion_same.
Qed.

(** [getUser] reads and writes the user table at its wallet only. *)
Lemma getUser_others (now : Z) (w w' : list N) (s : server) :
  w' <> w -> users (getUser now (Str w) s) !! w' = users s !! w'.
Proof.
  intros Hw'. unfold getUser. destruct w as [|c r]; [done|].
  destruct (users s !! (c :: r)) as [u0|] eqn:Hu0.
  - fields. by rewrite lookup_insert_ne.
  - fields. destruct (_ <=? _)%nat.
    + match goal with
      | |- context [unlockAchievement ?n ?x ?a ?s0] =>
          destruct (unlockAchievement_users n x a s0) as [f ->]
      end.
      fields. by rewrite lookup_alter_ne, lookup_insert_ne.
    + fields. by rewrite lookup_insert_ne.
Qed.

(** C10.  The [delete_post] branch removes a post only for its owner.
    When the first post with the requested id has a [wallet] that is not
    the session's, or when no post has that id, the branch leaves the
    whole state as it was: the post list, every other collection and the
    trace, so no [delete_post] broadcast.  When that post's [wallet] is
    the session's, it is the one removed and the removal is broadcast.
    A whole request that removes nothing is not without effect, though:
    the first lines of the handler have called [getUser] for the sender,
    which writes the clock reading into the sender's [lastSeen] (and makes
    the record of a wallet it has not seen).  The posts, the agents, the
    limits and the sessions are as before, no other user's record has
    changed and no frame announces a deletion. *)
Theorem delete_post_owner_only (uw : value) (postId : Z) (s : server) :
  let is_it := fun p => bool_decide (Post.id p = postId) in
  ((forall p, find is_it (posts s) = Some p -> Post.wallet p <> uw) ->
   on_delete_post uw postId s = s)
  /\ (forall p, find is_it (posts s) = Some p -> Post.wallet p = uw ->
      exists idx,
        posts s !! idx = Some p
        /\ posts (on_delete_post uw postId s) = delete idx (posts s)
        /\ Stringify (EvDeletePost postId)
           ∈ emitted s (on_delete_post uw postId s))
  /\ (forall toLowerCase toUpperCase now ca ws,
        (forall p, find is_it (posts s) = Some p ->
                   Post.wallet p <> session_wallet ws s) ->
        let s' := on_message toLowerCase toUpperCase now ca ws
                    (MsgDeletePost postId) s in
        s' = getUser now (session_wallet ws s) s
        /\ people_only s s'
        /\ posts s' = posts s
        /\ (forall w', Str w' <> session_wallet ws s ->
              users s' !! w' = users s !! w')
        /\ (forall w u, session_wallet ws s = Str w -> w <> [] ->
              users s !! w = Some u ->
              s' = set_users (<[w := User.with_lastSeen now u]> (users s)) s)
        /\ Forall (fun e => is_delete_frame e = false) (emitted s s')).
Proof.
  intros is_it.
  assert (Hdrop : forall u s0,
             (forall p, find is_it (posts s0) = Some p -> Post.wallet p <> u) ->
             on_delete_post u postId s0 = s0).
  { intros u s0 Hother. unfold on_delete_post. fold is_it.
    pose proof (findIndex_find is_it (posts s0)) as Hfi.
    destruct (findIndex is_it (posts s0)) as [idx|]; [|done].
    destruct Hfi as (p & Hp & Hfind). rewrite Hp.
    unfold strict_eq. rewrite bool_decide_false; [done|].
    by apply Hother. }
  split; [apply Hdrop|]. split.
  - intros p Hfind Hown. unfold on_delete_post. fold is_it.
    pose proof (findIndex_find is_it (posts s)) as Hfi.
    destruct (findIndex is_it (posts s)) as [idx|];
      [|by rewrite Hfind in Hfi].
    destruct Hfi as (q & Hq & Hfind'). rewrite Hfind in Hfind'.
    inversion Hfind'; subst q. exists idx. split; [done|].
    rewrite Hq. unfold strict_eq. rewrite bool_decide_true by done.
    rewrite !broadcast_trace. fields. split; [done|].
    erewrite emitted_app; [|fields; rewrite <- !app_assoc; reflexivity].
    apply elem_of_cons. by left.
  - intros toLowerCase toUpperCase now ca ws Hother s'.
    pose proof (people_only_getUser now (session_wallet ws s) s) as Hpeople.
    destruct (people_only_fields s _ Hpeople) as (Hposts & _).
    assert (Hs' : s' = getUser now (session_wallet ws s) s).
    { subst s'. unfold on_message. apply Hdrop. by rewrite Hposts. }
    rewrite Hs'. split; [done|]. split; [done|]. split; [done|].
    split; [|split].
    + intros w' Hw'. destruct (session_wallet ws s) as [| |w] eqn:Hsw;
        try done.
      apply getUser_others. congruence.
    + intros w u Hsw Hw Hu. rewrite Hsw. unfold getUser.
      destruct w as [|c r]; [done|]. by rewrite Hu.
    + destruct (no_deletion_getUser now (session_wallet ws s) s)
        as (new & Htrace & Hnew).
      by rewrite (emitted_app _ _ _ Htrace).
Qed.

Lemma delete_post_owner_only_witness :
  on_delete_post (Str (str "ABC123")) 1 two_posts = two_posts
  /\ on_delete_post (Str (str "ABC123")) 99 two_posts = two_posts
  /\ posts (on_delete_post (Str (str "ABC123")) 5 two_posts) = [old_post 1]
  /\ on_message (fun x => x) (fun x => x) 1000 [] 7 (MsgDeletePost 1)
       two_posts_known
     = set_users
         {[ str "ABC123" := User.with_lastSeen 1000 (member (str "ABC123") 9) ]}
         two_posts_known.
Proof.
  split; [|split; [|split]].
  - apply (delete_post_owner_only (Str (str "ABC123")) 1 two_posts).
    intros p Hp. vm_compute in Hp. inversion Hp. discriminate.
  - apply (delete_post_owner_only (Str (str "ABC123")) 99 two_posts).
    intros p Hp. vm_compute in Hp. discriminate Hp.
  - destruct (delete_post_owner_only (Str (str "ABC123")) 5 two_posts)
      as (_ & Hown & _).
    destruct (Hown (own_post 5)) as (idx & Hidx & Hposts & _);
      [reflexivity..|].
    rewrite Hposts.
    destruct idx as [|[|idx]]; [reflexivity|discriminate Hidx..].
  - destruct (delete_post_owner_only (Str (str "ABC123")) 1 two_posts_known)
      as (_ & _ & Hmsg).
    destruct (Hmsg (fun x => x) (fun x => x) 1000 [] 7%nat)
      as (_ & _ & _ & _ & Hseen & _).
    { intros p Hp. vm_compute in Hp. inversion Hp. discriminate. }
    rewrite (Hseen (str "ABC123") (member (str "ABC123") 9));
      [|reflexivity|discriminate|reflexivity].
    reflexivity.
Defined.

(** C10 as the specification words it fails on a request that removes
    nothing: wallet ["ABC123"], last seen at time 100, asks at time 5000
    for the removal of post 1, which is not its own.  The post list is as
    before and so is every collection but one: the sender's user record
    now says it was last seen at 5000. *)
Lemma foreign_delete_request_touches_the_sender :
  session_wallet 7 two_posts_known = Str (str "ABC123")
  /\ Post.wallet
       <$> find (fun p => bool_decide (Post.id p = 1)) (posts two_posts_known)
     = Some (Str (str "SNAI"))
  /\ posts (on_message lower upper 5000 [] 7 (MsgDeletePost 1)
              two_posts_known)
     = posts two_posts_known
  /\ User.lastSeen <$> users two_posts_known !! str "ABC123" = Some 100
  /\ User.lastSeen
       <$> users (on_message lower upper 5000 [] 7 (MsgDeletePost 1)
                    two_posts_known) !! str "ABC123"
     = Some 5000
  /\ users (on_message lower upper 5000 [] 7 (MsgDeletePost 1)
              two_posts_known)
     <> users two_posts_known.
Proof.
  repeat split; try (vm_compute; reflexivity).
  intros Heq.
  assert (Hseen : User.lastSeen
                    <$> users (on_message lower upper 5000 [] 7
                                 (MsgDeletePost 1) two_posts_known)
                        !! str "ABC123"
                  = Some 100) by (by rewrite Heq).
  vm_compute in Hseen. discriminate Hseen.
Qed.

(** ** Voting *)

Lemma find_update_first {A} (P : A -> bool) (f : A -> A) (l : list A) :
  (forall x, P (f x) = P x) ->
  find P (update_first P f l) = f <$> find P l.
Proof.
  intros Hf. induction l as [|x l IH]; simpl; [done|].
  destruct (P x) eqn:Hx; simpl.
  - by rewrite Hf, Hx.
  - by rewrite Hx.
Qed.

(** The [vote] branch on a post that exists rewrites that post and no
    other. *)
Lemma on_vote_posts (ws : nat) (w : list N) (postId direction : Z)
    (p : Post.t) (s : server) :
  w <> [] ->
  find (fun p => bool_decide (Post.id p = postId)) (posts s) = Some p ->
  posts (on_vote ws (Str w) postId direction s)
  = update_first (fun p => bool_decide (Post.id p = postId))
      (cast_vote w direction) (posts s).
Proof.
  intros Hne Hfind. unfold on_vote.
  destruct w as [|c r]; [done|]. rewrite Hfind. cbn zeta.
  rewrite broadcast_trace. fields.
  by destruct (Post.wallet p) as [| |[|d t]].
Qed.

(** Its tally and the sender's recorded vote afterwards. *)
Lemma on_vote_found (ws : nat) (w : list N) (postId direction : Z)
    (p : Post.t) (s : server) :
  w <> [] ->
  find (fun p => bool_decide (Post.id p = postId)) (posts s) = Some p ->
  let s' := on_vote ws (Str w) postId direction s in
  tally postId s' = Some (Post.votes p - current_vote w p
                          + next_vote w direction p)
  /\ recorded w postId s' = Some (next_vote w direction p).
Proof.
  intros Hne Hfind s'. subst s'. unfold tally, recorded.
  rewrite (on_vote_posts ws w postId direction p s Hne Hfind).
  rewrite find_update_first by done. rewrite Hfind. simpl.
  split; [done|]. unfold current_vote at 1. simpl.
  by rewrite lookup_insert_eq.
Qed.

(** The REST vote of an authenticated, active agent on a post that
    exists. *)
Lemma agents_vote_found (now : Z) (key : list N) (keyData : KeyData.t)
    (agent : RegAgent.t) (postId direction : Z) (p : Post.t) (s : server) :
  key <> [] -> postId <> 0 ->
  assoc_get key (agentApiKeys s) = Some keyData ->
  assoc_get (KeyData.agentId keyData) (registeredAgents s) = Some agent ->
  RegAgent.active agent = true ->
  find (fun p => bool_decide (Post.id p = postId)) (posts s) = Some p ->
  let voteKey := str "agent_" ++ RegAgent.id agent in
  let s' := agents_vote now (Str key) (Some postId) (Some direction) s in
  posts s'
  = (if bool_decide (current_vote voteKey p = vote_sign direction)
     then posts s
     else update_first (fun p => bool_decide (Post.id p = postId))
            (agent_cast_vote voteKey direction) (posts s))
  /\ (current_vote voteKey p = vote_sign direction ->
      s' = emit (Respond 200 (ReplyVoted (Post.id p) (Post.votes p))) s).
Proof.
  intros Hkey Hpid Hk Ha Hact Hfind voteKey s'. subst s'.
  unfold agents_vote. destruct key as [|c r]; [done|].
  rewrite (proj2 (Z.eqb_neq postId 0) Hpid), Hk, Ha, Hact, Hfind.
  cbn [negb]. fold voteKey.
  destruct (decide (current_vote voteKey p = vote_sign direction)) as [Hsame|Hnew].
  - assert (agent_cast_vote voteKey direction p = p) as ->
      by (unfold agent_cast_vote; by rewrite bool_decide_true).
    by rewrite !bool_decide_true.
  - rewrite !bool_decide_false by done.
    split; [|done]. rewrite broadcast_trace. by fields.
Qed.

(** C1, as the code has it.  A wallet that has voted [d] (up or down) on a
    post and sends the same direction again over the socket takes its vote
    back: the tally moves by [-d] and the recorded vote becomes 0.
    Sending the opposite direction instead moves the tally by exactly 2,
    from [d] to [-d].  The REST vote of an agent is the idempotent one: the
    same direction again leaves the post list as it is, and the opposite
    direction moves the tally by exactly 2. *)
Theorem vote_again_and_flip :
  (forall ws w postId d p s,
      w <> [] -> d = 1 \/ d = -1 ->
      find (fun p => bool_decide (Post.id p = postId)) (posts s) = Some p ->
      current_vote w p = d ->
      tally postId (on_vote ws (Str w) postId d s) = Some (Post.votes p - d)
      /\ recorded w postId (on_vote ws (Str w) postId d s) = Some 0
      /\ tally postId (on_vote ws (Str w) postId (- d) s)
         = Some (Post.votes p - 2 * d)
      /\ recorded w postId (on_vote ws (Str w) postId (- d) s) = Some (- d))
  /\ (forall now key keyData agent postId d p s,
        key <> [] -> postId <> 0 -> d = 1 \/ d = -1 ->
        assoc_get key (agentApiKeys s) = Some keyData ->
        assoc_get (KeyData.agentId keyData) (registeredAgents s)
        = Some agent ->
        RegAgent.active agent = true ->
        find (fun p => bool_decide (Post.id p = postId)) (posts s) = Some p ->
        current_vote (str "agent_" ++ RegAgent.id agent) p = d ->
        posts (agents_vote now (Str key) (Some postId) (Some d) s) = posts s
        /\ tally postId (agents_vote now (Str key) (Some postId) (Some d) s)
           = Some (Post.votes p)
        /\ tally postId
             (agents_vote now (Str key) (Some postId) (Some (- d)) s)
           = Some (Post.votes p - 2 * d)).
Proof.
  split.
  - intros ws w postId d p s Hne Hd Hfind Hcv.
    destruct (on_vote_found ws w postId d p s Hne Hfind) as [Ht Hr].
    destruct (on_vote_found ws w postId (- d) p s Hne Hfind) as [Ht' Hr'].
    rewrite Ht, Hr, Ht', Hr'. unfold next_vote. rewrite Hcv.
    rewrite bool_decide_true by done.
    rewrite bool_decide_false by lia.
    repeat split; f_equal; lia.
  - intros now key keyData agent postId d p s Hkey Hpid Hd Hk Ha Hact Hfind Hcv.
    destruct (agents_vote_found now key keyData agent postId d p s
                Hkey Hpid Hk Ha Hact Hfind) as [Hsame _].
    destruct (agents_vote_found now key keyData agent postId (- d) p s
                Hkey Hpid Hk Ha Hact Hfind) as [Hflip _].
    cbn zeta in Hsame, Hflip. rewrite Hcv in Hsame, Hflip.
    assert (Hsd : vote_sign d = d) by (destruct Hd; subst d; reflexivity).
    assert (Hsn : vote_sign (- d) = - d)
      by (destruct Hd; subst d; reflexivity).
    rewrite Hsd, bool_decide_true in Hsame by done.
    rewrite Hsn, bool_decide_false in Hflip by lia.
    unfold tally. rewrite Hsame, Hflip, Hfind.
    split; [done|]. split; [done|].
    rewrite find_update_first.
    + rewrite Hfind. cbn [fmap option_fmap option_map].
      unfold agent_cast_vote.
      rewrite Hcv, Hsn, bool_decide_false by lia. simpl. f_equal. lia.
    + intros x. unfold agent_cast_vote.
      by destruct (bool_decide (current_vote _ x = _)).
Qed.

Lemma vote_again_and_flip_witness :
  tally 5 two_posts = Some 1
  /\ tally 5 (on_vote 7 (Str (str "ABC123")) 5 1 two_posts) = Some (1 - 1)
  /\ tally 5 (on_vote 7 (Str (str "ABC123")) 5 (- (1)) two_posts)
     = Some (1 - 2 * 1)
  /\ tally 5 with_api_agent = Some 2
  /\ tally 5 (agents_vote 1000 (Str (str "key-1")) (Some 5) (Some 1)
                with_api_agent) = Some 2
  /\ tally 5 (agents_vote 1000 (Str (str "key-1")) (Some 5) (Some (- (1)))
                with_api_agent) = Some (2 - 2 * 1).
Proof.
  destruct vote_again_and_flip as [Hsocket Hrest].
  split; [reflexivity|].
  destruct (Hsocket 7%nat (str "ABC123") 5 1 (own_post 5) two_posts)
    as (H1 & _ & H2 & _); [discriminate|by left|reflexivity..|].
  split; [exact H1|]. split; [exact H2|].
  split; [reflexivity|].
  destruct (Hrest 1000 (str "key-1") api_key_data api_agent 5 1
              agent_voted_post with_api_agent)
    as (_ & H3 & H4);
    [discriminate|discriminate|by left|reflexivity..|].
  split; [exact H3|exact H4].
Defined.

(** C1 as the specification words it fails on the socket handler: wallet
    ["ABC123"] has voted up post 5, whose tally is 1; sending the same
    direction again does not leave the tally unchanged, it takes the vote
    back and the tally is 0. *)
Lemma same_vote_again_changes_tally :
  recorded (str "ABC123") 5 two_posts = Some 1
  /\ tally 5 two_posts = Some 1
  /\ tally 5 (on_vote 7 (Str (str "ABC123")) 5 1 two_posts) = Some 0
  /\ tally 5 (on_vote 7 (Str (str "ABC123")) 5 1 two_posts)
     <> tally 5 two_posts.
Proof. repeat split; [reflexivity..|discriminate]. Qed.

(** ** Hot score *)

Section Decay.

Variable rnd : R -> R.
Variable pow : R -> R -> R.

(** What the results on the score take from the arithmetic of doubles:
    rounding to the nearest double keeps the order and leaves an integer
    of up to 53 bits as it is; and from [Math.pow]: at the exponent [1.8]
    its result for a base above 0 is above 0. *)
Hypothesis rnd_monotone : forall x y, (x <= y)%R -> (rnd x <= rnd y)%R.
Hypothesis rnd_integer : forall z, Z.abs z <= 2 ^ 53 -> rnd (IZR z) = IZR z.
Hypothesis pow_positive :
  forall b, (0 < b)%R -> (0 < pow b (gravity rnd))%R.

(** The numerator is the rounded integer [votes + 2 * comments]; an array
    has fewer than [2 ^ 32] elements. *)
Lemma weight_rounded (p : Post.t) :
  Z.of_nat (length (Post.comments p)) < 2 ^ 32 ->
  rnd (IZR (Post.votes p)
       + rnd (IZR (Z.of_nat (length (Post.comments p))) * 2))%R
  = rnd (IZR (Post.votes p + 2 * Z.of_nat (length (Post.comments p)))).
Proof.
  intros Hlen. rewrite <- mult_IZR, rnd_integer by lia.
  rewrite <- plus_IZR. do 2 f_equal. lia.
Qed.


(** For a post dated at most one hour ahead of the clock the base is at
    least 1. *)
Lemma base_above (now : Z) (p : Post.t) :
  Post.timestamp p <= now + 3600000 ->
  (1 <= rnd (ageHours rnd now p + 2))%R.
Proof.
  intros Hts. unfold ageHours. change (1000 * 60 * 60) with 3600000.
  assert (Hd : (IZR (-3600000)
                <= rnd (IZR now
                        - IZR (if Post.timestamp p =? 0 then now
                               else Post.timestamp p)))%R).
  { rewrite <- (rnd_integer (-3600000)) by lia.
    apply rnd_monotone. rewrite <- minus_IZR. apply IZR_le.
    destruct (Post.timestamp p =? 0); lia. }
  assert (Ha : (IZR (-1)
                <= rnd (rnd (IZR now
                             - IZR (if Post.timestamp p =? 0 then now
                                    else Post.timestamp p))
                        / 3600000))%R).
  { rewrite <- (rnd_integer (-1)) by lia. apply rnd_monotone. lra. }
  rewrite <- (rnd_integer 1) by lia. apply rnd_monotone. lra.
Qed.

(** With a base above 0 the score is the rounded quotient. *)
Lemma score_finite (now : Z) (p : Post.t) :
  Z.of_nat (length (Post.comments p)) < 2 ^ 32 ->
  (0 < rnd (ageHours rnd now p + 2))%R ->
  calculateHotScore rnd pow now p
  = Finite
      (rnd (rnd (IZR (Post.votes p
                      + 2 * Z.of_nat (length (Post.comments p))))
            / pow (rnd (ageHours rnd now p + 2)) (gravity rnd))).
Proof.
  intros Hlen Hbase. unfold calculateHotScore. cbn zeta.
  rewrite weight_rounded by done.
  pose proof (pow_positive _ Hbase) as Hpow.
  destruct (Rlt_dec _ 0) as [Hneg|_]; [lra|].
  destruct (Req_dec_T (rnd _) 0) as [Hzero|_]; [lra|].
  destruct (Req_dec_T _ 0) as [Hzero|_]; [lra|done].
Qed.

Hypothesis pow_monotone :
  forall b c, (0 < b)%R -> (b <= c)%R ->
              (pow b (gravity rnd) <= pow c (gravity rnd))%R.


(** X19.  Between two posts written at the same time, no more than an
    hour ahead of the clock, the hot score never ranks the post with less
    of [votes + 2 * comments] above the other, and it gives posts of equal
    weight the same score: a comment counts as two votes. *)
Theorem hot_score_orders_by_weight (now : Z) (p q : Post.t) :
  Post.timestamp p = Post.timestamp q ->
  Post.timestamp p <= now + 3600000 ->
  Z.of_nat (length (Post.comments p)) < 2 ^ 32 ->
  Z.of_nat (length (Post.comments q)) < 2 ^ 32 ->
  let weight x := Post.votes x + 2 * Z.of_nat (length (Post.comments x)) in
  exists x y,
    calculateHotScore rnd pow now p = Finite x
    /\ calculateHotScore rnd pow now q = Finite y
    /\ (weight p <= weight q -> (x <= y)%R)
    /\ (weight p = weight q -> x = y).
Proof.
  intros Hts Hahead Hp Hq weight.
  pose proof (base_above now p Hahead) as Hb.
  assert (Hage : ageHours rnd now q = ageHours rnd now p)
    by (unfold ageHours; by rewrite Hts).
  rewrite !score_finite by (done || rewrite ?Hage; lra).
  rewrite Hage. fold (weight p) (weight q).
  set (b := rnd (ageHours rnd now p + 2)) in *.
  pose proof (pow_positive b ltac:(lra)) as HP.
  do 2 eexists. split; [done|]. split; [done|]. split.
  - intros Hle. apply rnd_monotone. unfold Rdiv.
    apply Rmult_le_compat_r; [apply Rlt_le, Rinv_0_lt_compat; lra|].
    apply rnd_monotone. by apply IZR_le.
  - by intros ->.
Qed.

End Decay.

Section Hours.
Variable rnd : R -> R.
Variable pow : R -> R -> R.
Hypothesis rnd_integer : forall z, Z.abs z <= 2 ^ 53 -> rnd (IZR z) = IZR z.

(** The score of a post a whole number of hours old: no step but the last
    division rounds. *)
Lemma score_at_whole_hours (now hours : Z) (p : Post.t) :
  pow (IZR (hours + 2)) (gravity rnd) <> 0%R ->
  Post.timestamp p <> 0 ->
  0 <= hours <= 1000000 ->
  now - Post.timestamp p = hours * 3600000 ->
  Z.of_nat (length (Post.comments p)) < 2 ^ 32 ->
  Z.abs (Post.votes p + 2 * Z.of_nat (length (Post.comments p))) <= 2 ^ 53 ->
  calculateHotScore rnd pow now p
  = Finite
      (rnd (IZR (Post.votes p + 2 * Z.of_nat (length (Post.comments p)))
            / pow (IZR (hours + 2)) (gravity rnd))).
Proof.
  intros Hpow Hts Hh Hnow Hlen Hsafe.
  assert (Hbase : rnd (ageHours rnd now p + 2)%R = IZR (hours + 2)).
  { unfold ageHours. apply Z.eqb_neq in Hts. rewrite Hts.
    rewrite <- minus_IZR, Hnow, rnd_integer by lia.
    change (1000 * 60 * 60) with 3600000.
    replace (IZR (hours * 3600000) / IZR 3600000)%R with (IZR hours)
      by (rewrite mult_IZR; field).
    rewrite rnd_integer by lia.
    rewrite <- (plus_IZR hours 2). apply rnd_integer. lia. }
  assert (Hpos : (0 < IZR (hours + 2))%R) by (apply IZR_lt; lia).
  unfold calculateHotScore. cbn zeta. rewrite Hbase.
  destruct (Rlt_dec _ 0) as [Hneg|_]; [lra|].
  destruct (Req_dec_T (IZR _) 0) as [Hzero|_]; [lra|].
  destruct (Req_dec_T _ 0) as [Hzero|_]; [done|].
  rewrite <- mult_IZR, rnd_integer by lia.
  rewrite <- plus_IZR.
  replace (Post.votes p + Z.of_nat (length (Post.comments p)) * 2)
    with (Post.votes p + 2 * Z.of_nat (length (Post.comments p))) by lia.
  by rewrite rnd_integer.
Qed.
End Hours.



Lemma hot_score_orders_by_weight_witness :
  calculateHotScore (fun x => x) Rpower 3600500 (old_post 1)
  = Finite (3 / Rpower 3 (18 / 10))
  /\ calculateHotScore (fun x => x) Rpower 3600500
       (Post.with_vote 4 (Post.voters (old_post 1)) (old_post 1))
     = Finite (4 / Rpower 3 (18 / 10))
  /\ (3 / Rpower 3 (18 / 10) <= 4 / Rpower 3 (18 / 10))%R.
Proof.
  assert (H1 : calculateHotScore (fun x => x) Rpower 3600500 (old_post 1)
               = Finite (3 / Rpower 3 (18 / 10))).
  { apply (score_at_whole_hours (fun x => x) Rpower ltac:(done) 3600500 1);
      try (cbn; lia).
    apply Rgt_not_eq, exp_pos. }
  assert (H2 : calculateHotScore (fun x => x) Rpower 3600500
                 (Post.with_vote 4 (Post.voters (old_post 1)) (old_post 1))
               = Finite (4 / Rpower 3 (18 / 10))).
  { apply (score_at_whole_hours (fun x => x) Rpower ltac:(done) 3600500 1);
      try (cbn; lia).
    apply Rgt_not_eq, exp_pos. }
  split; [exact H1|]. split; [exact H2|].
  destruct (hot_score_orders_by_weight (fun x => x) Rpower) with
    (now := 3600500) (p := old_post 1)
    (q := Post.with_vote 4 (Post.voters (old_post 1)) (old_post 1))
    as (x & y & Hx & Hy & Hle & _).
  - done.
  - done.
  - intros b _. unfold Rpower. apply exp_pos.
  - reflexivity.
  - cbn. lia.
  - cbn. lia.
  - cbn. lia.
  - rewrite H1 in Hx. rewrite H2 in Hy.
    injection Hx as <-. injection Hy as <-.
    apply Hle. cbn. lia.
Defined.

(** ** Registering an agent *)

Lemma elem_of_insert_by_karma (x y : Agent.t) (l : list Agent.t) :
  y ∈ insert_by_karma x l <-> y = x \/ y ∈ l.
Proof.
  induction l as [|z l IH]; simpl.
  - rewrite list_elem_of_singleton, elem_of_nil. tauto.
  - destruct (Agent.karma x <? Agent.karma z).
    + rewrite !elem_of_cons, IH. tauto.
    + rewrite !elem_of_cons. tauto.
Qed.

Lemma elem_of_sort_by_karma (y : Agent.t) (l : list Agent.t) :
  y ∈ sort_by_karma l <-> y ∈ l.
Proof.
  unfold sort_by_karma. induction l as [|x l IH]; simpl; [done|].
  rewrite elem_of_insert_by_karma, IH, elem_of_cons. tauto.
Qed.

Lemma find_is_Some {A} (P : A -> bool) (l : list A) (x : A) :
  x ∈ l -> P x = true -> is_Some (find P l).
Proof.
  induction 1 as [x l|x y l _ IH]; simpl; intros HP.
  - rewrite HP. by eexists.
  - destruct (P y); [by eexists|by apply IH].
Qed.

Lemma existsb_elem_of {A} (P : A -> bool) (l : list A) (x : A) :
  x ∈ l -> P x = true -> existsb P l = true.
Proof.
  intros Hx HP. apply existsb_exists. exists x. split; [|done].
  by apply list_elem_of_In.
Qed.

(** A held name is seen by the check of [createUserAgent]. *)
Lemma holds_name_found (toLowerCase : list N -> list N) (X name handle : list N)
    (s : server) :
  holds_name toLowerCase X s ->
  toLowerCase name = toLowerCase X ->
  is_Some (find (fun a => same_name toLowerCase name a
                          || bool_decide (Agent.handle a = handle))
                (getAllAgentsWithRegistered s)).
Proof.
  intros (a & Hin & Ha) Hname.
  apply (find_is_Some _ _ a).
  - unfold getAllAgentsWithRegistered. apply elem_of_sort_by_karma.
    rewrite !elem_of_app. destruct Hin as [Hin|Hin]; [by left|].
    right. left. unfold UserAgents.values.
    destruct (UserAgents.isArray (userAgents s)); [done|].
    apply elem_of_app. by left.
  - unfold same_name. rewrite bool_decide_true; [done|congruence].
Qed.

(** A held name is seen by the check of the REST endpoint. *)
Lemma holds_name_taken (toLowerCase : list N -> list N) (X name : list N)
    (s : server) :
  holds_name toLowerCase X s ->
  toLowerCase name = toLowerCase X ->
  existsb (same_name toLowerCase name)
          (UserAgents.values (userAgents s) ++ agents s) = true.
Proof.
  intros (a & Hin & Ha) Hname.
  apply (existsb_elem_of _ _ a).
  - unfold UserAgents.values. rewrite !elem_of_app. tauto.
  - unfold same_name. rewrite bool_decide_true; [done|congruence].
Qed.

Lemma holds_name_frame (toLowerCase : list N -> list N) (X : list N)
    (s s' : server) :
  agents s' = agents s -> userAgents s' = userAgents s ->
  holds_name toLowerCase X s -> holds_name toLowerCase X s'.
Proof. unfold holds_name. intros -> ->. done. Qed.

(** Chains of steps that each touch only people-side collections. *)
Ltac people :=
  unfold saveDatabase, saveState, saveUserAgents, saveRegisteredAgents;
  repeat first
    [ apply people_only_refl
    | eapply people_only_trans;
      [|first [ apply people_only_emit
              | apply people_only_broadcast
              | apply people_only_send
              | apply people_only_addActivity
              | apply people_only_addNotification
              | apply people_only_unlockAchievement
              | apply people_only_getUser
              | apply people_only_set_users
              | apply people_only_set_achievements
              | apply people_only_set_notifications
              | apply people_only_set_activityFeed ]] ].

Section RegistrationFacts.

Variable toLowerCase : list N -> list N.
Variable toUpperCase : list N -> list N.
Variable fullPersonality :
  value -> list N -> value -> option (list (list N)) -> list N -> list N.

(** A registration over the socket that succeeds leaves the new agent, named
    as asked, among the indexed elements of [userAgents]. *)
Lemma createUserAgent_success (now : Z) (ca : list N) (wallet : value)
    (data : AgentData.t) (s0 s1 : server) (a : Agent.t) :
  createUserAgent toLowerCase toUpperCase now ca wallet data s0
  = (CreateSuccess a, s1) ->
  AgentData.name data = Str (Agent.name a)
  /\ a ∈ UserAgents.items (userAgents s1).
Proof.
  unfold createUserAgent.
  destruct wallet as [| |[|c r]]; try done.
  set (sg := getUser now (Str (c :: r)) s0).
  destruct (_ <? 50); [done|].
  destruct (bad_length (AgentData.name data) 2 20) eqn:Hname; [done|].
  destruct (bad_length (AgentData.ticker data) 2 6); [done|].
  destruct (too_short (AgentData.description data) 10); [done|].
  destruct (find _ (getAllAgentsWithRegistered sg)); [done|].
  fields.
  destruct (UserAgents.isArray (userAgents sg)); [|done].
  cbn [negb]. intros Heq. inversion Heq as [[Ha Hs]]. clear Heq.
  split.
  - simpl. destruct (AgentData.name data) as [| |[|n ns]]; done.
  - match goal with
    | |- _ ∈ UserAgents.items (userAgents (emit _ ?x)) =>
        assert (Hp : people_only
                       (set_userAgents
                          (UserAgents.push a (userAgents sg))
                          (set_nextAgentId (nextAgentId sg + 1) sg))
                       (emit (SetTimeoutIntroPost a 2000) x))
    end.
    { subst a. people. }
    apply people_only_fields in Hp as (_ & _ & _ & Hua & _).
    subst a. rewrite Hua. fields. simpl.
    apply elem_of_app. right. by apply list_elem_of_singleton.
Qed.

(** While a name is held, [createUserAgent] turns down every request for
    that name in any letter case: it hands back an error and the state is
    the one [getUser] left.  The error is the name error once the earlier
    checks are passed. *)
Lemma createUserAgent_held (now : Z) (ca : list N) (wallet : value)
    (data : AgentData.t) (X n2 : list N) (s : server) :
  holds_name toLowerCase X s ->
  AgentData.name data = Str n2 ->
  toLowerCase n2 = toLowerCase X ->
  exists error,
    createUserAgent toLowerCase toUpperCase now ca wallet data s
    = (CreateError error, getUser now wallet s)
    /\ (forall w,
          wallet = Str w -> w <> [] ->
          50 <= default 0 (User.karma <$> users (getUser now wallet s) !! w) ->
          bad_length (AgentData.name data) 2 20 = false ->
          bad_length (AgentData.ticker data) 2 6 = false ->
          too_short (AgentData.description data) 10 = false ->
          error = str "Agent name already exists").
Proof.
  intros Hheld Hname Hlow. unfold createUserAgent.
  destruct wallet as [| |[|c r]];
    try (eexists; split; [reflexivity|]; by intros w [= <-]).
  set (sg := getUser now (Str (c :: r)) s).
  destruct (_ <? 50) eqn:Hkarma.
  { eexists. split; [reflexivity|]. intros w [= <-] _ Hk.
    apply Z.ltb_lt in Hkarma. lia. }
  destruct (bad_length (AgentData.name data) 2 20) eqn:Hn.
  { eexists. split; [reflexivity|]. by intros. }
  destruct (bad_length (AgentData.ticker data) 2 6) eqn:Ht.
  { eexists. split; [reflexivity|]. by intros. }
  destruct (too_short (AgentData.description data) 10) eqn:Hd.
  { eexists. split; [reflexivity|]. by intros. }
  assert (Hfound : is_Some
            (find (fun a =>
                     same_name toLowerCase (or_str (AgentData.name data) []) a
                     || bool_decide
                          (Agent.handle a
                           = underscore_others
                               (toLowerCase
                                  (or_str (AgentData.name data) []))))
                  (getAllAgentsWithRegistered sg))).
  { apply (holds_name_found toLowerCase X).
    - destruct (people_only_fields s sg (people_only_getUser _ _ _))
        as (_ & _ & Hag & Hua & _).
      by apply (holds_name_frame toLowerCase X s).
    - rewrite Hname in *. destruct n2; [done|]. exact Hlow. }
  destruct Hfound as [a ->].
  eexists. split; [reflexivity|]. by intros.
Qed.

(** The REST endpoint answers 200 only at the end of its last branch, and
    by then an agent of the requested name has been pushed on [agents]. *)
Lemma user_agents_create_success (now : Z) (agentId clientIP : list N)
    (wallet name personality description : value)
    (topics : option (list (list N))) (s0 : server) (sm : AgentSummary.t) :
  let s1 := user_agents_create toLowerCase fullPersonality now agentId
              clientIP wallet name personality description topics s0 in
  last (trace s1) = Some (Respond 200 (ReplyDeployed sm)) ->
  name = Str (AgentSummary.name sm)
  /\ holds_name toLowerCase (AgentSummary.name sm) s1.
Proof.
  intros s1. subst s1. unfold user_agents_create.
  destruct (too_short wallet 32);
    [fields; by rewrite last_snoc|].
  destruct (bad_length name 2 20) eqn:Hname;
    [fields; by rewrite last_snoc|].
  destruct (limitsByWallet s0 !! or_str wallet []) as [[|i id]|] eqn:Hw;
    try (fields; by rewrite last_snoc).
  all: match goal with
       | |- context [if ?b then emit (Respond 429 _) _ else _] =>
           destruct b; [fields; by rewrite last_snoc|]
       end.
  all: match goal with
       | |- context [existsb _ (UserAgents.values (userAgents ?x) ++ _)] =>
           set (sr := x)
       end.
  all: destruct (existsb _ _); [fields; by rewrite last_snoc|].
  all: destruct (default (now, 0) _) as [timestamp count].
  all: rewrite broadcast_trace; fields; rewrite last_snoc.
  all: intros [= <-]; cbn [AgentSummary.name].
  all: split; [by destruct name as [| |[|n ns]]|].
  all: eexists; split; [left; fields; apply elem_of_app; right;
                        by apply list_elem_of_singleton|done].
Qed.

(** While a name is held, the REST endpoint turns down every request for
    that name in any letter case with a 4xx answer and adds no agent; the
    answer is the name error when the wallet has no agent yet and the
    address has not been seen. *)
Lemma user_agents_create_held (now : Z) (agentId clientIP : list N)
    (wallet personality description : value)
    (topics : option (list (list N))) (X n2 : list N) (s : server) :
  holds_name toLowerCase X s ->
  toLowerCase n2 = toLowerCase X ->
  let s2 := user_agents_create toLowerCase fullPersonality now agentId
              clientIP wallet (Str n2) personality description topics s in
  exists status body,
    trace s2 = trace s ++ [Respond status body]
    /\ (status = 400 \/ status = 429)
    /\ agents s2 = agents s
    /\ userAgents s2 = userAgents s
    /\ limitsByWallet s2 = limitsByWallet s
    /\ (too_short wallet 32 = false ->
        bad_length (Str n2) 2 20 = false ->
        limitsByWallet s !! or_str wallet [] = None ->
        limitsByIP s !! clientIP = None ->
        s2 = emit (Respond 400 (ReplyError (str "Agent name already taken")))
               s).
Proof.
  intros Hheld Hlow s2. subst s2. unfold user_agents_create.
  destruct (too_short wallet 32);
    [do 2 eexists; repeat split; eauto; done|].
  destruct (bad_length (Str n2) 2 20) eqn:Hname;
    [do 2 eexists; repeat split; eauto; done|].
  assert (Hn2 : or_str (Str n2) [] = n2) by (by destruct n2).
  rewrite Hn2.
  destruct (limitsByWallet s !! or_str wallet []) as [[|i id]|] eqn:Hw;
    try (do 2 eexists; repeat split; eauto; done).
  - destruct (limitsByIP s !! clientIP) as [[timestamp count]|] eqn:Hip.
    + destruct ((now - timestamp <? dayMs) && (1 <=? count));
        [do 2 eexists; repeat split; eauto; done|].
      destruct (dayMs <=? now - timestamp).
      * rewrite (holds_name_taken toLowerCase X n2) by done.
        do 2 eexists; repeat split; eauto; done.
      * rewrite (holds_name_taken toLowerCase X n2) by done.
        do 2 eexists; repeat split; eauto; done.
    + rewrite (holds_name_taken toLowerCase X n2) by done.
      do 2 eexists; repeat split; eauto; done.
  - destruct (limitsByIP s !! clientIP) as [[timestamp count]|] eqn:Hip.
    + destruct ((now - timestamp <? dayMs) && (1 <=? count));
        [do 2 eexists; repeat split; eauto; done|].
      destruct (dayMs <=? now - timestamp).
      * rewrite (holds_name_taken toLowerCase X n2) by done.
        do 2 eexists; repeat split; eauto; done.
      * rewrite (holds_name_taken toLowerCase X n2) by done.
        do 2 eexists; repeat split; eauto; done.
    + rewrite (holds_name_taken toLowerCase X n2) by done.
      do 2 eexists; repeat split; eauto; done.
Qed.

(** *** Names are never lost *)

Lemma names_kept_same (s s' : server) :
  agents s' = agents s -> userAgents s' = userAgents s -> names_kept s s'.
Proof. intros Ha Hu. unfold names_kept. rewrite Ha, Hu. eauto. Qed.

Lemma names_kept_trans (s1 s2 s3 : server) :
  names_kept s1 s2 -> names_kept s2 s3 -> names_kept s1 s3.
Proof.
  intros [Ha12 Hu12] [Ha23 Hu23]. split; [|by eauto].
  intros a Ha. destruct (Ha12 a Ha) as (a' & Ha' & Hn).
  destruct (Ha23 a' Ha') as (a'' & Ha'' & Hn'').
  exists a''. split; [done|congruence].
Qed.

Lemma names_kept_people (s s' : server) : people_only s s' -> names_kept s s'.
Proof.
  intros Hp. apply people_only_fields in Hp as (_ & _ & Ha & Hu & _).
  by apply names_kept_same.
Qed.

Lemma holds_name_kept (X : list N) (s s' : server) :
  names_kept s s' ->
  holds_name toLowerCase X s -> holds_name toLowerCase X s'.
Proof.
  intros [Ha Hu] (a & [Hin|Hin] & Hname).
  - destruct (Ha a Hin) as (a' & Hin' & Hn).
    exists a'. split; [by left|by rewrite Hn].
  - exists a. split; [right; by apply Hu|done].
Qed.

Lemma on_new_post_names now ws uw hive title content s :
  names_kept s (on_new_post now ws uw hive title content s).
Proof.
  apply names_kept_same; unfold on_new_post;
    destruct uw as [| |[|c r]]; try done;
    destruct (checkRateLimit _ _ _) as [[|waitTime] m]; try done;
    rewrite !broadcast_trace; unfold trackTopicInterest;
    by destruct hive as [| |[|d t]].
Qed.

Lemma on_vote_names ws uw postId direction s :
  names_kept s (on_vote ws uw postId direction s).
Proof.
  apply names_kept_same; unfold on_vote;
    destruct uw as [| |[|c r]]; try done;
    destruct (find _ (posts s)) as [p|]; try done;
    cbn zeta; rewrite broadcast_trace;
    by destruct (Post.wallet p) as [| |[|d t]].
Qed.

Lemma on_delete_post_names uw postId s :
  names_kept s (on_delete_post uw postId s).
Proof.
  apply names_kept_same; unfold on_delete_post;
    destruct (findIndex _ (posts s)) as [idx|]; try done;
    destruct (posts s !! idx) as [p|]; try done;
    destruct (strict_eq _ _); try done;
    by rewrite !broadcast_trace.
Qed.

Lemma agents_vote_names now api_key post_id direction s :
  names_kept s (agents_vote now api_key post_id direction s).
Proof.
  apply names_kept_same; unfold agents_vote;
    repeat case_match; try done; by rewrite broadcast_trace.
Qed.

Lemma createUserAgent_names now ca wallet data s :
  names_kept s
    (createUserAgent toLowerCase toUpperCase now ca wallet data s).2.
Proof.
  unfold createUserAgent.
  destruct wallet as [| |[|c r]]; try by apply names_kept_same.
  set (sg := getUser now (Str (c :: r)) s).
  assert (Hg : names_kept s sg)
    by apply names_kept_people, people_only_getUser.
  repeat (match goal with
          | |- context [if ?b then (CreateError _, sg) else _] => destruct b
          end; [exact Hg|]).
  fields. destruct (UserAgents.isArray (userAgents sg));
    cbn [negb snd]; [|eapply names_kept_trans; [exact Hg|];
                       by apply names_kept_same].
  eapply names_kept_trans; [exact Hg|].
  match goal with
  | |- names_kept sg (emit ?e ?x) =>
      match x with
      | context [set_userAgents ?u ?base] =>
          assert (Hp : people_only (set_userAgents u base) (emit e x))
            by people
      end
  end.
  apply people_only_fields in Hp as (_ & _ & Ha & Hu & _).
  split.
  - intros a Hin. exists a. by rewrite Ha.
  - intros a Hin. rewrite Hu. fields. simpl.
    apply elem_of_app. by left.
Qed.

Lemma on_create_agent_names now ca ws uw data s :
  names_kept s (on_create_agent toLowerCase toUpperCase now ca ws uw data s).
Proof.
  unfold on_create_agent.
  destruct uw as [| |[|c r]]; try by apply names_kept_same.
  pose proof (createUserAgent_names now ca (Str (c :: r)) data s) as Hk.
  destruct (createUserAgent _ _ _ _ _ _ s) as [[error|agent|] s1];
    simpl in Hk; [| |exact Hk];
    (eapply names_kept_trans; [exact Hk|by apply names_kept_same]).
Qed.

Lemma generateKrabPost_names now rv i hive g s :
  names_kept s (generateKrabPost now rv i hive g s).
Proof.
  unfold generateKrabPost.
  destruct (agents s !! i) as [agent|] eqn:Hi; [|by apply names_kept_same].
  destruct g as [txt|message]; [|by apply names_kept_same].
  destruct (match_title txt); [|by apply names_kept_same].
  destruct (match_content txt); [|by apply names_kept_same].
  cbn zeta. rewrite !broadcast_trace. fields. split; [|done].
  intros a Hin. fields.
  apply list_elem_of_lookup in Hin as [j Hj].
  destruct (decide (i = j)) as [->|Hne].
  - exists (Agent.record_post hive agent). split.
    + apply list_elem_of_lookup. exists j.
      apply list_lookup_insert_eq. by eapply lookup_lt_Some.
    + rewrite Hi in Hj. by inversion Hj.
  - exists a. split; [|done].
    apply list_elem_of_lookup. exists j. by rewrite list_lookup_insert_ne.
Qed.

Lemma user_agents_create_names now agentId clientIP wallet name personality
    description topics s :
  names_kept s
    (user_agents_create toLowerCase fullPersonality now agentId clientIP
       wallet name personality description topics s).
Proof.
  unfold user_agents_create.
  destruct (too_short wallet 32); [by apply names_kept_same|].
  destruct (bad_length name 2 20); [by apply names_kept_same|].
  destruct (limitsByWallet s !! or_str wallet []) as [[|i id]|];
    try by apply names_kept_same.
  all: match goal with
       | |- context [if ?b then emit (Respond 429 _) _ else _] =>
           destruct b; [by apply names_kept_same|]
       end.
  all: match goal with
       | |- context [existsb ?f (UserAgents.values (userAgents ?x) ++ _)] =>
           destruct (existsb f (UserAgents.values (userAgents x) ++ agents x));
           [by destruct (limitsByIP s !! clientIP) as [[? ?]|];
               repeat case_match; apply names_kept_same|]
       end.
  all: destruct (default (now, 0) _) as [timestamp count].
  all: rewrite broadcast_trace; fields.
  all: split; [intros a Hin; exists a; split; [|done];
               apply elem_of_app; left;
               by destruct (limitsByIP s !! clientIP) as [[? ?]|];
                  repeat case_match
              |intros a Hin;
               by destruct (limitsByIP s !! clientIP) as [[? ?]|];
                  repeat case_match].
Qed.

(** A held name stays held along every run. *)
Lemma holds_name_run (X : list N) (s s' : server) :
  rtc (step toLowerCase toUpperCase fullPersonality) s s' ->
  holds_name toLowerCase X s -> holds_name toLowerCase X s'.
Proof.
  induction 1 as [|s1 s2 s3 Hstep _ IH]; [done|].
  intros Hheld. apply IH. apply (holds_name_kept X s1); [|done].
  destruct Hstep.
  - unfold on_message.
    eapply names_kept_trans;
      [apply names_kept_people, people_only_getUser|].
    destruct msg.
    + apply on_new_post_names.
    + apply on_vote_names.
    + apply on_delete_post_names.
    + apply on_create_agent_names.
  - apply generateKrabPost_names.
  - apply agents_vote_names.
  - apply user_agents_create_names.
Qed.

End RegistrationFacts.

(** C6, as the code has it.  Once an agent named [X] has been registered,
    over the socket or through the REST endpoint, then in every state the
    server reaches afterwards a request for a name equal to [X] up to
    letter case registers nothing, whichever path it takes.
    [createUserAgent] hands back an error and leaves the state that its
    own call to [getUser] produced, which touches the sender's user record
    and nothing on the agents' side; the error is the name error once the
    wallet is connected, has 50 karma and the name, ticker and description
    pass their length checks.  The REST endpoint answers 400 or 429 and
    leaves the agent collections as they were; when the wallet has no
    agent yet and the address is new, the answer is 400
    [Agent name already taken] and nothing at all is changed. *)
Theorem second_registration_turned_down
    (toLowerCase toUpperCase : list N -> list N)
    (fullPersonality :
       value -> list N -> value -> option (list (list N)) -> list N -> list N)
    (s1 : server) (X : list N) :
  (exists now ca wallet data s0 a,
      createUserAgent toLowerCase toUpperCase now ca wallet data s0
      = (CreateSuccess a, s1)
      /\ Agent.name a = X)
  \/ (exists now agentId clientIP wallet name personality description topics
             s0 sm,
        s1 = user_agents_create toLowerCase fullPersonality now agentId
               clientIP wallet name personality description topics s0
        /\ last (trace s1) = Some (Respond 200 (ReplyDeployed sm))
        /\ AgentSummary.name sm = X) ->
  forall s, rtc (step toLowerCase toUpperCase fullPersonality) s1 s ->
  forall n2, toLowerCase n2 = toLowerCase X ->
    (forall now ca wallet data,
        AgentData.name data = Str n2 ->
        exists error,
          createUserAgent toLowerCase toUpperCase now ca wallet data s
          = (CreateError error, getUser now wallet s)
          /\ people_only s (getUser now wallet s)
          /\ (forall w,
                wallet = Str w -> w <> [] ->
                50 <= default 0
                        (User.karma <$> users (getUser now wallet s) !! w) ->
                bad_length (AgentData.name data) 2 20 = false ->
                bad_length (AgentData.ticker data) 2 6 = false ->
                too_short (AgentData.description data) 10 = false ->
                error = str "Agent name already exists"))
    /\ (forall now agentId clientIP wallet personality description topics,
          let s2 := user_agents_create toLowerCase fullPersonality now agentId
                      clientIP wallet (Str n2) personality description topics
                      s in
          exists status body,
            trace s2 = trace s ++ [Respond status body]
            /\ (status = 400 \/ status = 429)
            /\ agents s2 = agents s
            /\ userAgents s2 = userAgents s
            /\ limitsByWallet s2 = limitsByWallet s
            /\ (too_short wallet 32 = false ->
                bad_length (Str n2) 2 20 = false ->
                limitsByWallet s !! or_str wallet [] = None ->
                limitsByIP s !! clientIP = None ->
                s2 = emit (Respond 400
                             (ReplyError (str "Agent name already taken")))
                       s)).
Proof.
  intros Hfirst s Hrun n2 Hlow.
  assert (Hheld : holds_name toLowerCase X s).
  { apply (holds_name_run toLowerCase toUpperCase fullPersonality X s1 s Hrun).
    destruct Hfirst
      as [(now & ca & wallet & data & s0 & a & Hok & Hname)
         |(now & agentId & clientIP & wallet & name & personality
           & description & topics & s0 & sm & -> & Hlast & Hname)].
    - apply createUserAgent_success in Hok as [_ Hin].
      exists a. split; [by right|by rewrite Hname].
    - apply user_agents_create_success in Hlast as [_ Hheld].
      by rewrite Hname in Hheld. }
  split.
  - intros now ca wallet data Hdata.
    destruct (createUserAgent_held toLowerCase toUpperCase now ca wallet data
                X n2 s Hheld Hdata Hlow) as (error & Heq & Hguard).
    exists error. split; [exact Heq|]. split; [|exact Hguard].
    apply people_only_getUser.
  - intros now agentId clientIP wallet personality description topics.
    by apply (user_agents_create_held toLowerCase fullPersonality now agentId
                clientIP wallet personality description topics X n2 s).
Qed.

(** A vote on a missing post, between the registration and the second
    request. *)
Lemma second_registration_turned_down_witness :
  let later := on_message lower upper 1500 [] 7 (MsgVote 42 1) scout_deployed in
  (createUserAgent lower upper 2000 [] (Str (str "RICH01"))
     (scout_data "SCOUT") later).1
  = CreateError (str "Agent name already exists")
  /\ userAgents
       (createUserAgent lower upper 2000 [] (Str (str "RICH01"))
          (scout_data "SCOUT") later).2
     = userAgents later
  /\ user_agents_create lower no_persona 2000 (str "user_def456")
       (str "10.0.0.2") (Str (long_wallet "2")) (Str (str "scout")) Undefined
       Undefined None scout_deployed_by_rest
     = emit (Respond 400 (ReplyError (str "Agent name already taken")))
         scout_deployed_by_rest.
Proof.
  intros later.
  assert (Hfirst : exists now ca wallet data s0 a,
             createUserAgent lower upper now ca wallet data s0
             = (CreateSuccess a, scout_deployed)
             /\ Agent.name a = str "Scout").
  { exists 1000, [], (Str (str "RICH01")), (scout_data "Scout"), with_members.
    eexists. split; [vm_compute; reflexivity|reflexivity]. }
  assert (Hrun : rtc (step lower upper no_persona) scout_deployed later)
    by apply rtc_once, step_message.
  split; [|split].
  - destruct (second_registration_turned_down lower upper no_persona
                scout_deployed (str "Scout") (or_introl Hfirst) later Hrun
                (str "SCOUT") eq_refl) as [Hsocket _].
    destruct (Hsocket 2000 [] (Str (str "RICH01")) (scout_data "SCOUT"))
      as (error & Heq & _ & Hguard); [reflexivity|].
    rewrite Heq. cbn [fst]. f_equal.
    apply (Hguard (str "RICH01")); try reflexivity.
    + discriminate.
    + vm_compute. discriminate.
  - destruct (second_registration_turned_down lower upper no_persona
                scout_deployed (str "Scout") (or_introl Hfirst) later Hrun
                (str "SCOUT") eq_refl) as [Hsocket _].
    destruct (Hsocket 2000 [] (Str (str "RICH01")) (scout_data "SCOUT"))
      as (error & Heq & Hpeople & _); [reflexivity|].
    rewrite Heq. cbn [snd].
    by apply people_only_fields in Hpeople as (_ & _ & _ & Hua & _).
  - destruct (second_registration_turned_down lower upper no_persona
                scout_deployed_by_rest (str "Scout"))
      with (s := scout_deployed_by_rest) (n2 := str "scout") as [_ Hrest].
    + right. exists 1000, (str "user_abc123"), (str "10.0.0.1"),
        (Str (long_wallet "1")), (Str (str "Scout")), Undefined, Undefined,
        None, with_members.
      eexists. split; [reflexivity|]. split; [vm_compute; reflexivity|].
      reflexivity.
    + apply rtc_refl.
    + reflexivity.
    + destruct (Hrest 2000 (str "user_def456") (str "10.0.0.2")
                  (Str (long_wallet "2")) Undefined Undefined None)
        as (status & body & _ & _ & _ & _ & _ & Hguard).
      apply Hguard; vm_compute; reflexivity.
Defined.

(** C6 as the specification words it fails inside [createUserAgent]:
    after ["Scout"] has been registered, wallet ["POOR01"], which has 3
    karma, asks for ["SCOUT"].  The request is turned down, but with the
    karma error and not the name error, and [getUser] has already written
    the clock reading into the sender's [lastSeen]. *)
Lemma low_karma_sender_gets_karma_error :
  let second := createUserAgent lower upper 2000 [] (Str (str "POOR01"))
                  (scout_data "SCOUT") scout_deployed in
  holds_name lower (str "SCOUT") scout_deployed
  /\ second.1 = CreateError (str "Need 50+ karma to create agents")
  /\ second.1 <> CreateError (str "Agent name already exists")
  /\ User.lastSeen <$> users scout_deployed !! str "POOR01" = Some 100
  /\ User.lastSeen <$> users second.2 !! str "POOR01" = Some 2000
  /\ users second.2 <> users scout_deployed.
Proof.
  intros second.
  assert (H1 : second.1 = CreateError (str "Need 50+ karma to create agents"))
    by (vm_compute; reflexivity).
  assert (H2 : User.lastSeen <$> users scout_deployed !! str "POOR01"
               = Some 100) by (vm_compute; reflexivity).
  assert (H3 : User.lastSeen <$> users second.2 !! str "POOR01" = Some 2000)
    by (vm_compute; reflexivity).
  split; [|split; [exact H1|split; [|split; [exact H2|split; [exact H3|]]]]].
  - eexists. split; [right; vm_compute; apply list_elem_of_singleton;
                     reflexivity|]. reflexivity.
  - rewrite H1. discriminate.
  - intros Heq. rewrite Heq, H2 in H3. discriminate H3.
Qed.

(** * Further results *)

(** ** Achievements *)

(** X1.  An achievement is granted to a wallet once.  Asking
    [unlockAchievement] again for the same wallet and achievement, at any
    later time, leaves the whole state as the first call left it: no
    second entry, no karma or XP, no notification, no activity line and no
    write. *)
Theorem unlockAchievement_once (now later : Z) (wallet aid : list N)
    (s : server) :
  unlockAchievement later wallet aid (unlockAchievement now wallet aid s)
  = unlockAchievement now wallet aid s.
Proof.
  assert (Hheld : forall s0 l,
            achievements s0 !! wallet = Some l ->
            (existsb (fun a => bool_decide (Achievement.id a = aid)) l = true
             \/ find (fun d => bool_decide (AchDef.id d = aid)) ACHIEVEMENTS
                = None) ->
            unlockAchievement later wallet aid s0 = s0).
  { intros s0 l Hl Hor. unfold unlockAchievement. rewrite Hl. cbn [from_option Datatypes.id].
    rewrite insert_id by done. rewrite set_achievements_same.
    destruct Hor as [-> | ->]; [done|]. by destruct (existsb _ _). }
  destruct (existsb (fun a => bool_decide (Achievement.id a = aid))
              (default [] (achievements s !! wallet))) eqn:Hex.
  - unfold unlockAchievement at 2 3. rewrite Hex.
    eapply Hheld; [fields; apply lookup_insert_eq|by left].
  - destruct (find (fun d => bool_decide (AchDef.id d = aid)) ACHIEVEMENTS)
      as [achDef|] eqn:Hdef.
    + destruct (unlockAchievement_fresh now wallet aid achDef s Hex Hdef)
        as (Hach & _ & _).
      eapply Hheld; [rewrite Hach; apply lookup_insert_eq|].
      left. rewrite existsb_app. cbn. rewrite bool_decide_true by done.
      apply orb_true_r.
    + unfold unlockAchievement at 2 3. rewrite Hex, Hdef.
      eapply Hheld; [fields; apply lookup_insert_eq|by right].
Qed.

Lemma unlockAchievement_once_witness :
  User.karma
    <$> users (unlockAchievement 2000 (str "RICH01") (str "deploy_agent")
                 (unlockAchievement 1000 (str "RICH01") (str "deploy_agent")
                    with_members)) !! str "RICH01"
  = Some 110.
Proof.
  rewrite (unlockAchievement_once 1000 2000 (str "RICH01")
             (str "deploy_agent") with_members).
  vm_compute. reflexivity.
Defined.

(** ** User records *)

(** After [getUser] the wallet has a record. *)
Lemma getUser_registered (now : Z) (w : list N) (s : server) :
  w <> [] -> is_Some (users (getUser now (Str w) s) !! w).
Proof.
  intros Hne. unfold getUser. destruct w as [|c r]; [done|].
  destruct (users s !! (c :: r)) as [u0|] eqn:Hu.
  - fields. rewrite lookup_insert_eq. by eexists.
  - match goal with
    | |- context [saveDatabase ?x] => set (grown := x)
    end.
    assert (Hg : exists f,
               users grown
               = alter f (c :: r)
                   (<[c :: r := {| User.wallet := c :: r;
                                   User.username := None; User.karma := 0;
                                   User.joinedAt := now; User.postCount := 0;
                                   User.commentCount := 0;
                                   User.lastSeen := now;
                                   User.agentsCreated := [];
                                   User.xp := 0 |}]> (users s))).
    { subst grown. destruct (_ <=? _)%nat.
      - match goal with
        | |- context [unlockAchievement ?n ?x ?a ?s0] =>
            destruct (unlockAchievement_users n x a s0) as [f ->]
        end.
        by exists f.
      - exists (fun u => u). fields. by rewrite alter_id. }
    destruct Hg as [f Hg]. fields. rewrite Hg.
    rewrite lookup_alter_eq, lookup_insert_eq. by eexists.
Qed.

(** X2.  [getUser] registers a wallet once.  For a wallet that is a
    non-empty string and not one of the names a plain object inherits, a
    call leaves the records of all other wallets alone; for a wallet that
    has a record it only writes the clock reading into [lastSeen]; and
    whatever the state before, the wallet has a record afterwards, so a
    further call at any later time takes that same short path: it rewrites
    [lastSeen], grants nothing and writes nothing to a socket or to
    disk. *)
Theorem getUser_registers_once (now later : Z) (w : list N) (s : server) :
  w <> [] -> plain_key w = true ->
  let s1 := getUser now (Str w) s in
  let s2 := getUser later (Str w) s1 in
  (forall w', w' <> w -> users s1 !! w' = users s !! w')
  /\ (forall u0, users s !! w = Some u0 ->
        users s1 !! w = Some (User.with_lastSeen now u0)
        /\ emitted s s1 = [])
  /\ (exists u,
        users s1 !! w = Some u
        /\ s2 = set_users (<[w := User.with_lastSeen later u]> (users s1)) s1)
  /\ emitted s1 s2 = []
  /\ achievements s2 = achievements s1
  /\ notifications s2 = notifications s1.
Proof.
  intros Hne _ s1 s2.
  assert (Hsome : exists u, users s1 !! w = Some u)
    by (by apply getUser_registered).
  destruct Hsome as [u Hu1].
  assert (Hs2 : s2 = set_users (<[w := User.with_lastSeen later u]> (users s1))
                       s1).
  { subst s2. unfold getUser at 1. destruct w as [|c r]; [done|].
    by rewrite Hu1. }
  split; [|split; [|split; [|split; [|split]]]].
  - intros w' Hw'. by apply getUser_others.
  - intros u0 Hu0. subst s1 s2. unfold getUser.
    destruct w as [|c r]; [done|]. rewrite Hu0. fields.
    split; [apply lookup_insert_eq|].
    apply emitted_app. by rewrite app_nil_r.
  - by exists u.
  - rewrite Hs2. apply emitted_app. fields. by rewrite app_nil_r.
  - by rewrite Hs2.
  - by rewrite Hs2.
Qed.

Lemma getUser_registers_once_witness :
  users (getUser 1000 (Str (str "ABC123")) two_sessions) !! str "XYZ789"
  = None
  /\ emitted (getUser 1000 (Str (str "ABC123")) two_sessions)
       (getUser 2000 (Str (str "ABC123"))
          (getUser 1000 (Str (str "ABC123")) two_sessions)) = [].
Proof.
  destruct (getUser_registers_once 1000 2000 (str "ABC123") two_sessions)
    as (Hother & _ & _ & Hquiet & _); [discriminate|reflexivity|].
  split; [|exact Hquiet].
  rewrite Hother by discriminate. reflexivity.
Defined.

(** ** Notifications *)

(** X3.  The inbox of a wallet that is not one of the names a plain
    object inherits.  [addNotification] changes the notifications of no
    other wallet; it ignores the empty wallet and ['SNAI'] altogether; for
    any other wallet the new notification becomes the first of the list,
    the earlier ones follow in their order, and the list never holds more
    than 50; and the only sockets written to are open sessions of that
    wallet. *)
Theorem addNotification_inbox (now : Z) (wallet type content : list N)
    (relatedId : option Z) (s : server) :
  plain_key wallet = true ->
  let notif :=
    {| Notification.id := now; Notification.type := type;
       Notification.content := content; Notification.relatedId := relatedId;
       Notification.read := false; Notification.timestamp := now |} in
  let s' := addNotification now wallet type content relatedId s in
  (forall w', w' <> wallet -> notifications s' !! w' = notifications s !! w')
  /\ (wallet = [] \/ wallet = str "SNAI" -> s' = s)
  /\ (wallet <> [] -> wallet <> str "SNAI" ->
      exists l,
        notifications s' !! wallet = Some l
        /\ (length l <= 50)%nat
        /\ l = notif :: take 49 (default [] (notifications s !! wallet)))
  /\ (forall ws json, Send ws json ∈ emitted s s' ->
        json = EvNotification notif
        /\ exists c, c ∈ clients s /\ Session.ws c = ws
                     /\ Session.wallet c = wallet
                     /\ Session.readyState c = OPEN).
Proof.
  intros _ notif s'.
  assert (Hskip : wallet = [] \/ wallet = str "SNAI" -> s' = s).
  { intros [-> | ->]; reflexivity. }
  destruct (decide (wallet = [])) as [He|Hne];
    [|destruct (decide (wallet = str "SNAI")) as [He|Hsnai]].
  1, 2: rewrite (Hskip (ltac:(auto)));
        (split; [done|]); (split; [done|]); (split; [done|]);
        intros ws json Hin; unfold emitted in Hin;
        rewrite drop_all in Hin; by apply elem_of_nil in Hin.
  subst s'. rewrite addNotification_counted by done. fold notif.
  split; [|split; [|split]].
  - intros w' Hw'. fields. by rewrite lookup_insert_ne.
  - intros [?|?]; done.
  - intros _ _. eexists. fields. split; [apply lookup_insert_eq|].
    split; [rewrite length_take; lia|done].
  - intros ws json. rewrite emitted_set_trace.
    rewrite list_elem_of_In, <- flat_map_concat_map, in_flat_map.
    intros (c & Hc & Hin). apply list_elem_of_In in Hc.
    destruct (bool_decide (Session.wallet c = wallet)) eqn:Hw;
      destruct (bool_decide (Session.readyState c = OPEN)) eqn:Ho;
      cbn [andb] in Hin; try by destruct Hin.
    apply bool_decide_eq_true in Hw, Ho.
    destruct Hin as [Hin|[Hin|[]]]; [discriminate|].
    injection Hin as <- <-. split; [done|]. by exists c.
Qed.

Lemma addNotification_inbox_witness :
  emitted two_sessions
    (addNotification 1000 (str "ABC123") (str "follow") (str "gm") None
       two_sessions)
  = [Stringify
       (EvNotification
          {| Notification.id := 1000; Notification.type := str "follow";
             Notification.content := str "gm"; Notification.relatedId := None;
             Notification.read := false; Notification.timestamp := 1000 |});
     Send 7
       (EvNotification
          {| Notification.id := 1000; Notification.type := str "follow";
             Notification.content := str "gm"; Notification.relatedId := None;
             Notification.read := false; Notification.timestamp := 1000 |})]
  /\ exists l,
       notifications
         (addNotification 1000 (str "ABC123") (str "follow") (str "gm") None
            two_sessions) !! str "ABC123" = Some l
       /\ (length l <= 50)%nat.
Proof.
  split; [vm_compute; reflexivity|].
  pose proof (addNotification_inbox 1000 (str "ABC123") (str "follow")
                (str "gm") None two_sessions eq_refl) as Hrun.
  cbn zeta in Hrun. destruct Hrun as (_ & _ & Hin & _).
  destruct Hin as (l & Hl & Hlen & _); [discriminate..|].
  exists l. split; [exact Hl|exact Hlen].
Defined.

(** ** The bookkeeping of the rate limiter *)

(** X4.  The wait hint of a refusal.  When no stored timestamp lies in the
    future, every refusal of [checkRateLimit] carries a wait of at least 1
    and at most 60 seconds. *)
Theorem rate_limit_wait_hint (now waitTime : Z) (w : value)
    (m m' : gmap (list N) (list Z)) :
  (forall k l, m !! k = Some l -> Forall (fun t => t <= now) l) ->
  checkRateLimit now w m = (Limited waitTime, m') ->
  1 <= waitTime <= 60.
Proof.
  intros Hpast. unfold checkRateLimit.
  destruct w as [| |k]; [done|done|].
  destruct (_ || _); [done|]. cbn zeta.
  set (ts := filter _ _).
  destruct (RATE_LIMIT <=? length ts)%nat eqn:Hfull; [|done].
  intros [= <- _]. apply Nat.leb_le in Hfull. unfold RATE_LIMIT in Hfull.
  destruct ts as [|t0 rest] eqn:Hts; [simpl in Hfull; lia|].
  assert (Hin : t0 ∈ ts) by (rewrite Hts; apply list_elem_of_here).
  subst ts. rewrite Hts in Hin. rewrite <- Hts in Hin.
  apply list_elem_of_filter in Hin as [Hwin Hold].
  assert (t0 <= now).
  { destruct (m !! k) as [l|] eqn:Hl; [|by apply elem_of_nil in Hold].
    pose proof (Hpast k l Hl) as Hall.
    rewrite Forall_forall in Hall. by apply Hall. }
  cbn [hd]. unfold ceil_div_1000, RATE_WINDOW in *.
  assert (-60 <= - (60000 - (now - t0)) / 1000)
    by (apply Z.div_le_lower_bound; lia).
  assert (- (60000 - (now - t0)) / 1000 < 0)
    by (apply Z.div_lt_upper_bound; lia).
  lia.
Qed.

Lemma rate_limit_wait_hint_witness :
  checkRateLimit 5000 (Str (str "ABC123"))
    {[ str "ABC123" := [1000; 2000; 3000; 4000; 5000] ]}
  = (Limited 56, {[ str "ABC123" := [1000; 2000; 3000; 4000; 5000] ]})
  /\ 1 <= 56 <= 60.
Proof.
  split; [vm_compute; reflexivity|].
  apply (rate_limit_wait_hint 5000 56 (Str (str "ABC123"))
           {[ str "ABC123" := [1000; 2000; 3000; 4000; 5000] ]}
           {[ str "ABC123" := [1000; 2000; 3000; 4000; 5000] ]}).
  - intros k l Hl. apply lookup_singleton_Some in Hl as [_ <-].
    repeat constructor; lia.
  - vm_compute. reflexivity.
Defined.

(** X5.  What the rate limiter stores.  A check touches the entry of the
    checked wallet only; a refused check records nothing (what is stored
    afterwards is a sublist of what was stored, and the clock reading is
    added only by an allowed check); and if no wallet has more than five
    timestamps stored, none has after the check. *)
Theorem rate_limit_bookkeeping (now : Z) (w : value)
    (m : gmap (list N) (list Z)) :
  let r := (checkRateLimit now w m).1 in
  let m' := (checkRateLimit now w m).2 in
  (forall k, w <> Str k -> m' !! k = m !! k)
  /\ (forall k waitTime, w = Str k -> r = Limited waitTime ->
        exists l', m' !! k = Some l'
                   /\ l' `sublist_of` default [] (m !! k)
                   /\ (5 <= length l')%nat)
  /\ (map_Forall (fun _ l => (length l <= 5)%nat) m ->
      map_Forall (fun _ l => (length l <= 5)%nat) m').
Proof.
  intros r m'. subst r m'. unfold checkRateLimit.
  destruct w as [| |k]; [by split; [|split]..|].
  destruct (_ || _); [by split; [|split]|]. cbn zeta.
  set (ts := filter _ _).
  destruct (RATE_LIMIT <=? length ts)%nat eqn:Hfull; cbn [fst snd].
  - apply Nat.leb_le in Hfull. unfold RATE_LIMIT in Hfull.
    split; [|split].
    + intros k' Hk'. rewrite lookup_insert_ne; [done|congruence].
    + intros k' waitTime [= <-] _. exists ts.
      split; [apply lookup_insert_eq|]. split; [apply sublist_filter|done].
    + intros Hall. apply map_Forall_insert_2; [|done].
      pose proof (length_filter (fun t => now - t < RATE_WINDOW)
                    (default [] (m !! k))) as Hlen.
      fold ts in Hlen.
      assert (Hb : (length (default [] (m !! k)) <= 5)%nat).
      { destruct (m !! k) as [l|] eqn:Hl; [exact (Hall k l Hl)|simpl; lia]. }
      lia.
  - apply Nat.leb_gt in Hfull. unfold RATE_LIMIT in Hfull.
    split; [|split].
    + intros k' Hk'. rewrite lookup_insert_ne; [done|congruence].
    + intros k' waitTime _ [=].
    + intros Hall. apply map_Forall_insert_2; [|done].
      rewrite length_app. simpl. lia.
Qed.

Lemma rate_limit_bookkeeping_witness :
  map_Forall (fun _ l => (length l <= 5)%nat)
    (checkRateLimit 5000 (Str (str "ABC123"))
       {[ str "ABC123" := [1000; 2000; 3000; 4000] ]}).2.
Proof.
  apply (rate_limit_bookkeeping 5000 (Str (str "ABC123"))
           {[ str "ABC123" := [1000; 2000; 3000; 4000] ]}).
  intros k l Hl. apply lookup_singleton_Some in Hl as [_ <-]. simpl. lia.
Defined.

(** ** The post list along a run *)

Lemma recorded_sum_insert (k : list N) (v : Z) (m : gmap (list N) Z) :
  map_fold (fun _ v acc => v + acc) 0 (<[k := v]> m)
  = map_fold (fun _ v acc => v + acc) 0 m - default 0 (m !! k) + v.
Proof.
  destruct (m !! k) as [old|] eqn:Hk.
  - rewrite <- insert_delete_eq.
    rewrite map_fold_insert_L;
      [|intros; lia|apply lookup_delete_eq].
    rewrite (map_fold_delete_L _ _ k old m); [|intros; lia|done].
    simpl. lia.
  - rewrite map_fold_insert_L; [|intros; lia|done]. simpl. lia.
Qed.

Lemma revoted_refl (p : Post.t) : revoted p p.
Proof. split; [by destruct p|done]. Qed.

Lemma revoted_cast_vote (w : list N) (d : Z) (p : Post.t) :
  revoted p (cast_vote w d p).
Proof.
  split; [done|].
  unfold head_start, recorded_sum, cast_vote, current_vote. simpl.
  rewrite recorded_sum_insert. lia.
Qed.

Lemma revoted_agent_cast_vote (k : list N) (d : Z) (p : Post.t) :
  revoted p (agent_cast_vote k d p).
Proof.
  unfold agent_cast_vote. case_bool_decide; [apply revoted_refl|].
  split; [done|].
  unfold head_start, recorded_sum, current_vote. simpl.
  rewrite recorded_sum_insert. lia.
Qed.

Lemma Forall2_revoted_refl (l : list Post.t) : Forall2 revoted l l.
Proof. induction l; constructor; auto using revoted_refl. Qed.

Lemma Forall2_revoted_update_first (P : Post.t -> bool) (f : Post.t -> Post.t)
    (l : list Post.t) :
  (forall p, revoted p (f p)) ->
  Forall2 revoted l (update_first P f l).
Proof.
  intros Hf. induction l as [|p l IH]; simpl; [constructor|].
  destruct (P p); constructor; auto using revoted_refl, Forall2_revoted_refl.
Qed.

Lemma Forall2_revoted_insert (i : nat) (p p' : Post.t) (l : list Post.t) :
  l !! i = Some p -> revoted p p' ->
  Forall2 revoted l (<[i := p']> l).
Proof.
  revert i. induction l as [|q l IH]; intros [|i] Hi Hr; simpl in *;
    try done.
  - injection Hi as ->. constructor; auto using Forall2_revoted_refl.
  - constructor; [apply revoted_refl|by apply IH].
Qed.

Lemma posts_step_same (s s' : server) :
  posts s' = posts s -> nextPostId s' = nextPostId s -> posts_step s s'.
Proof.
  intros Hp Hn. left. split; [done|]. rewrite Hp.
  apply Forall2_revoted_refl.
Qed.

Lemma posts_step_people (s s' : server) : people_only s s' -> posts_step s s'.
Proof.
  intros Hp. apply people_only_fields in Hp as (Hposts & Hnext & _).
  by apply posts_step_same.
Qed.

Lemma posts_step_after (s s1 s2 : server) :
  posts s1 = posts s -> nextPostId s1 = nextPostId s ->
  posts_step s1 s2 -> posts_step s s2.
Proof. unfold posts_step. by intros -> ->. Qed.

Lemma posts_step_before (s s1 s2 : server) :
  posts_step s s1 ->
  posts s2 = posts s1 -> nextPostId s2 = nextPostId s1 ->
  posts_step s s2.
Proof. unfold posts_step. by intros H -> ->. Qed.

Lemma recorded_sum_singleton (w : list N) (v : Z) :
  map_fold (fun _ v acc => v + acc) 0 ({[ w := v ]} : gmap (list N) Z) = v.
Proof.
  rewrite <- insert_empty, recorded_sum_insert, map_fold_empty.
  rewrite lookup_empty. simpl. lia.
Qed.

Lemma on_new_post_posts_step now ws uw hive title content s :
  posts_step s (on_new_post now ws uw hive title content s).
Proof.
  destruct uw as [| |[|c r]]; try by apply posts_step_same.
  destruct (checkRateLimit now (Str (c :: r)) (rateLimitMap s))
    as [[|waitTime] m] eqn:Hcheck.
  - destruct (on_new_post_allowed now ws (c :: r) hive title content m s)
      as (Hposts & Hnext & _); [done|done|].
    right. right. split; [done|]. eexists. split; [exact Hposts|].
    split; [done|]. intros _.
    unfold head_start, recorded_sum. simpl.
    rewrite recorded_sum_singleton. lia.
  - rewrite (on_new_post_limited now waitTime ws (c :: r) hive title content m)
      by done.
    by apply posts_step_same.
Qed.

Lemma on_vote_posts_step ws uw postId direction s :
  posts_step s (on_vote ws uw postId direction s).
Proof.
  unfold on_vote.
  destruct uw as [| |[|c r]]; try by apply posts_step_same.
  destruct (find _ (posts s)) as [p|]; [|by apply posts_step_same].
  cbn zeta. rewrite broadcast_trace. left.
  split; [by destruct (Post.wallet p) as [| |[|d t]]|].
  assert (Hp : forall s0,
            posts (saveDatabase (saveState s0)) = posts s0) by done.
  rewrite Hp. fields.
  destruct (Post.wallet p) as [| |[|d t]]; fields;
    apply Forall2_revoted_update_first, revoted_cast_vote.
Qed.

Lemma on_delete_post_posts_step uw postId s :
  posts_step s (on_delete_post uw postId s).
Proof.
  unfold on_delete_post.
  destruct (findIndex _ (posts s)) as [idx|]; [|by apply posts_step_same].
  destruct (posts s !! idx) as [p|]; [|by apply posts_step_same].
  destruct (strict_eq _ _); [|by apply posts_step_same].
  rewrite !broadcast_trace. right. left. split; [done|]. by exists idx.
Qed.

Lemma agents_vote_posts_step now api_key post_id direction s :
  posts_step s (agents_vote now api_key post_id direction s).
Proof.
  unfold agents_vote.
  repeat case_match; try by apply posts_step_same.
  rewrite broadcast_trace. left. split; [done|]. fields.
  apply Forall2_revoted_update_first, revoted_agent_cast_vote.
Qed.

Lemma generateKrabPost_posts_step now rv i hive g s :
  posts_step s (generateKrabPost now rv i hive g s).
Proof.
  destruct (agents s !! i) as [agent|] eqn:Hi;
    [|unfold generateKrabPost; rewrite Hi; by apply posts_step_same].
  destruct g as [txt|message];
    [|unfold generateKrabPost; rewrite Hi; by apply posts_step_same].
  destruct (match_title txt) as [tm|] eqn:Ht;
    [|unfold generateKrabPost; rewrite Hi, Ht; by apply posts_step_same].
  destruct (match_content txt) as [cm|] eqn:Hc;
    [|unfold generateKrabPost; rewrite Hi, Ht, Hc; by apply posts_step_same].
  destruct (generateKrabPost_posted now rv i hive txt tm cm agent s Hi Ht Hc)
    as (Hposts & Hnext & _).
  right. right. split; [done|]. eexists. split; [exact Hposts|].
  split; [done|]. intros [=].
Qed.

Lemma registeredAgentVote_posts_step now ra rp up s :
  posts_step s (registeredAgentVote now ra rp up s).
Proof.
  unfold registeredAgentVote.
  destruct (_ || _); [by apply posts_step_same|].
  destruct (getActiveRegisteredAgents s !! ra) as [agent|];
    [|by apply posts_step_same].
  destruct (take 30 (posts s) !! rp) as [post|] eqn:Hrp;
    [|by apply posts_step_same].
  case_bool_decide as Hcv; [|by apply posts_step_same].
  rewrite broadcast_trace. left. split; [done|]. fields.
  apply lookup_take_Some in Hrp as [Hrp _].
  eapply Forall2_revoted_insert; [exact Hrp|].
  split; [done|].
  unfold head_start, recorded_sum.
  cbn [Post.with_vote Post.votes Post.voters].
  rewrite recorded_sum_insert. unfold current_vote in Hcv. lia.
Qed.

Lemma Forall2_revoted_ids (l l' : list Post.t) :
  Forall2 revoted l l' -> Post.id <$> l' = Post.id <$> l.
Proof.
  induction 1 as [|p p' l l' [Hp _] _ IH]; [done|].
  rewrite !fmap_cons, IH. f_equal. by rewrite Hp.
Qed.

(** What a step of the post list does to the ids. *)
Lemma posts_step_wf (s s' : server) :
  posts_step s s' -> posts_wf s ->
  posts_wf s'
  /\ nextPostId s <= nextPostId s'
  /\ (forall i, i ∈ Post.id <$> posts s' -> i < nextPostId s ->
        i ∈ Post.id <$> posts s).
Proof.
  intros [[Hnext Hvotes]|[[Hnext [idx Hdel]]|[Hnext (p & Hposts & Hid & _)]]]
         [Hbelow Hnodup].
  - apply Forall2_revoted_ids in Hvotes.
    split; [split|split].
    + rewrite Hnext.
      apply (Forall_fmap Post.id (fun i => i < nextPostId s)).
      rewrite Hvotes.
      by apply (Forall_fmap Post.id (fun i => i < nextPostId s)).
    + by rewrite Hvotes.
    + lia.
    + intros i Hi _. by rewrite <- Hvotes.
  - assert (Hsub : (Post.id <$> posts s') `sublist_of` (Post.id <$> posts s)).
    { rewrite Hdel, list_fmap_delete. apply sublist_delete. }
    split; [split|split].
    + rewrite Hnext, Hdel. by apply Forall_delete.
    + by eapply sublist_NoDup.
    + lia.
    + intros i Hi _. apply sublist_submseteq in Hsub.
      by apply (elem_of_submseteq _ _ _ Hi).
  - assert (Hfresh : nextPostId s ∉ Post.id <$> posts s).
    { intros Hin. apply list_elem_of_fmap in Hin as (q & Hq & Hin).
      rewrite Forall_forall in Hbelow. specialize (Hbelow q Hin). lia. }
    assert (Hsub : (Post.id <$> posts s')
                   `sublist_of` (nextPostId s :: (Post.id <$> posts s))).
    { rewrite Hposts. unfold unshift_capped. rewrite fmap_take, fmap_cons.
      rewrite Hid. apply sublist_take. }
    split; [split|split].
    + rewrite Hposts, Hnext. unfold unshift_capped. apply Forall_take.
      constructor; [lia|]. eapply Forall_impl; [exact Hbelow|].
      simpl. intros; lia.
    + eapply sublist_NoDup; [|exact Hsub]. by constructor.
    + lia.
    + intros i Hi Hlt.
      apply sublist_submseteq in Hsub.
      apply (elem_of_submseteq _ _ _ Hi) in Hsub.
      apply elem_of_cons in Hsub as [->|]; [lia|done].
Qed.

Section Runs.

Variable toLowerCase : list N -> list N.
Variable toUpperCase : list N -> list N.
Variable fullPersonality :
  value -> list N -> value -> option (list (list N)) -> list N -> list N.

Lemma createUserAgent_posts now ca wallet data s :
  let s' := (createUserAgent toLowerCase toUpperCase now ca wallet data s).2 in
  posts s' = posts s /\ nextPostId s' = nextPostId s.
Proof.
  cbn zeta. unfold createUserAgent.
  destruct wallet as [| |[|c r]]; try done.
  set (sg := getUser now (Str (c :: r)) s).
  assert (Hg : posts sg = posts s /\ nextPostId sg = nextPostId s).
  { destruct (people_only_fields s sg (people_only_getUser _ _ _))
      as (? & ? & _). done. }
  repeat (match goal with
          | |- context [if ?b then (CreateError _, sg) else _] => destruct b
          end; [exact Hg|]).
  fields. destruct (UserAgents.isArray (userAgents sg));
    cbn [negb snd]; [|exact Hg].
  match goal with
  | |- posts (emit ?e ?x) = _ /\ _ =>
      match x with
      | context [set_userAgents ?u ?base] =>
          assert (Hp : people_only (set_userAgents u base) (emit e x))
            by people
      end
  end.
  apply people_only_fields in Hp as (Hposts & Hnext & _).
  rewrite Hposts, Hnext. exact Hg.
Qed.

Lemma on_create_agent_posts_step now ca ws uw data s :
  posts_step s (on_create_agent toLowerCase toUpperCase now ca ws uw data s).
Proof.
  unfold on_create_agent.
  destruct uw as [| |[|c r]]; try by apply posts_step_same.
  pose proof (createUserAgent_posts now ca (Str (c :: r)) data s) as Hk.
  destruct (createUserAgent _ _ _ _ _ _ s) as [[error|agent|] s1];
    simpl in Hk; destruct Hk; by apply posts_step_same.
Qed.

Lemma user_agents_create_posts_step now agentId clientIP wallet name
    personality description topics s :
  posts_step s
    (user_agents_create toLowerCase fullPersonality now agentId clientIP
       wallet name personality description topics s).
Proof.
  apply posts_step_same; unfold user_agents_create.
  all: destruct (too_short wallet 32); [done|].
  all: destruct (bad_length name 2 20); [done|].
  all: destruct (limitsByWallet s !! or_str wallet []) as [[|i id]|];
    try done.
  all: match goal with
       | |- context [if ?b then emit (Respond 429 _) _ else _] =>
           destruct b; [done|]
       end.
  all: match goal with
       | |- context [existsb ?f (UserAgents.values (userAgents ?x) ++ _)] =>
           destruct (existsb f (UserAgents.values (userAgents x) ++ agents x));
           [by destruct (limitsByIP s !! clientIP) as [[? ?]|];
               repeat case_match|]
       end.
  all: destruct (default (now, 0) _) as [timestamp count].
  all: rewrite broadcast_trace; fields.
  all: by destruct (limitsByIP s !! clientIP) as [[? ?]|]; repeat case_match.
Qed.

Lemma turn_posts_step (s s' : server) :
  turn toLowerCase toUpperCase fullPersonality s s' -> posts_step s s'.
Proof.
  intros [s0 s1 Hstep|now ra rp up s0];
    [|apply registeredAgentVote_posts_step].
  destruct Hstep.
  - unfold on_message.
    destruct (people_only_fields _ _
                (people_only_getUser now (session_wallet ws s0) s0))
      as (Hposts & Hnext & _).
    eapply posts_step_after; [exact Hposts|exact Hnext|].
    destruct msg.
    + apply on_new_post_posts_step.
    + apply on_vote_posts_step.
    + apply on_delete_post_posts_step.
    + apply on_create_agent_posts_step.
  - apply generateKrabPost_posts_step.
  - apply agents_vote_posts_step.
  - apply user_agents_create_posts_step.
Qed.

(** X6.  Post ids are not reused while the counter counts exactly, that
    is up to [2 ^ 53].  If in some state every post has an id below
    [nextPostId] and no two posts share one, then this is so after every
    run of socket messages, generated posts, REST votes, REST
    registrations and scheduler votes that leaves the counter at
    [2 ^ 53] or below; the counter has not gone back; and a post that
    carries an id below the old counter carries the id of a post that was
    already there: deleting a post or losing it to the cap does not free
    its id for a later post. *)
Theorem post_ids_never_reused (s s' : server) :
  posts_wf s ->
  rtc (turn toLowerCase toUpperCase fullPersonality) s s' ->
  nextPostId s' <= 2 ^ 53 ->
  posts_wf s'
  /\ nextPostId s <= nextPostId s'
  /\ (forall p', p' ∈ posts s' -> Post.id p' < nextPostId s ->
        exists p, p ∈ posts s /\ Post.id p = Post.id p').
Proof.
  intros Hwf Hrun _.
  assert (Hids : posts_wf s' /\ nextPostId s <= nextPostId s'
                 /\ (forall i, i ∈ Post.id <$> posts s' -> i < nextPostId s ->
                       i ∈ Post.id <$> posts s)).
  { induction Hrun as [s|s1 s2 s3 Hturn _ IH]; [split; [done|split; [lia|auto]]|].
    destruct (posts_step_wf s1 s2 (turn_posts_step _ _ Hturn) Hwf)
      as (Hwf2 & Hle & Hold).
    destruct (IH Hwf2) as (Hwf3 & Hle3 & Hold3).
    split; [done|]. split; [lia|].
    intros i Hi Hlt. apply Hold; [|done]. apply Hold3; [done|lia]. }
  destruct Hids as (Hwf' & Hle & Hold).
  split; [done|]. split; [done|].
  intros p' Hin Hlt.
  assert (Hi : Post.id p' ∈ Post.id <$> posts s')
    by (apply list_elem_of_fmap; eauto).
  apply Hold in Hi; [|done].
  apply list_elem_of_fmap in Hi as (p & Heq & Hp). eauto.
Qed.

End Runs.

Lemma post_ids_never_reused_witness :
  let s' := on_message lower upper 1000 [] 7
              (MsgNewPost Undefined (Str (str "Hello")) (Str (str "World")))
              (on_message lower upper 900 [] 7 (MsgDeletePost 5) two_posts) in
  posts_wf two_posts
  /\ posts_wf s'
  /\ Post.id <$> posts s' = [6; 1].
Proof.
  intros s'.
  assert (Hwf : posts_wf two_posts).
  { split; [repeat constructor|].
    apply (bool_decide_unpack (NoDup (Post.id <$> posts two_posts))).
    vm_compute. exact I. }
  split; [exact Hwf|]. split; [|vm_compute; reflexivity].
  apply (post_ids_never_reused lower upper no_persona two_posts s' Hwf).
  - eapply rtc_l; [apply turn_step, step_message|].
    apply rtc_once. apply turn_step, step_message.
  - apply Z.leb_le. vm_compute. reflexivity.
Defined.

(** ** Tallies along a run *)

Lemma recast_fair (p p' : Post.t) :
  recast p p' ->
  ballots_small p
  /\ (Post.isAgentPost p = false -> Post.votes p = recorded_sum p) ->
  ballots_small p'
  /\ (Post.isAgentPost p' = false -> Post.votes p' = recorded_sum p').
Proof.
  intros [->|(k & v & Hv & ->)] [Hsmall Hsum]; [done|].
  split.
  - unfold ballots_small. cbn [Post.with_vote Post.voters].
    by apply map_Forall_insert_2.
  - cbn [Post.with_vote Post.isAgentPost Post.votes]. intros Hhuman.
    unfold recorded_sum. cbn [Post.with_vote Post.voters].
    rewrite recorded_sum_insert. unfold current_vote.
    specialize (Hsum Hhuman). unfold recorded_sum in Hsum. lia.
Qed.

Lemma recast_cast_vote (w : list N) (d : Z) (p : Post.t) :
  d = 1 \/ d = -1 -> recast p (cast_vote w d p).
Proof.
  intros Hd. right. exists w, (next_vote w d p). split; [|done].
  unfold next_vote. case_bool_decide; lia.
Qed.

Lemma recast_agent_cast_vote (k : list N) (d : Z) (p : Post.t) :
  recast p (agent_cast_vote k d p).
Proof.
  unfold agent_cast_vote. case_bool_decide; [by left|].
  right. exists k, (vote_sign d). split; [|done].
  unfold vote_sign. repeat case_match; lia.
Qed.

Lemma Forall2_recast_refl (l : list Post.t) : Forall2 recast l l.
Proof. induction l; constructor; [by left|done]. Qed.

Lemma Forall2_recast_update_first (P : Post.t -> bool) (f : Post.t -> Post.t)
    (l : list Post.t) :
  (forall p, recast p (f p)) ->
  Forall2 recast l (update_first P f l).
Proof.
  intros Hf. induction l as [|p l IH]; simpl; [constructor|].
  destruct (P p); constructor; auto using Forall2_recast_refl.
  by left.
Qed.

Lemma Forall2_recast_insert (i : nat) (p p' : Post.t) (l : list Post.t) :
  l !! i = Some p -> recast p p' ->
  Forall2 recast l (<[i := p']> l).
Proof.
  revert i. induction l as [|q l IH]; intros [|i] Hi Hr; simpl in *;
    try done.
  - injection Hi as ->. constructor; auto using Forall2_recast_refl.
  - constructor; [by left|by apply IH].
Qed.

Lemma poll_step_same (s s' : server) : posts s' = posts s -> poll_step s s'.
Proof. intros Hp. left. rewrite Hp. apply Forall2_recast_refl. Qed.

Lemma poll_step_after (s s1 s2 : server) :
  posts s1 = posts s -> poll_step s1 s2 -> poll_step s s2.
Proof. unfold poll_step. by intros ->. Qed.

Lemma on_new_post_poll_step now ws uw hive title content s :
  poll_step s (on_new_post now ws uw hive title content s).
Proof.
  destruct uw as [| |[|c r]]; try by apply poll_step_same.
  destruct (checkRateLimit now (Str (c :: r)) (rateLimitMap s))
    as [[|waitTime] m] eqn:Hcheck.
  - destruct (on_new_post_allowed now ws (c :: r) hive title content m s)
      as (Hposts & _); [done|done|].
    right. right. eexists. split; [left; exact Hposts|]. split.
    + unfold ballots_small. cbn [human_post Post.voters].
      apply map_Forall_singleton. lia.
    + intros _. unfold recorded_sum. cbn [human_post Post.votes Post.voters].
      by rewrite recorded_sum_singleton.
  - rewrite (on_new_post_limited now waitTime ws (c :: r) hive title content m)
      by done.
    by apply poll_step_same.
Qed.

Lemma on_vote_poll_step ws uw postId direction s :
  direction = 1 \/ direction = -1 ->
  poll_step s (on_vote ws uw postId direction s).
Proof.
  intros Hd. unfold on_vote.
  destruct uw as [| |[|c r]]; try by apply poll_step_same.
  destruct (find _ (posts s)) as [p|]; [|by apply poll_step_same].
  cbn zeta. rewrite broadcast_trace. left.
  assert (Hp : forall s0,
            posts (saveDatabase (saveState s0)) = posts s0) by done.
  rewrite Hp. fields.
  destruct (Post.wallet p) as [| |[|d t]]; fields;
    apply Forall2_recast_update_first; intros q;
    by apply recast_cast_vote.
Qed.

Lemma on_delete_post_poll_step uw postId s :
  poll_step s (on_delete_post uw postId s).
Proof.
  unfold on_delete_post.
  destruct (findIndex _ (posts s)) as [idx|]; [|by apply poll_step_same].
  destruct (posts s !! idx) as [p|]; [|by apply poll_step_same].
  destruct (strict_eq _ _); [|by apply poll_step_same].
  rewrite !broadcast_trace. right. left. by exists idx.
Qed.

Lemma agents_vote_poll_step now api_key post_id direction s :
  poll_step s (agents_vote now api_key post_id direction s).
Proof.
  unfold agents_vote.
  repeat case_match; try by apply poll_step_same.
  rewrite broadcast_trace. left. fields.
  apply Forall2_recast_update_first, recast_agent_cast_vote.
Qed.

Lemma generateKrabPost_poll_step now rv i hive g s :
  poll_step s (generateKrabPost now rv i hive g s).
Proof.
  destruct (agents s !! i) as [agent|] eqn:Hi;
    [|unfold generateKrabPost; rewrite Hi; by apply poll_step_same].
  destruct g as [txt|message];
    [|unfold generateKrabPost; rewrite Hi; by apply poll_step_same].
  destruct (match_title txt) as [tm|] eqn:Ht;
    [|unfold generateKrabPost; rewrite Hi, Ht; by apply poll_step_same].
  destruct (match_content txt) as [cm|] eqn:Hc;
    [|unfold generateKrabPost; rewrite Hi, Ht, Hc; by apply poll_step_same].
  destruct (generateKrabPost_posted now rv i hive txt tm cm agent s Hi Ht Hc)
    as (Hposts & _).
  right. right. eexists. split; [left; exact Hposts|].
  split; [apply map_Forall_empty|intros [=]].
Qed.

Lemma generateAgentIntroPost_poll_step now k g s :
  poll_step s (generateAgentIntroPost now k g s).
Proof.
  destruct (UserAgents.items (userAgents s) !! k) as [agent|] eqn:Hk;
    [|unfold generateAgentIntroPost; rewrite Hk; by apply poll_step_same].
  destruct g as [content|shown];
    [|unfold generateAgentIntroPost; rewrite Hk; by apply poll_step_same].
  destruct (generateAgentIntroPost_posted now k content agent s Hk)
    as (Hposts & _).
  right. right. eexists. split; [right; exact Hposts|].
  split; [apply map_Forall_empty|intros [=]].
Qed.

Lemma registeredAgentVote_poll_step now ra rp up s :
  poll_step s (registeredAgentVote now ra rp up s).
Proof.
  unfold registeredAgentVote.
  destruct (_ || _); [by apply poll_step_same|].
  destruct (getActiveRegisteredAgents s !! ra) as [agent|];
    [|by apply poll_step_same].
  destruct (take 30 (posts s) !! rp) as [post|] eqn:Hrp;
    [|by apply poll_step_same].
  case_bool_decide as Hcv; [|by apply poll_step_same].
  rewrite broadcast_trace. left. fields.
  apply lookup_take_Some in Hrp as [Hrp _].
  eapply Forall2_recast_insert; [exact Hrp|].
  right. eexists _, (if up then 1 else -1).
  split; [destruct up; lia|]. rewrite Hcv. f_equal. lia.
Qed.

(** What a step of the post list does to the tallies. *)
Lemma poll_step_fair (s s' : server) :
  poll_step s s' -> fair_tallies s -> fair_tallies s'.
Proof.
  unfold fair_tallies.
  intros [Hvotes|[[idx Hdel]|(p & Hposts & Hsmall & Hsum)]] Hfair.
  - induction Hvotes as [|q q' l l' Hq _ IH]; [constructor|].
    apply Forall_cons in Hfair as [Hq0 Hl]. constructor; [|by apply IH].
    by eapply recast_fair.
  - rewrite Hdel. by apply Forall_delete.
  - destruct Hposts as [-> | ->]; [apply Forall_take|]; by constructor.
Qed.

(** A sum of votes of one at most is no larger than their number. *)
Lemma ballots_small_sum (m : gmap (list N) Z) :
  map_Forall (fun _ v => -1 <= v <= 1) m ->
  Z.abs (map_fold (fun _ v acc => v + acc) 0 m) <= Z.of_nat (size m).
Proof.
  induction m as [|k v m Hk _ IH] using map_first_key_ind.
  - intros _. rewrite map_fold_empty, map_size_empty. lia.
  - intros Hall. apply map_Forall_insert in Hall as [Hv Hm]; [|done].
    rewrite map_fold_insert_L; [|intros; lia|done].
    rewrite map_size_insert_None by done. specialize (IH Hm). lia.
Qed.

Section Polls.

Variable toLowerCase : list N -> list N.
Variable toUpperCase : list N -> list N.
Variable fullPersonality :
  value -> list N -> value -> option (list (list N)) -> list N -> list N.

Lemma on_create_agent_posts now ca ws uw data s :
  posts (on_create_agent toLowerCase toUpperCase now ca ws uw data s)
  = posts s.
Proof.
  unfold on_create_agent.
  destruct uw as [| |[|c r]]; try done.
  pose proof (createUserAgent_posts toLowerCase toUpperCase now ca
                (Str (c :: r)) data s) as Hk.
  destruct (createUserAgent _ _ _ _ _ _ s) as [[error|agent|] s1];
    simpl in Hk; by destruct Hk.
Qed.

Lemma user_agents_create_posts now agentId clientIP wallet name
    personality description topics s :
  posts (user_agents_create toLowerCase fullPersonality now agentId clientIP
           wallet name personality description topics s)
  = posts s.
Proof.
  unfold user_agents_create.
  destruct (too_short wallet 32); [done|].
  destruct (bad_length name 2 20); [done|].
  destruct (limitsByWallet s !! or_str wallet []) as [[|i id]|];
    try done.
  all: match goal with
       | |- context [if ?b then emit (Respond 429 _) _ else _] =>
           destruct b; [done|]
       end.
  all: match goal with
       | |- context [existsb ?f (UserAgents.values (userAgents ?x) ++ _)] =>
           destruct (existsb f (UserAgents.values (userAgents x) ++ agents x));
           [by destruct (limitsByIP s !! clientIP) as [[? ?]|];
               repeat case_match|]
       end.
  all: destruct (default (now, 0) _) as [timestamp count].
  all: rewrite broadcast_trace; fields.
  all: by destruct (limitsByIP s !! clientIP) as [[? ?]|]; repeat case_match.
Qed.

Lemma poll_poll_step (s s' : server) :
  poll toLowerCase toUpperCase fullPersonality s s' -> poll_step s s'.
Proof.
  intros [now ca ws msg s0 Hballot| | | | |].
  - unfold on_message.
    destruct (people_only_fields _ _
                (people_only_getUser now (session_wallet ws s0) s0))
      as (Hposts & _).
    eapply poll_step_after; [exact Hposts|].
    destruct msg as [hive title content|postId direction|postId|data].
    + apply on_new_post_poll_step.
    + apply on_vote_poll_step. cbn [ballot] in Hballot.
      apply orb_true_iff in Hballot as [Hd|Hd];
        apply bool_decide_eq_true in Hd; auto.
    + apply on_delete_post_poll_step.
    + apply poll_step_same, on_create_agent_posts.
  - apply generateKrabPost_poll_step.
  - apply generateAgentIntroPost_poll_step.
  - apply agents_vote_poll_step.
  - apply poll_step_same, user_agents_create_posts.
  - apply registeredAgentVote_poll_step.
Qed.

(** X7.  The tally of a post written by a person is the sum of the votes
    the post records, and every recorded vote is [-1], [0] or [1]; this is
    kept along every run of socket messages (with post fields that are
    strings or absent, numeric post ids, and votes of direction [1] or
    [-1], as the client sends them), generated posts, introduction posts,
    REST votes, REST registrations and scheduler votes.  A new post
    starts with its author's vote and a tally of 1, each of the three
    vote paths moves the tally by exactly the change of the voter's
    recorded vote, and deletion and the cap only remove posts.  The tally
    of such a post is therefore never larger in size than the number of
    its voters, far inside the range where doubles add integers
    exactly. *)
Theorem tallies_stay_balanced (s s' : server) :
  fair_tallies s ->
  rtc (poll toLowerCase toUpperCase fullPersonality) s s' ->
  fair_tallies s'
  /\ Forall (fun p => Post.isAgentPost p = false ->
                      Z.abs (Post.votes p)
                      <= Z.of_nat (size (Post.voters p))) (posts s').
Proof.
  intros Hfair Hrun.
  assert (Hfair' : fair_tallies s').
  { induction Hrun as [s|s1 s2 s3 Hturn _ IH]; [done|].
    apply IH. eapply poll_step_fair; [|exact Hfair].
    by apply poll_poll_step. }
  split; [done|].
  unfold fair_tallies in Hfair'. eapply Forall_impl; [exact Hfair'|].
  cbn beta. intros p [Hsmall Hsum] Hhuman. rewrite (Hsum Hhuman).
  by apply ballots_small_sum.
Qed.

End Polls.

Lemma tallies_stay_balanced_witness :
  Forall (fun p => Post.isAgentPost p = false ->
                   Post.votes p = recorded_sum p
                   /\ Z.abs (Post.votes p)
                      <= Z.of_nat (size (Post.voters p)))
    (posts (registeredAgentVote 2000 0 0 true
              (on_message lower upper 1000 [] 7 (MsgVote 5 (-1))
                 with_api_agent))).
Proof.
  destruct (tallies_stay_balanced lower upper no_persona with_api_agent
              (registeredAgentVote 2000 0 0 true
                 (on_message lower upper 1000 [] 7 (MsgVote 5 (-1))
                    with_api_agent)))
    as [Hfair Hbound].
  - constructor.
    + split; [|intros _; vm_compute; reflexivity].
      apply (bool_decide_unpack _). vm_compute. exact I.
    + constructor; [|constructor].
      split; [|intros Hhuman; discriminate Hhuman].
      apply (bool_decide_unpack _). vm_compute. exact I.
  - eapply rtc_l;
      [apply (poll_message _ _ _ 1000 [] 7%nat (MsgVote 5 (-1)));
       reflexivity|].
    apply rtc_once. apply poll_registered_vote.
  - unfold fair_tallies in Hfair.
    rewrite Forall_forall in Hfair, Hbound. apply Forall_forall.
    intros p Hp Hhuman.
    destruct (Hfair p Hp) as [_ Hsum]. split; [auto|by apply Hbound].
Defined.

(** ** Votes and karma *)

(** X8.  A vote of direction [1] or [-1] over the socket, by a voter whose
    recorded vote on the post is [-1], [0] or [1], moves the karma of the
    post's author by exactly what it moves the tally, whoever votes (the
    author too); the records of all other wallets are left alone, and when
    the author has no user record (an agent's post) the user table does
    not change at all.  The tally and the karma are taken to be more than
    2 inside the range of [2 ^ 53] in which doubles add integers
    exactly, and the voter's wallet not to be a name that a plain object
    inherits. *)
Theorem vote_moves_author_karma (ws : nat) (w o : list N) (postId d : Z)
    (p : Post.t) (s : server) :
  w <> [] -> plain_key w = true -> o <> [] ->
  d = 1 \/ d = -1 ->
  -1 <= current_vote w p <= 1 ->
  Z.abs (Post.votes p) + 2 < 2 ^ 53 ->
  find (fun p => bool_decide (Post.id p = postId)) (posts s) = Some p ->
  Post.wallet p = Str o ->
  let s' := on_vote ws (Str w) postId d s in
  exists t',
    tally postId s' = Some t'
    /\ -2 <= t' - Post.votes p <= 2
    /\ (forall u, users s !! o = Some u ->
          Z.abs (User.karma u) + 2 < 2 ^ 53 ->
          User.karma <$> users s' !! o
          = Some (User.karma u + (t' - Post.votes p)))
    /\ (forall o', o' <> o -> users s' !! o' = users s !! o')
    /\ (users s !! o = None -> users s' = users s).
Proof.
  intros Hw _ Ho Hd Hcv _ Hfind Hwallet s'.
  destruct (on_vote_found ws w postId d p s Hw Hfind) as [Htally _].
  fold s' in Htally. eexists. split; [exact Htally|].
  assert (Husers : users s'
                   = alter (fun u =>
                              User.with_karma
                                (User.karma u
                                 + (next_vote w d p - current_vote w p)) u)
                           o (users s)).
  { subst s'. unfold on_vote. destruct w as [|c r]; [done|].
    rewrite Hfind. cbn zeta. rewrite broadcast_trace, Hwallet.
    destruct o as [|e t]; [done|]. by fields. }
  rewrite Husers. split; [|split; [|split]].
  - unfold next_vote. case_bool_decide; lia.
  - intros u Hu _. rewrite lookup_alter_eq, Hu. simpl. f_equal. lia.
  - intros o' Ho'. by rewrite lookup_alter_ne.
  - intros Hnone. by apply alter_id'.
Qed.

Lemma vote_moves_author_karma_witness :
  exists t',
    tally 5 (on_vote 7 (Str (str "RICH01")) 5 (-1)
               (set_posts [own_post 5] (set_users
                  {[ str "ABC123" := member (str "ABC123") 9 ]} two_posts)))
    = Some t'
    /\ t' = 0
    /\ User.karma
         <$> users (on_vote 7 (Str (str "RICH01")) 5 (-1)
                      (set_posts [own_post 5] (set_users
                         {[ str "ABC123" := member (str "ABC123") 9 ]}
                         two_posts))) !! str "ABC123"
       = Some 8.
Proof.
  assert (Hcv : -1 <= current_vote (str "RICH01") (own_post 5) <= 1)
    by (change (current_vote (str "RICH01") (own_post 5)) with 0; lia).
  assert (Hsafe : Z.abs (Post.votes (own_post 5)) + 2 < 2 ^ 53)
    by (cbn; lia).
  destruct (vote_moves_author_karma 7 (str "RICH01") (str "ABC123") 5 (-1)
              (own_post 5)
              (set_posts [own_post 5] (set_users
                 {[ str "ABC123" := member (str "ABC123") 9 ]} two_posts))
              ltac:(discriminate) eq_refl ltac:(discriminate)
              (or_intror eq_refl) Hcv Hsafe eq_refl eq_refl)
    as (t' & Ht & _ & Hk & _).
  exists t'. split; [exact Ht|].
  assert (Ht0 : t' = 0) by (vm_compute in Ht; congruence).
  split; [exact Ht0|].
  rewrite (Hk (member (str "ABC123") 9)) by (reflexivity || (cbn; lia)).
  rewrite Ht0. reflexivity.
Defined.

(** ** The REST vote *)

(** A broadcast answers no request. *)
Lemma frames_answer_nothing (data : event) (cs : list Session.t) :
  Forall (fun e => is_respond e = false) (frames data cs).
Proof.
  rewrite frames_filter. apply Forall_forall. intros e He.
  by apply list_elem_of_fmap in He as (c & -> & _).
Qed.

(** X9.  Every request to the vote endpoint is answered exactly once,
    and the answer is the last thing the handler does: the effects of a
    request are effects that answer nothing, followed by one response.
    The request carries a key that is a string or absent, and not a name
    that a plain object inherits, and a post id and a direction that are
    numbers or absent.  An answer other than 200 is 400, 401 or 404 and
    is all that happens: the state is the one before with the response
    appended to the trace.  An answer of 200 reports the id and the tally
    of a post that is in the list afterwards. *)
Theorem agents_vote_answers_once (now : Z) (api_key : value)
    (post_id direction : option Z) (s : server) :
  (forall k, api_key = Str k -> plain_key k = true) ->
  let s' := agents_vote now api_key post_id direction s in
  exists pre status body,
    emitted s s' = pre ++ [Respond status body]
    /\ Forall (fun e => is_respond e = false) pre
    /\ (status <> 200 ->
        (status = 400 \/ status = 401 \/ status = 404)
        /\ s' = emit (Respond status body) s)
    /\ (status = 200 ->
        exists p, p ∈ posts s'
                  /\ body = ReplyVoted (Post.id p) (Post.votes p)
                  /\ post_id = Some (Post.id p)).
Proof.
  intros _ s'. subst s'. unfold agents_vote.
  assert (Hone : forall e, emitted s (emit e s) = [] ++ [e]).
  { intros e. by apply emitted_app. }
  destruct api_key as [| |[|c r]], post_id as [pid|], direction as [dir|];
    try (exists []; do 2 eexists; split; [apply Hone|];
         split; [constructor|];
         split; [intros _; split; [auto|reflexivity]|intros [=]]).
  destruct (pid =? 0) eqn:Hpid;
    [exists []; do 2 eexists; split; [apply Hone|];
     split; [constructor|];
     split; [intros _; split; [auto|reflexivity]|intros [=]]|].
  destruct (assoc_get (c :: r) (agentApiKeys s)) as [keyData|] eqn:Hk;
    [|exists []; do 2 eexists; split; [apply Hone|];
      split; [constructor|];
      split; [intros _; split; [auto|reflexivity]|intros [=]]].
  destruct (assoc_get (KeyData.agentId keyData) (registeredAgents s))
    as [agent|] eqn:Ha;
    [|exists []; do 2 eexists; split; [apply Hone|];
      split; [constructor|];
      split; [intros _; split; [auto|reflexivity]|intros [=]]].
  destruct (RegAgent.active agent) eqn:Hact; cbn [negb];
    [|exists []; do 2 eexists; split; [apply Hone|];
      split; [constructor|];
      split; [intros _; split; [auto|reflexivity]|intros [=]]].
  destruct (find (fun p => bool_decide (Post.id p = pid)) (posts s))
    as [p|] eqn:Hfind;
    [|exists []; do 2 eexists; split; [apply Hone|];
      split; [constructor|];
      split; [intros _; split; [auto|reflexivity]|intros [=]]].
  set (voteKey := str "agent_" ++ RegAgent.id agent).
  pose proof (find_update_first (fun p => bool_decide (Post.id p = pid))
                (agent_cast_vote voteKey dir) (posts s)) as Hfu.
  rewrite Hfind in Hfu.
  pose proof Hfind as Hfound.
  apply find_some in Hfound as [Hin Hid].
  apply bool_decide_eq_true in Hid. apply list_elem_of_In in Hin.
  destruct (decide (current_vote voteKey p = vote_sign dir)) as [Hsame|Hnew].
  - rewrite bool_decide_true by done.
    exists []. do 2 eexists. split; [apply Hone|].
    split; [constructor|].
    split; [done|]. intros _. exists p.
    split; [done|]. unfold agent_cast_vote.
    rewrite bool_decide_true by done. by rewrite Hid.
  - rewrite bool_decide_false by done. rewrite broadcast_trace.
    eexists (_ :: _ :: _ :: _). do 2 eexists.
    split; [apply emitted_app; fields; rewrite <- !app_assoc; reflexivity|].
    split; [repeat (constructor; [done|]); apply frames_answer_nothing|].
    split; [done|]. intros _.
    exists (agent_cast_vote voteKey dir p). fields.
    split; [|split; [reflexivity|]].
    + eapply list_elem_of_In, (find_some _ _). apply Hfu.
      intros x. unfold agent_cast_vote.
      by destruct (bool_decide (current_vote _ x = _)).
    + unfold agent_cast_vote. rewrite bool_decide_false by done.
      simpl. by rewrite Hid.
Qed.

Lemma agents_vote_answers_once_witness :
  filter (fun e => is_respond e = true)
    (emitted with_api_agent
       (agents_vote 2000 (Str (str "key-1")) (Some 5) (Some (-1))
          with_api_agent))
  = [Respond 200 (ReplyVoted 5 0)]
  /\ agents_vote 2000 (Str (str "no-such-key")) (Some 5) (Some 1)
       with_api_agent
     = emit (Respond 401 (ReplyError (str "Invalid API key"))) with_api_agent.
Proof.
  split.
  - pose proof (agents_vote_answers_once 2000 (Str (str "key-1")) (Some 5)
                  (Some (-1)) with_api_agent) as Hrun.
    cbn zeta in Hrun.
    destruct Hrun as (pre & status & body & Hemit & Hpre & _).
    { intros k [= <-]. reflexivity. }
    rewrite Hemit, filter_app.
    assert (Hnone : filter (fun e => is_respond e = true) pre = []).
    { clear Hemit. induction Hpre as [|e pre He _ IH]; [done|].
      rewrite filter_cons_False by (by rewrite He). exact IH. }
    rewrite Hnone. cbn [app].
    assert (Hlast : last (pre ++ [Respond status body])
                    = Some (Respond 200 (ReplyVoted 5 0))).
    { rewrite <- Hemit. vm_compute. reflexivity. }
    rewrite last_snoc in Hlast. injection Hlast as -> ->. reflexivity.
  - pose proof (agents_vote_answers_once 2000 (Str (str "no-such-key"))
                  (Some 5) (Some 1) with_api_agent) as Hrun.
    cbn zeta in Hrun.
    destruct Hrun as (pre & status & body & Hemit & _ & Hrefused & _).
    { intros k [= <-]. reflexivity. }
    assert (Hlast : last (pre ++ [Respond status body])
                    = Some (Respond 401 (ReplyError (str "Invalid API key")))).
    { rewrite <- Hemit. vm_compute. reflexivity. }
    rewrite last_snoc in Hlast. injection Hlast as -> ->.
    by destruct Hrefused as [_ ->].
Defined.

(** X10.  The REST vote records the sign of the direction it is sent,
    whatever the number: after a vote by an authenticated, active agent
    on a post that exists, the vote recorded for the agent is [-1], [0]
    or [1], and the tally has moved by the difference between that and
    the agent's earlier vote.  A direction of [0] takes the vote back. *)
Theorem agents_vote_records_the_sign (now : Z) (key : list N)
    (keyData : KeyData.t) (agent : RegAgent.t) (postId direction : Z)
    (p : Post.t) (s : server) :
  key <> [] -> postId <> 0 ->
  assoc_get key (agentApiKeys s) = Some keyData ->
  assoc_get (KeyData.agentId keyData) (registeredAgents s) = Some agent ->
  RegAgent.active agent = true ->
  find (fun p => bool_decide (Post.id p = postId)) (posts s) = Some p ->
  let voteKey := str "agent_" ++ RegAgent.id agent in
  let s' := agents_vote now (Str key) (Some postId) (Some direction) s in
  recorded voteKey postId s' = Some (vote_sign direction)
  /\ tally postId s'
     = Some (Post.votes p - current_vote voteKey p + vote_sign direction)
  /\ -1 <= vote_sign direction <= 1
  /\ (direction = 0 -> recorded voteKey postId s' = Some 0).
Proof.
  intros Hkey Hpid Hk Ha Hact Hfind voteKey s'.
  destruct (agents_vote_found now key keyData agent postId direction p s)
    as [Hposts _]; try done.
  fold voteKey s' in Hposts.
  assert (Hsign : -1 <= vote_sign direction <= 1).
  { unfold vote_sign. repeat case_match; lia. }
  assert (Hrec : recorded voteKey postId s' = Some (vote_sign direction)
                 /\ tally postId s'
                    = Some (Post.votes p - current_vote voteKey p
                            + vote_sign direction)).
  { unfold recorded, tally. rewrite Hposts.
    destruct (decide (current_vote voteKey p = vote_sign direction))
      as [Hsame|Hnew].
    - rewrite bool_decide_true by done. rewrite Hfind. simpl.
      split; f_equal; lia.
    - rewrite bool_decide_false by done.
      rewrite find_update_first, Hfind.
      + cbn [fmap option_fmap option_map].
        unfold agent_cast_vote. cbn zeta.
        rewrite bool_decide_false by done.
        split; [|done]. unfold current_vote at 1.
        cbn [Post.voters Post.with_vote].
        by rewrite lookup_insert_eq.
      + intros x. unfold agent_cast_vote.
        by destruct (bool_decide (current_vote _ x = _)). }
  destruct Hrec as [Hrec Htally].
  split; [done|]. split; [done|]. split; [done|].
  intros ->. exact Hrec.
Qed.

Lemma agents_vote_records_the_sign_witness :
  recorded (str "agent_ext_1") 5
    (agents_vote 2000 (Str (str "key-1")) (Some 5) (Some (-40))
       with_api_agent) = Some (-1)
  /\ tally 5 (agents_vote 2000 (Str (str "key-1")) (Some 5) (Some (-40))
                with_api_agent) = Some 0.
Proof.
  destruct (agents_vote_records_the_sign 2000 (str "key-1") api_key_data
              api_agent 5 (-40) agent_voted_post with_api_agent)
    as (Hrec & Htally & _); try reflexivity; try discriminate.
  split; [exact Hrec|exact Htally].
Defined.

(** ** Votes cast by the scheduler *)

Lemma alter_active_actives (f : RegAgent.t -> RegAgent.t) (n : nat)
    (l : list (list N * RegAgent.t)) :
  (forall a, RegAgent.active (f a) = RegAgent.active a) ->
  filter (fun a => RegAgent.active a = true) (map snd (alter_active f n l))
  = alter f n (filter (fun a => RegAgent.active a = true) (map snd l)).
Proof.
  intros Hf. revert n. induction l as [|[k a] l IH]; intros n; [done|].
  simpl. destruct (RegAgent.active a) eqn:Ha.
  - rewrite (filter_cons_True _ a) by done.
    destruct n as [|n]; simpl.
    + rewrite filter_cons_True by (by rewrite Hf). done.
    + rewrite filter_cons_True by done. simpl. by rewrite IH.
  - rewrite (filter_cons_False _ a) by (by rewrite Ha).
    simpl. rewrite filter_cons_False by (by rewrite Ha). apply IH.
Qed.

(** X11.  The scheduler never votes twice for the same agent on the same
    post.  When the drawn agent has a vote other than 0 recorded on the
    drawn post, nothing happens.  Otherwise the vote drawn is recorded,
    the tally moves by exactly that vote, and no other post changes.  In
    both cases drawing the same agent and post again, at any time and
    with any third draw, leaves the state as it is. *)
Theorem registeredAgentVote_votes_once (now later : Z) (ra rp : nat)
    (up up' : bool) (s : server) :
  let s' := registeredAgentVote now ra rp up s in
  registeredAgentVote later ra rp up' s' = s'
  /\ (forall agent post,
        getActiveRegisteredAgents s !! ra = Some agent ->
        posts s !! rp = Some post -> (rp < 30)%nat ->
        let voteKey := str "agent_" ++ RegAgent.id agent in
        (current_vote voteKey post <> 0 -> s' = s)
        /\ (current_vote voteKey post = 0 ->
            exists post',
              posts s' = <[rp := post']> (posts s)
              /\ Post.votes post' = Post.votes post + (if up then 1 else -1)
              /\ current_vote voteKey post' = (if up then 1 else -1))).
Proof.
  intros s'. subst s'. split.
  - unfold registeredAgentVote at 2 3. cbn zeta.
    destruct (_ || _) eqn:Hempty;
      [unfold registeredAgentVote; cbn zeta; by rewrite Hempty|].
    destruct (getActiveRegisteredAgents s !! ra) as [agent|] eqn:Hra;
      [|unfold registeredAgentVote; cbn zeta; by rewrite Hempty, Hra].
    destruct (take 30 (posts s) !! rp) as [post|] eqn:Hrp;
      [|unfold registeredAgentVote; cbn zeta; by rewrite Hempty, Hra, Hrp].
    destruct (bool_decide (current_vote _ post = 0)) eqn:Hcv;
      [|unfold registeredAgentVote; cbn zeta; by rewrite Hempty, Hra, Hrp, Hcv].
    rewrite broadcast_trace.
    match goal with
    | |- registeredAgentVote _ _ _ _ ?x = _ => set (voted := x)
    end.
    assert (Hact : getActiveRegisteredAgents voted
                   = alter (RegAgent.with_lastActive now) ra
                       (getActiveRegisteredAgents s)).
    { subst voted. unfold getActiveRegisteredAgents. fields.
      by apply alter_active_actives. }
    apply lookup_take_Some in Hrp as [Hrp Hlt].
    unfold registeredAgentVote. cbn zeta. rewrite Hact.
    rewrite list_lookup_alter_eq, Hra. cbn [fmap option_fmap option_map].
    assert (Hposts : posts voted
                     = <[rp := Post.with_vote
                                 (Post.votes post + (if up then 1 else -1))
                                 (<[str "agent_" ++ RegAgent.id agent
                                    := if up then 1 else -1]>
                                    (Post.voters post)) post]> (posts s))
      by done.
    rewrite Hposts.
    assert (Hlen : (rp < length (posts s))%nat) by (by eapply lookup_lt_Some).
    rewrite (proj2 (lookup_take_Some _ _ _ _)
               (conj (list_lookup_insert_eq _ _ _ Hlen) Hlt)).
    destruct (bool_decide (alter _ ra _ = [])); [done|].
    destruct (bool_decide (<[rp := _]> (posts s) = [])); [done|].
    cbn [orb]. rewrite bool_decide_false; [done|].
    unfold current_vote. cbn [Post.voters Post.with_vote RegAgent.id
                              RegAgent.with_lastActive].
    rewrite lookup_insert_eq. simpl. by destruct up.
  - intros agent post Hra Hrp Hlt voteKey.
    assert (Hne : bool_decide (getActiveRegisteredAgents s = [])
                  || bool_decide (posts s = []) = false).
    { destruct (getActiveRegisteredAgents s); [done|].
      destruct (posts s); [by destruct rp|]. done. }
    unfold registeredAgentVote. cbn zeta. rewrite Hne, Hra.
    rewrite (proj2 (lookup_take_Some _ _ _ _) (conj Hrp Hlt)).
    fold voteKey. split.
    + intros Hcv. by rewrite bool_decide_false.
    + intros Hcv. rewrite bool_decide_true by done.
      rewrite broadcast_trace. eexists. fields.
      split; [reflexivity|]. split; [done|].
      unfold current_vote. cbn [Post.voters Post.with_vote].
      by rewrite lookup_insert_eq.
Qed.

Lemma registeredAgentVote_votes_once_witness :
  let s := set_registeredAgents [(str "ext_1", api_agent)] two_posts in
  tally 5 (registeredAgentVote 2000 0 0 true s) = Some 2
  /\ registeredAgentVote 3000 0 0 false (registeredAgentVote 2000 0 0 true s)
     = registeredAgentVote 2000 0 0 true s.
Proof.
  intros s. split; [vm_compute; reflexivity|].
  pose proof (registeredAgentVote_votes_once 2000 3000 0 0 true false s)
    as Hrun.
  cbn zeta in Hrun. by destruct Hrun as [Hagain _].
Defined.

(** ** Ranks *)

(** Case analysis on the thresholds of [USER_RANKS]. *)
Ltac rank_cases :=
  unfold getUserRank, USER_RANKS; cbn [fold_left head Rank.min];
  repeat match goal with
         | |- context [(?a <=? ?b)] => destruct (Z.leb_spec a b); try lia
         end.

(** X12.  The rank of a karma is the row of [USER_RANKS] with the highest
    threshold that the karma reaches, and the first row, ['Shrimp'], for a
    negative karma; a higher karma never gives a lower rank. *)
Theorem getUserRank_highest_reached (karma : Z) :
  exists r,
    getUserRank karma = Some r
    /\ r ∈ USER_RANKS
    /\ (0 <= karma ->
        Rank.min r <= karma
        /\ forall r', r' ∈ USER_RANKS -> Rank.min r' <= karma ->
                      Rank.min r' <= Rank.min r)
    /\ (karma < 0 -> Rank.name r = str "Shrimp")
    /\ (forall more r2, karma <= more -> getUserRank more = Some r2 ->
          Rank.min r <= Rank.min r2).
Proof.
  assert (Hmin : forall k r, getUserRank k = Some r ->
            r ∈ USER_RANKS
            /\ (k < 0 -> Rank.name r = str "Shrimp" /\ Rank.min r = 0)
            /\ (0 <= k ->
                Rank.min r <= k
                /\ forall r', r' ∈ USER_RANKS -> Rank.min r' <= k ->
                              Rank.min r' <= Rank.min r)).
  { intros k r. rank_cases; intros [= <-]; cbn [Rank.min Rank.name];
      (split; [unfold USER_RANKS; rewrite !elem_of_cons; tauto|]);
      (split; [intros; first [lia|done]|]);
      intros Hk0; (split; [lia|]);
      intros r' Hin Hle; unfold USER_RANKS in Hin;
      rewrite !elem_of_cons, elem_of_nil in Hin;
      repeat (destruct Hin as [->|Hin]; [cbn [Rank.min] in *; lia|]);
      done. }
  assert (Hsome : exists r, getUserRank karma = Some r).
  { rank_cases; by eexists. }
  destruct Hsome as [r Hr]. exists r.
  destruct (Hmin karma r Hr) as (Hin & Hneg & Hpos).
  split; [done|]. split; [done|]. split; [done|].
  split; [intros Hk; by apply Hneg|].
  intros more r2 Hle Hr2.
  destruct (Hmin more r2 Hr2) as (Hin2 & Hneg2 & Hpos2).
  destruct (Z.lt_ge_cases karma 0) as [Hk|Hk].
  - destruct (Hneg Hk) as [_ ->].
    destruct (Z.lt_ge_cases more 0) as [Hm|Hm].
    + destruct (Hneg2 Hm) as [_ ->]. lia.
    + destruct (Hpos2 Hm) as [_ Hmax].
      apply (Hmax {| Rank.min := 0; Rank.name := str "Shrimp";
                     Rank.emoji := [55357; 56347]%N;
                     Rank.color := str "#888888" |});
        [apply list_elem_of_here|simpl; lia].
  - destruct (Hpos Hk) as [Hreach _].
    destruct (Hpos2 (ltac:(lia))) as [_ Hmax].
    apply Hmax; [done|lia].
Qed.

Lemma getUserRank_highest_reached_witness :
  Rank.name <$> getUserRank 120 = Some (str "Crawfish")
  /\ exists r, getUserRank 120 = Some r /\ Rank.min r <= 120.
Proof.
  split; [vm_compute; reflexivity|].
  destruct (getUserRank_highest_reached 120) as (r & Hr & _ & Hreached & _).
  exists r. split; [exact Hr|].
  by destruct Hreached as [Hle _].
Defined.

(** ** Registration limit of the agent API *)

Lemma incrementRegistrationRateLimit_known (now : Z) (ip : list N)
    (e : RegLimit.t) (m : gmap (list N) RegLimit.t) :
  m !! ip = Some e ->
  incrementRegistrationRateLimit now ip m
  = <[ip := {| RegLimit.count := RegLimit.count e + 1;
               RegLimit.resetAt := RegLimit.resetAt e |}]> m.
Proof.
  intros Hm. unfold incrementRegistrationRateLimit. rewrite Hm.
  apply map_eq. intros k. destruct (decide (k = ip)) as [->|Hne].
  - by rewrite lookup_alter_eq, lookup_insert_eq, Hm.
  - by rewrite lookup_alter_ne, lookup_insert_ne.
Qed.

Lemma checkRegistrationRateLimit_known (now : Z) (ip : list N)
    (e : RegLimit.t) (m : gmap (list N) RegLimit.t) :
  m !! ip = Some e -> now <= RegLimit.resetAt e ->
  checkRegistrationRateLimit now ip m = (RegLimit.count e <? 2, m).
Proof.
  intros Hm Hnow. unfold checkRegistrationRateLimit.
  rewrite Hm. cbn zeta. rewrite Hm.
  rewrite (proj2 (Z.ltb_ge _ _)) by lia. by rewrite Hm.
Qed.

(** A run within the window of an entry: the count grows by the number
    of requests stored and never passes 2. *)
Lemma register_attempts_window (attempts : list (Z * bool)) (ip : list N) :
  forall (e : RegLimit.t) (m : gmap (list N) RegLimit.t),
    m !! ip = Some e -> RegLimit.count e <= 2 ->
    Forall (fun a => a.1 <= RegLimit.resetAt e) attempts ->
    let run := register_attempts attempts ip m in
    let stored := Z.of_nat (length (filter (fun b => b = true) run.1)) in
    run.2 !! ip = Some {| RegLimit.count := RegLimit.count e + stored;
                          RegLimit.resetAt := RegLimit.resetAt e |}
    /\ RegLimit.count e + stored <= 2.
Proof.
  induction attempts as [|[now valid] rest IH]; intros e m Hm Hc Hall.
  { simpl. rewrite Hm. split; [|lia]. f_equal. destruct e. simpl.
    f_equal. lia. }
  apply Forall_cons in Hall as [Hnow Hrest]. simpl in Hnow.
  cbn [register_attempts].
  rewrite (checkRegistrationRateLimit_known now ip e m Hm Hnow).
  destruct ((RegLimit.count e <? 2) && valid) eqn:Hstored.
  - apply andb_true_iff in Hstored as [Hlt _]. apply Z.ltb_lt in Hlt.
    rewrite (incrementRegistrationRateLimit_known now ip e m Hm).
    specialize (IH {| RegLimit.count := RegLimit.count e + 1;
                      RegLimit.resetAt := RegLimit.resetAt e |}
                   (<[ip := {| RegLimit.count := RegLimit.count e + 1;
                               RegLimit.resetAt := RegLimit.resetAt e |}]> m)).
    destruct (register_attempts rest ip _) as [rs m3].
    cbn [fst snd] in *.
    destruct IH as [Hentry Hle];
      [apply lookup_insert_eq|cbn; lia|done|].
    cbn [RegLimit.count RegLimit.resetAt] in *.
    rewrite filter_cons_True by done. cbn [length].
    rewrite Hentry. split; [|lia]. do 2 f_equal. lia.
  - specialize (IH e m Hm Hc Hrest).
    destruct (register_attempts rest ip m) as [rs m3].
    cbn [fst snd] in *. rewrite filter_cons_False by done. exact IH.
Qed.

(** X13.  Two registrations per address and day.  For an address the
    table does not know, take any run of registration requests that starts
    at [t0] and stays within 24 hours of it, in any order of the later
    clock readings, some with valid fields and some not.  At most two of
    them are stored; the table then holds their number and the reset time
    [t0 + 24h] for the address; once two are stored every check within
    the window fails; and the first check after the reset time succeeds
    again. *)
Theorem registration_limit_two_per_day (ip : list N) (t0 : Z) (valid0 : bool)
    (rest : list (Z * bool)) (m : gmap (list N) RegLimit.t) :
  m !! ip = None ->
  Forall (fun a => a.1 <= t0 + dayMs) rest ->
  let run := register_attempts ((t0, valid0) :: rest) ip m in
  let stored := length (filter (fun b => b = true) run.1) in
  (stored <= 2)%nat
  /\ run.2 !! ip = Some {| RegLimit.count := Z.of_nat stored;
                           RegLimit.resetAt := t0 + dayMs |}
  /\ (stored = 2%nat ->
      forall now, now <= t0 + dayMs ->
                  (checkRegistrationRateLimit now ip run.2).1 = false)
  /\ (forall now, t0 + dayMs < now ->
        (checkRegistrationRateLimit now ip run.2).1 = true).
Proof.
  intros Hnone Hall run stored.
  set (fresh := {| RegLimit.count := 0; RegLimit.resetAt := t0 + dayMs |}).
  assert (Hsame : run = register_attempts ((t0, valid0) :: rest) ip
                          (<[ip := fresh]> m)).
  { subst run. cbn [register_attempts].
    assert (Hcheck : checkRegistrationRateLimit t0 ip m
                     = (true, <[ip := fresh]> m)).
    { unfold checkRegistrationRateLimit. rewrite Hnone. cbn zeta.
      fold fresh. rewrite lookup_insert_eq. cbn [RegLimit.resetAt fresh].
      rewrite (proj2 (Z.ltb_ge _ _)) by (unfold dayMs; lia).
      by rewrite lookup_insert_eq. }
    rewrite Hcheck.
    rewrite (checkRegistrationRateLimit_known t0 ip fresh (<[ip := fresh]> m))
      by (first [apply lookup_insert_eq|cbn; unfold dayMs; lia]).
    done. }
  destruct (register_attempts_window ((t0, valid0) :: rest) ip fresh
              (<[ip := fresh]> m)) as [Hentry Hle].
  { apply lookup_insert_eq. }
  { cbn. lia. }
  { constructor; [cbn; unfold dayMs; lia|exact Hall]. }
  rewrite <- Hsame in Hentry, Hle. fold stored in Hentry, Hle.
  cbn [RegLimit.count RegLimit.resetAt fresh] in Hentry, Hle.
  rewrite Z.add_0_l in Hentry.
  split; [lia|]. split; [exact Hentry|]. split.
  - intros Htwo now Hnow.
    rewrite (checkRegistrationRateLimit_known now ip _ _ Hentry) by done.
    cbn [fst RegLimit.count]. rewrite Htwo. done.
  - intros now Hnow. unfold checkRegistrationRateLimit.
    rewrite Hentry. cbn zeta. rewrite Hentry. cbn [RegLimit.resetAt].
    rewrite (proj2 (Z.ltb_lt _ _)) by lia.
    by rewrite lookup_insert_eq.
Qed.

Lemma registration_limit_two_per_day_witness :
  (register_attempts
     [(1000, true); (5000, false); (2000, true); (3000, true);
      (86401000, true)] (str "10.0.0.1") ∅).1
  = [true; false; true; false; false]
  /\ (checkRegistrationRateLimit 86401001 (str "10.0.0.1")
        (register_attempts
           [(1000, true); (5000, false); (2000, true); (3000, true);
            (86401000, true)] (str "10.0.0.1") ∅).2).1
     = true.
Proof.
  split; [vm_compute; reflexivity|].
  pose proof (registration_limit_two_per_day (str "10.0.0.1") 1000 true
                [(5000, false); (2000, true); (3000, true); (86401000, true)]
                ∅ eq_refl) as Hrun.
  cbn zeta in Hrun. destruct Hrun as (_ & _ & _ & Hafter).
  - repeat constructor; vm_compute; discriminate.
  - apply Hafter. vm_compute. reflexivity.
Defined.

(** ** Bookmarks *)

(** [indexOf] and [splice] on an array without repetitions. *)
Lemma findIndex_delete_NoDup (x : Z) (l : list Z) :
  NoDup l ->
  match findIndex (fun p => bool_decide (p = x)) l with
  | None => x ∉ l
  | Some idx =>
      x ∈ l /\ (x ∉ delete idx l) /\ NoDup (delete idx l)
      /\ forall y, y <> x -> (y ∈ delete idx l <-> y ∈ l)
  end.
Proof.
  induction 1 as [|a l Ha Hl IH]; simpl; [apply not_elem_of_nil|].
  case_bool_decide as Hax.
  - subst a. simpl. split; [apply list_elem_of_here|].
    split; [done|]. split; [done|].
    intros y Hy. rewrite elem_of_cons. tauto.
  - destruct (findIndex _ l) as [idx|]; simpl.
    + destruct IH as (Hin & Hout & Hnd & Hiff).
      split; [by apply list_elem_of_further|].
      split; [rewrite elem_of_cons; intros [?|?]; congruence|].
      split.
      * constructor; [|done]. intros Hd.
        by apply list_elem_of_delete_inv in Hd.
      * intros y Hy. rewrite !elem_of_cons, (Hiff y Hy). tauto.
    + rewrite elem_of_cons. intros [?|?]; congruence.
Qed.

(** X14.  [toggleBookmark] toggles.  For a connected wallet whose
    bookmarks hold no post twice, the call answers [true] exactly when
    the post was not bookmarked, and exactly when it is bookmarked
    afterwards; the list still holds no post twice, no other post enters
    or leaves it, no other wallet's list changes, and the database is
    written once.  For a wallet that is not connected nothing happens. *)
Theorem toggleBookmark_toggles (w : list N) (postId : Z)
    (bookmarks : gmap (list N) (list Z)) (s : server) :
  w <> [] ->
  NoDup (default [] (bookmarks !! w)) ->
  let r := toggleBookmark (Str w) postId bookmarks s in
  let old := default [] (bookmarks !! w) in
  let new := default [] (r.1.2 !! w) in
  (r.1.1 = true <-> postId ∉ old)
  /\ (r.1.1 = true <-> postId ∈ new)
  /\ NoDup new
  /\ (forall q, q <> postId -> q ∈ new <-> q ∈ old)
  /\ (forall w', w' <> w -> r.1.2 !! w' = bookmarks !! w')
  /\ emitted s r.2 = [SaveDatabase]
  /\ (forall v, truthy v = false ->
        toggleBookmark v postId bookmarks s = (false, bookmarks, s)).
Proof.
  intros Hw Hnd r old new. subst r new. unfold toggleBookmark.
  destruct w as [|c t]; [done|]. fold old.
  pose proof (findIndex_delete_NoDup postId old Hnd) as Hfind.
  assert (Hfalsy : forall v, truthy v = false ->
            match v with
            | Str (c0 :: r0) =>
                match findIndex (fun p => bool_decide (p = postId))
                        (default [] (bookmarks !! (c0 :: r0))) with
                | Some idx =>
                    (false,
                     <[c0 :: r0 := delete idx
                                     (default [] (bookmarks !! (c0 :: r0)))]>
                       bookmarks, saveDatabase s)
                | None =>
                    (true,
                     <[c0 :: r0 := default [] (bookmarks !! (c0 :: r0))
                                   ++ [postId]]> bookmarks, saveDatabase s)
                end
            | _ => (false, bookmarks, s)
            end = (false, bookmarks, s)).
  { by intros [| |[|c0 r0]]. }
  destruct (findIndex _ old) as [idx|]; cbn [fst snd].
  - destruct Hfind as (Hin & Hout & Hnd' & Hiff).
    rewrite lookup_insert_eq. cbn [from_option Datatypes.id].
    split; [split; [done|tauto]|]. split; [split; [done|tauto]|].
    split; [done|]. split; [done|].
    split; [intros w' Hw'; by rewrite lookup_insert_ne|].
    split; [|done]. apply emitted_app. by fields.
  - rewrite lookup_insert_eq. cbn [from_option Datatypes.id].
    split; [done|].
    split; [split; [intros _|done];
            apply elem_of_app; right; apply list_elem_of_here|].
    split.
    { apply NoDup_app. split; [done|]. split; [|apply NoDup_singleton].
      intros x Hx Hx'. apply list_elem_of_singleton in Hx'. by subst. }
    split.
    { intros q Hq. rewrite elem_of_app, list_elem_of_singleton. tauto. }
    split; [intros w' Hw'; by rewrite lookup_insert_ne|].
    split; [|done]. apply emitted_app. by fields.
Qed.

Lemma toggleBookmark_toggles_witness :
  (toggleBookmark (Str (str "ABC123")) 5 {[ str "ABC123" := [1; 5; 9] ]}
     blank).1
  = (false, {[ str "ABC123" := [1; 9] ]})
  /\ NoDup ([1; 9] : list Z).
Proof.
  split; [vm_compute; reflexivity|].
  pose proof (toggleBookmark_toggles (str "ABC123") 5
                {[ str "ABC123" := [1; 5; 9] ]} blank ltac:(discriminate))
    as Hrun.
  cbn zeta in Hrun. destruct Hrun as (_ & _ & Hnd & _).
  - apply (bool_decide_unpack (NoDup [1; 5; 9])). vm_compute. exact I.
  - exact Hnd.
Defined.

(** ** Chat history and remembered facts *)

Lemma array_slice_last_snoc {A} (n : nat) (l : list A) (x : A) :
  (0 < n)%nat ->
  array_slice_last n (l ++ [x])
  = drop (length l + 1 - n)%nat l ++ [x].
Proof.
  intros Hn. unfold array_slice_last. rewrite length_app. simpl.
  rewrite drop_app_le by lia. done.
Qed.

(** X15.  The chat history of a wallet keeps the newest 50 entries.
    Whatever was stored, after [addChatHistory] the list ends with the new
    entry, is what was stored plus the new entry with the oldest dropped
    from the front, and has [min 50 (n + 1)] entries; no other wallet's
    history changes. *)
Theorem addChatHistory_keeps_newest (now : Z) (w role content : list N)
    (chatHistory : gmap (list N) (list ChatEntry.t)) (s : server) :
  w <> [] ->
  let entry := {| ChatEntry.role := role; ChatEntry.content := content;
                  ChatEntry.timestamp := now |} in
  let old := default [] (chatHistory !! w) in
  let r := addChatHistory now (Str w) role content chatHistory s in
  exists kept,
    r.1 !! w = Some kept
    /\ kept = drop (length old + 1 - 50)%nat old ++ [entry]
    /\ length kept = Nat.min 50 (length old + 1)
    /\ (forall w', w' <> w -> r.1 !! w' = chatHistory !! w')
    /\ emitted s r.2 = [SaveDatabase].
Proof.
  intros Hw entry old r. subst r. unfold addChatHistory.
  destruct w as [|c t]; [done|]. fold old entry. cbn zeta. cbn [fst snd].
  eexists. split; [apply lookup_insert_eq|].
  assert (Hkept : (if (50 <? length (old ++ [entry]))%nat
                   then array_slice_last 50 (old ++ [entry])
                   else old ++ [entry])
                  = drop (length old + 1 - 50)%nat old ++ [entry]).
  { rewrite array_slice_last_snoc by lia.
    destruct (50 <? _)%nat eqn:Hlen; [done|].
    apply Nat.ltb_ge in Hlen. rewrite length_app in Hlen. simpl in Hlen.
    replace (length old + 1 - 50)%nat with 0%nat by lia. done. }
  split; [exact Hkept|]. split.
  - rewrite Hkept, length_app, length_drop. cbn [length]. lia.
  - split; [intros w' Hw'; by rewrite lookup_insert_ne|].
    apply emitted_app. by fields.
Qed.

Lemma addChatHistory_keeps_newest_witness :
  exists kept,
    (addChatHistory 1000 (Str (str "ABC123")) (str "user") (str "gm")
       {[ str "ABC123" :=
            replicate 50 {| ChatEntry.role := str "assistant";
                            ChatEntry.content := str "hi";
                            ChatEntry.timestamp := 1 |} ]} blank).1
    !! str "ABC123" = Some kept
    /\ length kept = 50%nat.
Proof.
  destruct (addChatHistory_keeps_newest 1000 (str "ABC123") (str "user")
              (str "gm")
              {[ str "ABC123" :=
                   replicate 50 {| ChatEntry.role := str "assistant";
                                   ChatEntry.content := str "hi";
                                   ChatEntry.timestamp := 1 |} ]} blank)
    as (kept & Hkept & _ & Hlen & _); [discriminate|].
  exists kept. split; [exact Hkept|]. rewrite Hlen. reflexivity.
Defined.

(** X16.  Remembered facts.  For a wallet whose facts hold no fact twice,
    after [learnUserFact] the fact is among them, they still hold no fact
    twice, and there are at most 20 of them if there were at most 20; a
    fact that is already there changes neither the facts nor the state,
    and a new one is written to the database.  No other wallet's facts
    change. *)
Theorem learnUserFact_remembers (w fact : list N)
    (userFacts : gmap (list N) (list (list N))) (s : server) :
  w <> [] ->
  NoDup (default [] (userFacts !! w)) ->
  let old := default [] (userFacts !! w) in
  let r := learnUserFact (Str w) fact userFacts s in
  exists kept,
    r.1 !! w = Some kept
    /\ fact ∈ kept
    /\ NoDup kept
    /\ ((length old <= 20)%nat -> (length kept <= 20)%nat)
    /\ (fact ∈ old -> kept = old /\ r.2 = s)
    /\ (fact ∉ old -> emitted s r.2 = [SaveDatabase])
    /\ (forall w', w' <> w -> r.1 !! w' = userFacts !! w').
Proof.
  intros Hw Hnd old r. subst r. unfold learnUserFact.
  destruct w as [|c t]; [done|]. fold old. cbn zeta.
  case_bool_decide as Hin; cbn [fst snd].
  - exists old. split; [apply lookup_insert_eq|].
    split; [done|]. split; [done|]. split; [done|]. split; [done|].
    split; [done|]. intros w' Hw'. by rewrite lookup_insert_ne.
  - eexists. split; [apply lookup_insert_eq|].
    assert (Hkept : (if (20 <? length (old ++ [fact]))%nat
                     then array_slice_last 20 (old ++ [fact])
                     else old ++ [fact])
                    = drop (length old + 1 - 20)%nat old ++ [fact]).
    { rewrite array_slice_last_snoc by lia.
      destruct (20 <? _)%nat eqn:Hlen; [done|].
      apply Nat.ltb_ge in Hlen. rewrite length_app in Hlen. simpl in Hlen.
      replace (length old + 1 - 20)%nat with 0%nat by lia. done. }
    rewrite Hkept.
    split; [apply elem_of_app; right; apply list_elem_of_here|].
    split.
    { apply NoDup_app. split; [|split; [|apply NoDup_singleton]].
      - eapply sublist_NoDup; [exact Hnd|apply sublist_drop].
      - intros x Hx Hx'. apply list_elem_of_singleton in Hx'. subst x.
        apply Hin. eapply elem_of_submseteq; [exact Hx|].
        apply sublist_submseteq, sublist_drop. }
    split; [intros Hlen; rewrite length_app, length_drop; cbn [length]; lia|].
    split; [done|].
    split; [intros _; apply emitted_app; by fields|].
    intros w' Hw'. by rewrite lookup_insert_ne.
Qed.

Lemma learnUserFact_remembers_witness :
  exists kept,
    (learnUserFact (Str (str "ABC123")) (str "Name: Bo")
       {[ str "ABC123" := [str "Likes: bees"] ]} blank).1 !! str "ABC123"
    = Some kept
    /\ str "Name: Bo" ∈ kept.
Proof.
  destruct (learnUserFact_remembers (str "ABC123") (str "Name: Bo")
              {[ str "ABC123" := [str "Likes: bees"] ]} blank)
    as (kept & Hkept & Hin & _); [discriminate| |].
  - apply (bool_decide_unpack (NoDup [str "Likes: bees"])).
    vm_compute. exact I.
  - exists kept. split; [exact Hkept|exact Hin].
Defined.

(** ** What the two patterns capture *)

Lemma take_while_shape (X : N -> bool) (s : list N) :
  exists post,
    s = take_while X s ++ post
    /\ Forall (fun c => X c = true) (take_while X s)
    /\ (forall c rest, post = c :: rest -> X c = false).
Proof.
  induction s as [|c r (post & Heq & Hall & Hstop)]; simpl.
  - exists []. split; [done|]. split; [constructor|done].
  - destruct (X c) eqn:Hc.
    + exists post. split; [simpl; by rewrite <- Heq|].
      split; [by constructor|done].
    + exists (c :: r). split; [done|]. split; [constructor|].
      by intros ? ? [= <- <-].
Qed.

Lemma spaces_then_shape (X : N -> bool) (s capture : list N) :
  spaces_then X s = Some capture ->
  exists ws post,
    s = ws ++ capture ++ post
    /\ Forall (fun c => is_space c = true) ws
    /\ capture <> []
    /\ Forall (fun c => X c = true) capture
    /\ (forall c rest, post = c :: rest -> X c = false).
Proof.
  assert (Hgreedy : forall c r,
            X c = true ->
            exists post,
              c :: r = (c :: take_while X r) ++ post
              /\ Forall (fun c => X c = true) (c :: take_while X r)
              /\ (forall c rest, post = c :: rest -> X c = false)).
  { intros c r Hc.
    destruct (take_while_shape X r) as (post & Heq & Hall & Hstop).
    exists post. split; [simpl; by rewrite <- Heq|].
    split; [by constructor|done]. }
  revert capture. induction s as [|c r IH]; intros capture; simpl; [done|].
  destruct (is_space c) eqn:Hsp.
  - destruct (spaces_then X r) as [found|] eqn:Hr.
    + intros [= <-].
      destruct (IH found eq_refl) as (ws & post & -> & Hws & Hne & Hall & Hstop).
      exists (c :: ws), post. split; [done|]. split; [by constructor|done].
    + destruct (X c) eqn:Hc; [|done]. intros [= <-].
      destruct (Hgreedy c r Hc) as (post & Heq & Hall & Hstop).
      exists [], post. split; [exact Heq|]. split; [constructor|done].
  - destruct (X c) eqn:Hc; [|done]. intros [= <-].
    destruct (Hgreedy c r Hc) as (post & Heq & Hall & Hstop).
    exists [], post. split; [exact Heq|]. split; [constructor|done].
Qed.

(** A match of [/LIT\s*(X+)/i]: the literal in any letter case, white
    space, and the capture, which is a non-empty run of units of the class
    that cannot be extended. *)
Lemma match_marker_shape (lit : list N) (X : N -> bool)
    (txt capture : list N) :
  match_marker lit X txt = Some capture ->
  exists pre mid ws post,
    txt = pre ++ mid ++ ws ++ capture ++ post
    /\ map ascii_lower mid = map ascii_lower lit
    /\ Forall (fun c => is_space c = true) ws
    /\ capture <> []
    /\ Forall (fun c => X c = true) capture
    /\ (forall c rest, post = c :: rest -> X c = false).
Proof.
  assert (Hhere : forall t,
            match prefix_ci lit t with
            | Some rest => spaces_then X rest
            | None => None
            end = Some capture ->
            exists mid ws post,
              t = mid ++ ws ++ capture ++ post
              /\ map ascii_lower mid = map ascii_lower lit
              /\ Forall (fun c => is_space c = true) ws
              /\ capture <> []
              /\ Forall (fun c => X c = true) capture
              /\ (forall c rest, post = c :: rest -> X c = false)).
  { intros t Ht. destruct (prefix_ci lit t) as [rest|] eqn:Hp; [|done].
    destruct (prefix_ci_occurs _ _ _ Hp) as (mid & -> & Hmid).
    destruct (spaces_then_shape X rest capture Ht)
      as (ws & post & -> & Hws & Hne & Hall & Hstop).
    by exists mid, ws, post. }
  induction txt as [|c txt IH]; cbn [match_marker]; intros H.
  - destruct (match prefix_ci lit [] with
              | Some rest => spaces_then X rest
              | None => None
              end) as [found|] eqn:Hm; [|done].
    injection H as ->.
    destruct (Hhere [] Hm) as (mid & ws & post & Heq & Hrest).
    by exists [], mid, ws, post.
  - destruct (match prefix_ci lit (c :: txt) with
              | Some rest => spaces_then X rest
              | None => None
              end) as [found|] eqn:Hm.
    + injection H as ->.
      destruct (Hhere (c :: txt) Hm) as (mid & ws & post & Heq & Hrest).
      by exists [], mid, ws, post.
    + destruct (IH H) as (pre & mid & ws & post & -> & Hrest).
      by exists (c :: pre), mid, ws, post.
Qed.

(** X17.  What the generator takes from a generated text.  The title is
    a non-empty piece of one line: it follows a [TITLE:] marker (in any
    letter case) and white space, holds no line terminator, and ends at
    the end of the text or at a line terminator.  The content follows a
    [CONTENT:] marker and white space, is non-empty, and runs to the very
    end of the text. *)
Theorem title_is_one_line_content_runs_on (txt tm cm : list N) :
  match_title txt = Some tm ->
  match_content txt = Some cm ->
  (tm <> []
   /\ Forall (fun c => is_line_terminator c = false) tm
   /\ exists pre mid ws post,
        txt = pre ++ mid ++ ws ++ tm ++ post
        /\ map ascii_lower mid = str "title:"
        /\ Forall (fun c => is_space c = true) ws
        /\ (forall c rest, post = c :: rest -> is_line_terminator c = true))
  /\ (cm <> []
      /\ exists pre mid ws,
           txt = pre ++ mid ++ ws ++ cm
           /\ map ascii_lower mid = str "content:"
           /\ Forall (fun c => is_space c = true) ws).
Proof.
  intros Ht Hc. split.
  - destruct (match_marker_shape _ _ _ _ Ht)
      as (pre & mid & ws & post & Heq & Hmid & Hws & Hne & Hall & Hstop).
    split; [done|]. split.
    + eapply Forall_impl; [exact Hall|]. intros c. simpl.
      by destruct (is_line_terminator c).
    + exists pre, mid, ws, post. split; [done|]. split; [done|].
      split; [done|]. intros c rest Hpost.
      specialize (Hstop c rest Hpost). simpl in Hstop.
      by destruct (is_line_terminator c).
  - destruct (match_marker_shape _ _ _ _ Hc)
      as (pre & mid & ws & post & Heq & Hmid & Hws & Hne & Hall & Hstop).
    split; [done|]. exists pre, mid, ws.
    destruct post as [|c rest]; [by rewrite app_nil_r in Heq|].
    by specialize (Hstop c rest eq_refl).
Qed.

Lemma title_is_one_line_content_runs_on_witness :
  match_title (str "Title:  hello world" ++ [10%N] ++ str "CONTENT: body")
  = Some (str "hello world")
  /\ Forall (fun c => is_line_terminator c = false) (str "hello world").
Proof.
  destruct (title_is_one_line_content_runs_on
              (str "Title:  hello world" ++ [10%N] ++ str "CONTENT: body")
              (str "hello world") (str "body"))
    as [(_ & Hline & _) _]; [vm_compute; reflexivity..|].
  split; [vm_compute; reflexivity|exact Hline].
Defined.

(** ** The agent list *)

Lemma insert_by_karma_perm (x : Agent.t) (l : list Agent.t) :
  insert_by_karma x l ≡ₚ x :: l.
Proof.
  induction l as [|y l IH]; simpl; [done|].
  destruct (_ <? _); [|done]. rewrite IH. apply Permutation_swap.
Qed.

Lemma sort_by_karma_perm (l : list Agent.t) : sort_by_karma l ≡ₚ l.
Proof.
  unfold sort_by_karma. induction l as [|x l IH]; simpl; [done|].
  by rewrite insert_by_karma_perm, IH.
Qed.

Lemma insert_by_karma_sorted (x : Agent.t) (l : list Agent.t) :
  karma_descending l -> karma_descending (insert_by_karma x l).
Proof.
  induction l as [|y l IH]; simpl; [by split|].
  intros [Hy Hl].
  destruct (Agent.karma x <? Agent.karma y) eqn:Hlt.
  - apply Z.ltb_lt in Hlt. simpl. split; [|by apply IH].
    rewrite insert_by_karma_perm. constructor; [lia|done].
  - apply Z.ltb_ge in Hlt. simpl. split; [|by split].
    constructor; [done|]. eapply Forall_impl; [exact Hy|]. simpl. lia.
Qed.

(** X18.  The agent list handed to the name check and to the clients
    holds exactly the built-in agents, the user agents and the active
    registered agents (each once for each time it is stored; an inactive
    registered agent is not in it), in descending order of karma. *)
Theorem getAllAgentsWithRegistered_sorted (s : server) :
  let all := getAllAgentsWithRegistered s in
  all ≡ₚ agents s
         ++ (if UserAgents.isArray (userAgents s)
             then UserAgents.items (userAgents s)
             else UserAgents.values (userAgents s))
         ++ map registeredAgentToInternal
              (filter (fun a => RegAgent.active a = true)
                 (map snd (registeredAgents s)))
  /\ (forall i j a b, (i < j)%nat -> all !! i = Some a -> all !! j = Some b ->
        Agent.karma b <= Agent.karma a).
Proof.
  intros all. subst all. unfold getAllAgentsWithRegistered.
  split; [apply sort_by_karma_perm|].
  match goal with
  | |- context [sort_by_karma ?l] => generalize l
  end.
  intros l.
  assert (Hs : karma_descending (sort_by_karma l)).
  { unfold sort_by_karma. induction l as [|x l IH]; simpl; [done|].
    by apply insert_by_karma_sorted. }
  revert Hs. generalize (sort_by_karma l). clear l. intros l.
  induction l as [|x l IH]; intros Hs i j a b Hij Hi Hj; [done|].
  destruct Hs as [Hx Hl].
  destruct j as [|j]; [lia|]. simpl in Hj.
  destruct i as [|i]; simpl in Hi.
  - injection Hi as <-. rewrite Forall_forall in Hx.
    apply Hx. by eapply list_elem_of_lookup_2.
  - apply (IH Hl i j); [lia|done|done].
Qed.

Lemma getAllAgentsWithRegistered_sorted_witness :
  let s := set_agents (agents one_agent) with_api_agent in
  map Agent.name (getAllAgentsWithRegistered s) = [str "SNAI"; str "Helper"]
  /\ (forall i j a b, (i < j)%nat ->
        getAllAgentsWithRegistered s !! i = Some a ->
        getAllAgentsWithRegistered s !! j = Some b ->
        Agent.karma b <= Agent.karma a).
Proof.
  intros s. split; [vm_compute; reflexivity|].
  pose proof (getAllAgentsWithRegistered_sorted s) as Hrun.
  cbn zeta in Hrun. by destruct Hrun as [_ Hsorted].
Defined.

(** ** Requests from a socket with no wallet *)

Section Sockets.

Variable toLowerCase : list N -> list N.
Variable toUpperCase : list N -> list N.

(** X20.  A socket that has no wallet (an unknown socket, or a session
    whose wallet is the empty string) cannot post, vote or deploy an
    agent: the whole effect of such a message is one error frame
    ['Connect wallet'] to that socket.  No user record is made for it,
    nothing is stored and nothing is broadcast. *)
Theorem no_wallet_no_action (now : Z) (ca : list N) (ws : nat)
    (msg : message) (s : server) :
  truthy (session_wallet ws s) = false ->
  (forall postId, msg <> MsgDeletePost postId) ->
  on_message toLowerCase toUpperCase now ca ws msg s
  = set_trace (trace s ++ [Stringify (EvError (str "Connect wallet"));
                           Send ws (EvError (str "Connect wallet"))]) s.
Proof.
  intros Hfalsy Hmsg. unfold on_message.
  assert (Hsame : getUser now (session_wallet ws s) s = s).
  { by destruct (session_wallet ws s) as [| |[|c r]]. }
  rewrite Hsame.
  assert (Hsend : send ws (EvError (str "Connect wallet")) s
                  = set_trace (trace s
                               ++ [Stringify (EvError (str "Connect wallet"));
                                   Send ws (EvError (str "Connect wallet"))])
                      s).
  { unfold send, emit. simpl. by rewrite <- app_assoc. }
  rewrite <- Hsend.
  destruct msg as [hive title content|postId direction|postId|data].
  - unfold on_new_post. by destruct (session_wallet ws s) as [| |[|c r]].
  - unfold on_vote. by destruct (session_wallet ws s) as [| |[|c r]].
  - by destruct (Hmsg postId).
  - unfold on_create_agent. by destruct (session_wallet ws s) as [| |[|c r]].
Qed.

End Sockets.

Lemma no_wallet_no_action_witness :
  on_message lower upper 1000 [] 9 (MsgVote 5 1) two_posts
  = set_trace [Stringify (EvError (str "Connect wallet"));
               Send 9 (EvError (str "Connect wallet"))] two_posts.
Proof.
  apply (no_wallet_no_action lower upper 1000 [] 9 (MsgVote 5 1) two_posts).
  - reflexivity.
  - discriminate.
Defined.

(** ** What a post does for its author *)

(** X21.  A post that the rate limiter lets through is worth one karma.
    The message carries a community, a title and a content that are each
    a string, [null] or absent; the author's wallet and the community are
    not names that a plain object inherits, and the author's karma and
    post count are inside the range of [2 ^ 53] in which adding 1 is
    exact.  The author's record gains 1 karma and 1 in [postCount], no
    other user's record changes, and the author's interest in the post's
    community is counted once more.  The stored title and content are
    never longer than 200 and 2000 code units, and a missing title or
    community is stored as ['Untitled'] and ['c/general']. *)
Theorem new_post_rewards_author (now : Z) (ws : nat) (w : list N)
    (hive title content : value) (u : User.t) (s : server) :
  w <> [] -> plain_key w = true ->
  (checkRateLimit now (Str w) (rateLimitMap s)).1 = Allowed ->
  users s !! w = Some u ->
  Z.abs (User.karma u) < 2 ^ 53 -> Z.abs (User.postCount u) < 2 ^ 53 ->
  let s' := on_new_post now ws (Str w) hive title content s in
  users s'
  = <[w := User.with_karma (User.karma u + 1)
             (User.with_postCount (User.postCount u + 1) u)]> (users s)
  /\ (exists post,
        head (posts s') = Some post
        /\ (length (Post.title post) <= 200)%nat
        /\ (length (Post.content post) <= 2000)%nat
        /\ (truthy title = false -> Post.title post = str "Untitled")
        /\ (truthy hive = false -> Post.hive post = Some (str "c/general")))
  /\ (forall k, hive = Str k -> k <> [] -> plain_key k = true ->
        Z.abs (default 0 (default ∅ (topicInterests s !! w) !! k)) < 2 ^ 53 ->
        exists mine,
          topicInterests s' !! w = Some mine
          /\ mine !! k
             = Some (default 0 (default ∅ (topicInterests s !! w) !! k) + 1)).
Proof.
  intros Hw _ Hcheck Hu _ _ s'.
  destruct (checkRateLimit now (Str w) (rateLimitMap s)) as [rc m] eqn:Hc.
  simpl in Hcheck. subst rc.
  subst s'. unfold on_new_post. destruct w as [|c r]; [done|].
  rewrite Hc. cbn zeta. rewrite !broadcast_trace, human_post_rate_frame.
  assert (Halter : alter (fun u0 =>
                            User.with_karma (User.karma u0 + 1)
                              (User.with_postCount (User.postCount u0 + 1) u0))
                     (c :: r) (users s)
                   = <[c :: r := User.with_karma (User.karma u + 1)
                                   (User.with_postCount (User.postCount u + 1)
                                      u)]> (users s)).
  { apply map_eq. intros k. destruct (decide (k = c :: r)) as [->|Hne].
    - by rewrite lookup_alter_eq, lookup_insert_eq, Hu.
    - by rewrite lookup_alter_ne, lookup_insert_ne. }
  split; [|split].
  - fields. unfold trackTopicInterest.
    by destruct hive as [| |[|d t]]; fields.
  - eexists. split.
    + fields. unfold trackTopicInterest.
      by destruct hive as [| |[|d t]]; fields.
    + cbn [human_post Post.title Post.content Post.hive].
      unfold slice0. rewrite !length_take.
      split; [lia|]. split; [lia|].
      split; [by destruct title as [| |[|d t]]|].
      by destruct hive as [| |[|d t]].
  - intros k -> Hk _ _. destruct k as [|d t]; [done|].
    fields. unfold trackTopicInterest. fields.
    eexists. split; [apply lookup_insert_eq|].
    by rewrite lookup_insert_eq.
Qed.

Lemma new_post_rewards_author_witness :
  User.karma
    <$> users (on_new_post 1000 7 (Str (str "POOR01")) Undefined Undefined
                 (Str (str "gm")) with_members) !! str "POOR01"
  = Some 4.
Proof.
  destruct (new_post_rewards_author 1000 7 (str "POOR01") Undefined Undefined
              (Str (str "gm")) (member (str "POOR01") 3) with_members)
    as (Husers & _);
    [discriminate|reflexivity|reflexivity|reflexivity|cbn; lia|cbn; lia|].
  rewrite Husers, lookup_insert_eq. reflexivity.
Defined.

(** ** Deploying an agent over the socket *)

Section Deploying.

Variable toLowerCase : list N -> list N.
Variable toUpperCase : list N -> list N.

(** X22.  What a successful [createUserAgent] does.  The new agent gets
    the id the counter held and the counter moves on by one; it is
    appended to the user agents, starts with 10 karma and names the
    wallet as its creator.  The creator had at least 50 karma, gains 20,
    and 50 more when this unlocks ['deploy_agent'] for the wallet; the
    id is appended to the creator's [agentsCreated]; and the last thing
    done is to arm the timer of the agent's first post. *)
Theorem createUserAgent_rewards (now : Z) (ca w : list N)
    (data : AgentData.t) (a : Agent.t) (s s1 : server) :
  createUserAgent toLowerCase toUpperCase now ca (Str w) data s
  = (CreateSuccess a, s1) ->
  Agent.id a = IdNum (nextAgentId s)
  /\ nextAgentId s1 = nextAgentId s + 1
  /\ Agent.karma a = 10
  /\ Agent.creatorWallet a = Str w
  /\ UserAgents.items (userAgents s1) = UserAgents.items (userAgents s) ++ [a]
  /\ last (trace s1) = Some (SetTimeoutIntroPost a 2000)
  /\ exists ug u1,
       users (getUser now (Str w) s) !! w = Some ug
       /\ 50 <= User.karma ug
       /\ users s1 !! w = Some u1
       /\ User.agentsCreated u1 = User.agentsCreated ug ++ [nextAgentId s]
       /\ (User.karma u1 = User.karma ug + 20
           \/ User.karma u1 = User.karma ug + 70).
Proof.
  unfold createUserAgent.
  destruct w as [|c r]; [done|].
  set (sg := getUser now (Str (c :: r)) s).
  destruct (people_only_fields s sg (people_only_getUser _ _ _))
    as (_ & _ & _ & Hua & Hnext & _).
  destruct (getUser_registered now (c :: r) s) as [ug Hug]; [done|].
  fold sg in Hug. rewrite Hug. cbn [fmap option_fmap option_map from_option].
  destruct (_ <? 50) eqn:Hkarma; [done|]. apply Z.ltb_ge in Hkarma.
  destruct (bad_length (AgentData.name data) 2 20); [done|].
  destruct (bad_length (AgentData.ticker data) 2 6); [done|].
  destruct (too_short (AgentData.description data) 10); [done|].
  destruct (find _ (getAllAgentsWithRegistered sg)); [done|].
  fields.
  destruct (UserAgents.isArray (userAgents sg)); [|done].
  cbn [negb]. intros Heq. inversion Heq as [[Ha Hs]]. clear Heq.
  assert (Hfacts : Agent.id a = IdNum (nextAgentId s)
                   /\ Agent.karma a = 10
                   /\ Agent.creatorWallet a = Str (c :: r)).
  { rewrite <- Ha. cbn [Agent.id Agent.karma Agent.creatorWallet].
    by rewrite Hnext. }
  destruct Hfacts as (Hid & Hk10 & Hcw).
  rewrite Ha.
  match goal with
  | |- context [unlockAchievement now (c :: r) ?aid ?x] =>
      set (s4 := x) in *;
      destruct (unlockAchievement_users_cases now (c :: r) aid s4)
        as [Hu|(achDef & Hdef & Hu)];
      pose proof (people_only_fields _ _
                    (people_only_unlockAchievement now (c :: r) aid s4))
        as (_ & _ & _ & Hua5 & Hnext5 & _);
      set (s5 := unlockAchievement now (c :: r) aid s4) in *
  end.
  all: match goal with
       | |- context [addActivity ?n ?t ?ac ?g ?co ?x] =>
           destruct (addActivity_frame n t ac g co x) as (new6 & act & ->)
       end.
  all: rewrite !broadcast_trace; fields.
  all: rewrite Hua5, Hnext5; subst s4; fields.
  all: rewrite Hua, Hnext.
  all: split; [done|].
  all: split; [done|]. all: split; [done|].
  all: split; [done|]. all: split; [done|].
  all: split; [apply last_snoc|].
  all: exists ug; eexists; split; [done|]; split; [done|].
  all: rewrite Hu; fields.
  - rewrite lookup_alter_eq, Hug. cbn [fmap option_fmap option_map].
    split; [reflexivity|]. split; [simpl; by rewrite Hnext|]. by left.
  - rewrite !lookup_alter_eq, Hug. cbn [fmap option_fmap option_map].
    split; [reflexivity|]. split; [simpl; by rewrite Hnext|]. right.
    vm_compute in Hdef. injection Hdef as <-. simpl. lia.
Qed.

End Deploying.

Lemma createUserAgent_rewards_witness :
  exists a s1,
    createUserAgent lower upper 1000 [] (Str (str "RICH01"))
      (scout_data "Scout") with_members = (CreateSuccess a, s1)
    /\ Agent.id a = IdNum 100
    /\ nextAgentId s1 = 101.
Proof.
  destruct (createUserAgent lower upper 1000 [] (Str (str "RICH01"))
              (scout_data "Scout") with_members) as [[error|a|] s1] eqn:Hrun;
    try (vm_compute in Hrun; discriminate Hrun).
  exists a, s1. split; [reflexivity|].
  destruct (createUserAgent_rewards lower upper 1000 [] (str "RICH01")
              (scout_data "Scout") a with_members s1 Hrun)
    as (Hid & Hnext & _).
  split; [exact Hid|exact Hnext].
Defined.

(** ** The limits of the REST registration *)

Lemma on_new_post_limits now ws uw hive title content s :
  limitsByWallet (on_new_post now ws uw hive title content s)
  = limitsByWallet s.
Proof.
  unfold on_new_post.
  destruct uw as [| |[|c r]]; try done;
    destruct (checkRateLimit _ _ _) as [[|waitTime] m]; try done;
    rewrite !broadcast_trace; unfold trackTopicInterest;
    by destruct hive as [| |[|d t]].
Qed.

Lemma on_vote_limits ws uw postId direction s :
  limitsByWallet (on_vote ws uw postId direction s) = limitsByWallet s.
Proof.
  unfold on_vote.
  destruct uw as [| |[|c r]]; try done;
    destruct (find _ (posts s)) as [p|]; try done;
    cbn zeta; rewrite broadcast_trace;
    by destruct (Post.wallet p) as [| |[|d t]].
Qed.

Lemma on_delete_post_limits uw postId s :
  limitsByWallet (on_delete_post uw postId s) = limitsByWallet s.
Proof.
  unfold on_delete_post.
  destruct (findIndex _ (posts s)) as [idx|]; try done;
    destruct (posts s !! idx) as [p|]; try done;
    destruct (strict_eq _ _); try done;
    by rewrite !broadcast_trace.
Qed.

Lemma agents_vote_limits now api_key post_id direction s :
  limitsByWallet (agents_vote now api_key post_id direction s)
  = limitsByWallet s.
Proof.
  unfold agents_vote.
  repeat case_match; try done; by rewrite broadcast_trace.
Qed.

Lemma generateKrabPost_limits now rv i hive g s :
  limitsByWallet (generateKrabPost now rv i hive g s) = limitsByWallet s.
Proof.
  unfold generateKrabPost.
  repeat case_match; try done. by rewrite !broadcast_trace.
Qed.

Lemma registeredAgentVote_limits now ra rp up s :
  limitsByWallet (registeredAgentVote now ra rp up s) = limitsByWallet s.
Proof.
  unfold registeredAgentVote.
  destruct (_ || _); [done|].
  destruct (getActiveRegisteredAgents s !! ra) as [agent|]; [|done].
  destruct (take 30 (posts s) !! rp) as [post|]; [|done].
  destruct (bool_decide (current_vote _ post = 0)); [|done].
  by rewrite broadcast_trace.
Qed.

Section RestLimits.

Variable toLowerCase : list N -> list N.
Variable toUpperCase : list N -> list N.
Variable fullPersonality :
  value -> list N -> value -> option (list (list N)) -> list N -> list N.

Lemma on_create_agent_limits now ca ws uw data s :
  limitsByWallet (on_create_agent toLowerCase toUpperCase now ca ws uw data s)
  = limitsByWallet s.
Proof.
  unfold on_create_agent.
  destruct uw as [| |[|c r]]; try done.
  assert (Hk : limitsByWallet
                 (createUserAgent toLowerCase toUpperCase now ca
                    (Str (c :: r)) data s).2 = limitsByWallet s).
  { unfold createUserAgent.
    set (sg := getUser now (Str (c :: r)) s).
    assert (Hg : limitsByWallet sg = limitsByWallet s).
    { by destruct (people_only_fields s sg (people_only_getUser _ _ _))
        as (_ & _ & _ & _ & _ & _ & _ & _ & ? & _). }
    repeat (match goal with
            | |- context [if ?b then (CreateError _, sg) else _] => destruct b
            end; [exact Hg|]).
    fields. destruct (UserAgents.isArray (userAgents sg));
      cbn [negb snd]; [|exact Hg].
    match goal with
    | |- limitsByWallet (emit ?e ?x) = _ =>
        match x with
        | context [set_userAgents ?u ?base] =>
            assert (Hp : people_only (set_userAgents u base) (emit e x))
              by people
        end
    end.
    apply people_only_fields in Hp
      as (_ & _ & _ & _ & _ & _ & _ & _ & Hlw & _).
    by rewrite Hlw. }
  destruct (createUserAgent _ _ _ _ _ _ s) as [[error|agent|] s1];
    simpl in Hk; by rewrite <- Hk.
Qed.

(** The wallet table changes only at the wallet of the request, and only
    where it held nothing truthy. *)
Lemma user_agents_create_wallet_kept now agentId clientIP wallet name
    personality description topics (w id : list N) s :
  limitsByWallet s !! w = Some id -> id <> [] ->
  limitsByWallet
    (user_agents_create toLowerCase fullPersonality now agentId clientIP
       wallet name personality description topics s) !! w = Some id.
Proof.
  intros Hw Hid. unfold user_agents_create.
  destruct (too_short wallet 32); [done|].
  destruct (bad_length name 2 20); [done|].
  destruct (limitsByWallet s !! or_str wallet []) as [[|i id']|] eqn:Hw';
    try done.
  all: assert (Hne : or_str wallet [] <> w)
         by (intros Heq; rewrite Heq, Hw in Hw'; by destruct id).
  all: match goal with
       | |- context [if ?b then emit (Respond 429 _) _ else _] =>
           destruct b; [done|]
       end.
  all: match goal with
       | |- context [existsb ?f (UserAgents.values (userAgents ?x) ++ _)] =>
           destruct (existsb f (UserAgents.values (userAgents x) ++ agents x));
           [by destruct (limitsByIP s !! clientIP) as [[? ?]|];
               repeat case_match|]
       end.
  all: destruct (default (now, 0) _) as [timestamp count].
  all: rewrite broadcast_trace; fields.
  all: rewrite lookup_insert_ne by done.
  all: by destruct (limitsByIP s !! clientIP) as [[? ?]|]; repeat case_match.
Qed.

(** A 200 from the endpoint means the wallet has been entered in the
    wallet table under the agent's id. *)
Lemma user_agents_create_registers now agentId clientIP (w : list N) name
    personality description topics s sm :
  last (trace (user_agents_create toLowerCase fullPersonality now agentId
                 clientIP (Str w) name personality description topics s))
  = Some (Respond 200 (ReplyDeployed sm)) ->
  limitsByWallet
    (user_agents_create toLowerCase fullPersonality now agentId clientIP
       (Str w) name personality description topics s) !! w = Some agentId
  /\ too_short (Str w) 32 = false.
Proof.
  unfold user_agents_create.
  destruct (too_short (Str w) 32) eqn:Hshort;
    [fields; by rewrite last_snoc|].
  assert (Hor : or_str (Str w) [] = w) by (by destruct w).
  rewrite Hor.
  destruct (bad_length name 2 20) eqn:Hname;
    [fields; by rewrite last_snoc|].
  destruct (limitsByWallet s !! w) as [[|i id]|] eqn:Hw;
    try (fields; by rewrite last_snoc).
  all: match goal with
       | |- context [if ?b then emit (Respond 429 _) _ else _] =>
           destruct b; [fields; by rewrite last_snoc|]
       end.
  all: match goal with
       | |- context [existsb _ (UserAgents.values (userAgents ?x) ++ _)] =>
           set (sr := x)
       end.
  all: destruct (existsb _ _); [fields; by rewrite last_snoc|].
  all: destruct (default (now, 0) _) as [timestamp count].
  all: rewrite broadcast_trace; fields; intros _.
  all: by rewrite lookup_insert_eq.
Qed.

(** X24.  One agent per wallet.  Once the REST endpoint has answered 200
    to a wallet (with a non-empty agent id, as the ids it draws are), then
    after any run of socket messages, generated posts, votes and further
    REST registrations every request for that wallet that gets past the
    two length checks is answered 400 ['This wallet already has an agent']
    and changes nothing but the trace. *)
Theorem one_agent_per_wallet (now : Z) (agentId clientIP w : list N)
    (name personality description : value) (topics : option (list (list N)))
    (sm : AgentSummary.t) (s0 s' : server) :
  let s1 := user_agents_create toLowerCase fullPersonality now agentId
              clientIP (Str w) name personality description topics s0 in
  last (trace s1) = Some (Respond 200 (ReplyDeployed sm)) ->
  agentId <> [] ->
  rtc (turn toLowerCase toUpperCase fullPersonality) s1 s' ->
  limitsByWallet s' !! w = Some agentId
  /\ forall later agentId2 clientIP2 name2 personality2 description2 topics2,
       bad_length name2 2 20 = false ->
       exists existing,
         user_agents_create toLowerCase fullPersonality later agentId2
           clientIP2 (Str w) name2 personality2 description2 topics2 s'
         = emit (Respond 400
                   (ReplyWalletHasAgent
                      (str "This wallet already has an agent") existing)) s'.
Proof.
  intros s1 Hok Hid Hrun.
  destruct (user_agents_create_registers _ _ _ _ _ _ _ _ _ _ Hok)
    as [Hreg Hlong].
  fold s1 in Hreg.
  assert (Hkept : limitsByWallet s' !! w = Some agentId).
  { clear Hok. induction Hrun as [s|sa sb sc Hturn _ IH]; [done|].
    apply IH. destruct Hturn as [sa sb Hstep|t ra rp up sa].
    - destruct Hstep.
      + unfold on_message.
        destruct (people_only_fields _ _
                    (people_only_getUser now0 (session_wallet ws s) s))
          as (_ & _ & _ & _ & _ & _ & _ & _ & Hlw & _).
        destruct msg.
        * by rewrite on_new_post_limits, Hlw.
        * by rewrite on_vote_limits, Hlw.
        * by rewrite on_delete_post_limits, Hlw.
        * by rewrite on_create_agent_limits, Hlw.
      + by rewrite generateKrabPost_limits.
      + by rewrite agents_vote_limits.
      + by apply user_agents_create_wallet_kept.
    - by rewrite registeredAgentVote_limits. }
  split; [done|].
  intros later agentId2 clientIP2 name2 personality2 description2 topics2
         Hname2.
  unfold user_agents_create. rewrite Hlong, Hname2.
  assert (Hor : or_str (Str w) [] = w) by (by destruct w).
  rewrite Hor, Hkept. destruct agentId as [|i id]; [done|]. by eexists.
Qed.

(** X25.  One agent per address and day, for an address (the first entry
    of [X-Forwarded-For], or the socket's) that is not a name a plain
    object inherits.  When the endpoint answers 200 to an address the
    address table did not know, the table holds the clock reading and the
    count 1 for the address, and a request from the same address less than
    24 hours later, for a wallet that has no agent and with lengths that
    pass, is answered 429 and changes nothing but the trace. *)
Theorem one_agent_per_address_per_day (now later : Z)
    (agentId agentId2 clientIP : list N)
    (wallet name personality description : value)
    (wallet2 name2 personality2 description2 : value)
    (topics topics2 : option (list (list N)))
    (sm : AgentSummary.t) (s0 : server) :
  plain_key clientIP = true ->
  let s1 := user_agents_create toLowerCase fullPersonality now agentId
              clientIP wallet name personality description topics s0 in
  last (trace s1) = Some (Respond 200 (ReplyDeployed sm)) ->
  limitsByIP s0 !! clientIP = None ->
  later - now < dayMs ->
  too_short wallet2 32 = false ->
  bad_length name2 2 20 = false ->
  limitsByWallet s1 !! or_str wallet2 [] = None ->
  limitsByIP s1 !! clientIP = Some (now, 1)
  /\ user_agents_create toLowerCase fullPersonality later agentId2 clientIP
       wallet2 name2 personality2 description2 topics2 s1
     = emit (Respond 429
               (ReplyError
                  (str "Only 1 agent per IP per day. Try again later or use a different wallet.")))
            s1.
Proof.
  intros _ s1 Hok Hip Hlater Hlong2 Hname2 Hfree.
  assert (Hentry : limitsByIP s1 !! clientIP = Some (now, 1)).
  { revert Hok. subst s1. unfold user_agents_create.
    destruct (too_short wallet 32); [fields; by rewrite last_snoc|].
    destruct (bad_length name 2 20); [fields; by rewrite last_snoc|].
    rewrite Hip.
    destruct (limitsByWallet s0 !! or_str wallet []) as [[|i id]|];
      try (fields; by rewrite last_snoc).
    all: destruct (existsb _ _); [fields; by rewrite last_snoc|].
    all: fields; rewrite Hip; cbn [from_option Datatypes.id].
    all: rewrite broadcast_trace; fields; intros _.
    all: by rewrite lookup_insert_eq. }
  split; [done|].
  unfold user_agents_create. rewrite Hlong2, Hname2, Hfree, Hentry.
  rewrite (proj2 (Z.ltb_lt _ _) Hlater). done.
Qed.

End RestLimits.

Lemma one_agent_per_wallet_witness :
  limitsByWallet scout_deployed_by_rest !! long_wallet "1"
  = Some (str "user_abc123")
  /\ exists existing,
       user_agents_create lower no_persona 5000 (str "user_zzz") (str "10.9.9.9")
         (Str (long_wallet "1")) (Str (str "Drone")) Undefined Undefined None
         scout_deployed_by_rest
       = emit (Respond 400
                 (ReplyWalletHasAgent
                    (str "This wallet already has an agent") existing))
              scout_deployed_by_rest.
Proof.
  destruct (one_agent_per_wallet lower upper no_persona 1000
              (str "user_abc123") (str "10.0.0.1") (long_wallet "1")
              (Str (str "Scout")) Undefined Undefined None
              {| AgentSummary.id := IdStr (str "user_abc123");
                 AgentSummary.name := str "Scout";
                 AgentSummary.handle := str "scout";
                 AgentSummary.wallet := Str (long_wallet "1");
                 AgentSummary.walletShort := Some (str "So1a...0001");
                 AgentSummary.personalityType := Some (str "friendly");
                 AgentSummary.karma := 10 |}
              with_members scout_deployed_by_rest)
    as [Hkept Hrefused].
  - vm_compute. reflexivity.
  - discriminate.
  - apply rtc_refl.
  - split; [exact Hkept|].
    apply (Hrefused 5000 (str "user_zzz") (str "10.9.9.9") (Str (str "Drone"))
             Undefined Undefined None).
    reflexivity.
Defined.

Lemma one_agent_per_address_per_day_witness :
  limitsByIP scout_deployed_by_rest !! str "10.0.0.1" = Some (1000, 1)
  /\ last (trace
             (user_agents_create lower no_persona 5000 (str "user_zzz")
                (str "10.0.0.1") (Str (long_wallet "2")) (Str (str "Drone"))
                Undefined Undefined None scout_deployed_by_rest))
     = Some (Respond 429
               (ReplyError
                  (str "Only 1 agent per IP per day. Try again later or use a different wallet."))).
Proof.
  destruct (one_agent_per_address_per_day lower no_persona 1000 5000
              (str "user_abc123") (str "user_zzz") (str "10.0.0.1")
              (Str (long_wallet "1")) (Str (str "Scout")) Undefined Undefined
              (Str (long_wallet "2")) (Str (str "Drone")) Undefined Undefined
              None None
              {| AgentSummary.id := IdStr (str "user_abc123");
                 AgentSummary.name := str "Scout";
                 AgentSummary.handle := str "scout";
                 AgentSummary.wallet := Str (long_wallet "1");
                 AgentSummary.walletShort := Some (str "So1a...0001");
                 AgentSummary.personalityType := Some (str "friendly");
                 AgentSummary.karma := 10 |}
              with_members)
    as [Hentry Hrefused]; try (vm_compute; reflexivity).
  split; [exact Hentry|].
  unfold scout_deployed_by_rest. rewrite Hrefused. apply last_snoc.
Defined.

(** ** The sliding window of the rate limiter *)

Lemma nondecreasing_snoc (l : list Z) (t : Z) :
  nondecreasing l -> Forall (fun a => a <= t) l -> nondecreasing (l ++ [t]).
Proof.
  induction l as [|a l IH]; simpl; [by split|].
  intros [Ha Hl] Hall. apply Forall_cons in Hall as [Hat Hlt].
  split; [|by apply IH].
  apply Forall_app. split; [done|]. by constructor.
Qed.

Lemma nondecreasing_lookup (l : list Z) (i j : nat) (a b : Z) :
  nondecreasing l -> (i <= j)%nat -> l !! i = Some a -> l !! j = Some b ->
  a <= b.
Proof.
  revert i j. induction l as [|x l IH]; intros i j Hl Hij Hi Hj; [done|].
  destruct Hl as [Hx Hl].
  destruct i as [|i], j as [|j]; simpl in *; try lia.
  - injection Hi as <-. injection Hj as <-. lia.
  - injection Hi as <-. rewrite Forall_forall in Hx. apply Hx.
    by eapply list_elem_of_lookup_2.
  - apply (IH i j); [done|lia|done|done].
Qed.

Lemma filter_window_twice (earlier now : Z) (l : list Z) :
  earlier <= now ->
  filter (fun t => now - t < RATE_WINDOW)
         (filter (fun t => earlier - t < RATE_WINDOW) l)
  = filter (fun t => now - t < RATE_WINDOW) l.
Proof.
  intros Hle. induction l as [|x l IH]; [done|].
  rewrite !filter_cons.
  destruct (decide (earlier - x < RATE_WINDOW)) as [He|He];
    destruct (decide (now - x < RATE_WINDOW)) as [Hn|Hn];
    rewrite ?filter_cons; try (destruct (decide _)); try lia;
    by rewrite IH.
Qed.

(** The generalised statement: [A] lists the allowed readings so far, all
    at or before [prev], and the limiter holds those of them that were
    within the window at [prev]. *)
Lemma checks_window (w : list N) (times : list Z) :
  w <> [] -> w <> str "SNAI" ->
  forall (A : list Z) (prev : Z) (m : gmap (list N) (list Z)),
    default [] (m !! w) = filter (fun x => prev - x < RATE_WINDOW) A ->
    nondecreasing A -> Forall (fun a => a <= prev) A ->
    nondecreasing times -> Forall (fun t => prev <= t) times ->
    (forall k a b, A !! k = Some a -> A !! (k + 5)%nat = Some b ->
                   RATE_WINDOW <= b - a) ->
    let rs := (checks times (Str w) m).1 in
    length rs = length times
    /\ (forall k a b,
          (A ++ allowed_times times rs) !! k = Some a ->
          (A ++ allowed_times times rs) !! (k + 5)%nat = Some b ->
          RATE_WINDOW <= b - a)
    /\ (forall i t waitTime,
          times !! i = Some t -> rs !! i = Some (Limited waitTime) ->
          (5 <= length (filter (fun x => (t - x < RATE_WINDOW)%Z)
                          (A ++ allowed_times (take i times) (take i rs))))%nat).
Proof.
  intros Hne Hsnai.
  induction times as [|t times IH];
    intros A prev m Hm HA Hprev Htimes Hafter Hgap rs.
  { subst rs. simpl. split; [done|]. split; [|done].
    rewrite app_nil_r. exact Hgap. }
  destruct Htimes as [Ht Htimes].
  apply Forall_cons in Hafter as [Hpt Hafter].
  subst rs. cbn [checks].
  rewrite checkRateLimit_counted by done. cbn zeta.
  rewrite Hm, filter_window_twice by done.
  set (ts := filter (fun x => t - x < RATE_WINDOW) A).
  destruct (RATE_LIMIT <=? length ts)%nat eqn:Hfull.
  - apply Nat.leb_le in Hfull. unfold RATE_LIMIT in Hfull.
    specialize (IH A t (<[w := ts]> m)).
    destruct IH as (Hlen & Hgap' & Hwhy); try done.
    { by rewrite lookup_insert_eq. }
    { eapply Forall_impl; [exact Hprev|]. simpl. lia. }
    destruct (checks times (Str w) (<[w := ts]> m)) as [rs' m'].
    cbn [fst] in *. cbn [allowed_times length].
    split; [by rewrite Hlen|]. split; [exact Hgap'|].
    intros [|i] t' waitTime Hi Hr; simpl in Hi, Hr.
    + injection Hi as <-. cbn [take allowed_times].
      by rewrite app_nil_r.
    + cbn [take allowed_times]. by eapply Hwhy.
  - apply Nat.leb_gt in Hfull. unfold RATE_LIMIT in Hfull.
    specialize (IH (A ++ [t]) t (<[w := ts ++ [t]]> m)).
    destruct IH as (Hlen & Hgap' & Hwhy); try done.
    { rewrite lookup_insert_eq. cbn [from_option Datatypes.id].
      rewrite filter_app, filter_cons_True, filter_nil
        by (unfold RATE_WINDOW; lia).
      done. }
    { apply nondecreasing_snoc; [done|].
      eapply Forall_impl; [exact Hprev|]. simpl. lia. }
    { apply Forall_app. split; [|by constructor].
      eapply Forall_impl; [exact Hprev|]. simpl. lia. }
    { intros k a b Ha Hb.
      destruct (decide (k + 5 < length A)%nat) as [Hin|Hout].
      - rewrite lookup_app_l in Ha by lia.
        rewrite lookup_app_l in Hb by lia. by eapply Hgap.
      - assert (Hk5 : (k + 5)%nat = length A).
        { apply lookup_lt_Some in Hb. rewrite length_app in Hb.
          simpl in Hb. lia. }
        rewrite Hk5, lookup_app_r, Nat.sub_diag in Hb by lia.
        injection Hb as <-.
        rewrite lookup_app_l in Ha by lia.
        destruct (Z.lt_ge_cases (t - a) RATE_WINDOW) as [Hclose|Hfar];
          [exfalso|lia].
        assert (Hlast : Forall (fun x => t - x < RATE_WINDOW) (drop k A)).
        { apply Forall_lookup. intros j x Hj. rewrite lookup_drop in Hj.
          assert (a <= x)
            by (apply (nondecreasing_lookup A k (k + j) a x); [done|lia|done..]).
          lia. }
        assert (Hts : (5 <= length ts)%nat).
        { subst ts. rewrite <- (take_drop k A), filter_app, length_app.
          assert (Hall : filter (fun x => t - x < RATE_WINDOW) (drop k A)
                         = drop k A).
          { clear -Hlast. induction Hlast as [|x l Hx _ IHl]; [done|].
            by rewrite filter_cons_True, IHl. }
          rewrite Hall, length_drop. lia. }
        lia. }
    destruct (checks times (Str w) (<[w := ts ++ [t]]> m)) as [rs' m'].
    cbn [fst] in *. cbn [allowed_times length].
    split; [by rewrite Hlen|].
    split.
    + intros k a b. rewrite (cons_middle t A), app_assoc. apply Hgap'.
    + intros [|i] t' waitTime Hi Hr; simpl in Hi, Hr; [done|].
      cbn [take allowed_times].
      rewrite (cons_middle t A), app_assoc. by eapply Hwhy.
Qed.

(** X26.  The guarantee of the rate limiter.  For a wallet that is
    counted and has nothing stored, along any run of checks whose clock
    readings never go back: no six allowed checks fall within a window of
    60 seconds (the sixth allowed check after any allowed check comes at
    least 60000 ms after it), and a check is refused only when five
    allowed checks lie less than 60000 ms before it. *)
Theorem at_most_five_per_minute (w : list N) (times : list Z)
    (m : gmap (list N) (list Z)) :
  w <> [] -> w <> str "SNAI" ->
  m !! w = None ->
  nondecreasing times ->
  let rs := (checks times (Str w) m).1 in
  (forall k a b,
      allowed_times times rs !! k = Some a ->
      allowed_times times rs !! (k + 5)%nat = Some b ->
      RATE_WINDOW <= b - a)
  /\ (forall i t waitTime,
        times !! i = Some t -> rs !! i = Some (Limited waitTime) ->
        (5 <= length (filter (fun x => (t - x < RATE_WINDOW)%Z)
                        (allowed_times (take i times) (take i rs))))%nat).
Proof.
  intros Hne Hsnai Hm Htimes rs.
  destruct times as [|t0 times].
  { subst rs. simpl. split; intros; done. }
  assert (Hstored : default [] (m !! w)
                    = filter (fun x => t0 - x < RATE_WINDOW) [])
    by (by rewrite Hm).
  assert (Hafter : Forall (fun t => t0 <= t) (t0 :: times)).
  { destruct Htimes as [Ht0 _]. constructor; [lia|done]. }
  assert (Hnone : forall k a b,
            ([] : list Z) !! k = Some a ->
            ([] : list Z) !! (k + 5)%nat = Some b ->
            RATE_WINDOW <= b - a)
    by (intros k a b Ha; by rewrite lookup_nil in Ha).
  pose proof (checks_window w (t0 :: times) Hne Hsnai [] t0 m Hstored I
                (Forall_nil_2 _) Htimes Hafter Hnone) as Hrun.
  cbn zeta in Hrun. destruct Hrun as (_ & Hgap & Hwhy).
  split; [exact Hgap|exact Hwhy].
Qed.

Lemma at_most_five_per_minute_witness :
  (checks [0; 10; 20; 30; 40; 50; 60000; 60005] (Str (str "ABC123")) ∅).1
  = [Allowed; Allowed; Allowed; Allowed; Allowed; Limited 60; Allowed;
     Limited 1]
  /\ (forall k a b,
        [0; 10; 20; 30; 40; 60000] !! k = Some a ->
        [0; 10; 20; 30; 40; 60000] !! (k + 5)%nat = Some b ->
        RATE_WINDOW <= b - a).
Proof.
  split; [vm_compute; reflexivity|].
  assert (Hsorted : nondecreasing [0; 10; 20; 30; 40; 50; 60000; 60005])
    by (simpl; repeat split; repeat constructor; lia).
  pose proof (at_most_five_per_minute (str "ABC123")
                [0; 10; 20; 30; 40; 50; 60000; 60005] ∅
                ltac:(discriminate) ltac:(discriminate) eq_refl Hsorted)
    as Hrun.
  cbn zeta in Hrun. destruct Hrun as [Hgap _]. exact Hgap.
Defined.

(** ** The handler and the rate limiter *)

Lemma on_vote_rate ws uw postId direction s :
  rateLimitMap (on_vote ws uw postId direction s) = rateLimitMap s.
Proof.
  unfold on_vote.
  destruct uw as [| |[|c r]]; try done;
    destruct (find _ (posts s)) as [p|]; try done;
    cbn zeta; rewrite broadcast_trace;
    by destruct (Post.wallet p) as [| |[|d t]].
Qed.

Lemma on_delete_post_rate uw postId s :
  rateLimitMap (on_delete_post uw postId s) = rateLimitMap s.
Proof.
  unfold on_delete_post.
  destruct (findIndex _ (posts s)) as [idx|]; try done;
    destruct (posts s !! idx) as [p|]; try done;
    destruct (strict_eq _ _); try done;
    by rewrite !broadcast_trace.
Qed.

Section Limiter.

Variable toLowerCase : list N -> list N.
Variable toUpperCase : list N -> list N.

Lemma on_create_agent_rate now ca ws uw data s :
  rateLimitMap (on_create_agent toLowerCase toUpperCase now ca ws uw data s)
  = rateLimitMap s.
Proof.
  unfold on_create_agent.
  destruct uw as [| |[|c r]]; try done.
  assert (Hk : rateLimitMap
                 (createUserAgent toLowerCase toUpperCase now ca
                    (Str (c :: r)) data s).2 = rateLimitMap s).
  { unfold createUserAgent.
    set (sg := getUser now (Str (c :: r)) s).
    assert (Hg : rateLimitMap sg = rateLimitMap s).
    { by destruct (people_only_fields s sg (people_only_getUser _ _ _))
        as (_ & _ & _ & _ & _ & _ & _ & _ & _ & ? & _). }
    repeat (match goal with
            | |- context [if ?b then (CreateError _, sg) else _] => destruct b
            end; [exact Hg|]).
    fields. destruct (UserAgents.isArray (userAgents sg));
      cbn [negb snd]; [|exact Hg].
    match goal with
    | |- rateLimitMap (emit ?e ?x) = _ =>
        match x with
        | context [set_userAgents ?u ?base] =>
            assert (Hp : people_only (set_userAgents u base) (emit e x))
              by people
        end
    end.
    apply people_only_fields in Hp
      as (_ & _ & _ & _ & _ & _ & _ & _ & _ & Hrl & _).
    by rewrite Hrl. }
  destruct (createUserAgent _ _ _ _ _ _ s) as [[error|agent|] s1];
    simpl in Hk; by rewrite <- Hk.
Qed.

(** X27.  Votes, deletions and deployments are not rate limited.  Of the
    four messages modelled here, a vote, a deletion or a request to deploy
    an agent leaves the limiter's table as it is, however many are sent
    (the limiter is consulted for posts, and for the comments and token
    comments that are not modelled).  A [new_post] from a connected
    wallet, with fields that are strings or absent, consults the limiter
    once, for the wallet of the session, and the table afterwards is the
    one that check returns; when the check refuses, no post is stored,
    the post counter, the user records and the topic interests are those
    [getUser] left, and the only thing written is the [rate_limited] frame
    with the wait hint, to the sender. *)
Theorem votes_deletions_deployments_not_limited (now : Z) (ca w : list N) (ws : nat)
    (msg : message) (s : server) :
  session_wallet ws s = Str w -> w <> [] ->
  let sg := getUser now (Str w) s in
  let s' := on_message toLowerCase toUpperCase now ca ws msg s in
  match msg with
  | MsgNewPost hive title content =>
      rateLimitMap s' = (checkRateLimit now (Str w) (rateLimitMap s)).2
      /\ forall waitTime,
           (checkRateLimit now (Str w) (rateLimitMap s)).1 = Limited waitTime ->
           posts s' = posts s /\ nextPostId s' = nextPostId s
           /\ users s' = users sg
           /\ topicInterests s' = topicInterests s
           /\ emitted sg s' = [Stringify (EvRateLimited waitTime);
                               Send ws (EvRateLimited waitTime)]
  | _ => rateLimitMap s' = rateLimitMap s
  end.
Proof.
  intros Hsession Hw sg s'. subst s'. unfold on_message. rewrite Hsession.
  fold sg.
  destruct (people_only_fields s sg (people_only_getUser _ _ _))
    as (Hposts & Hnext & _ & _ & _ & _ & _ & _ & _ & Hrl & Hti & _).
  destruct msg as [hive title content|postId direction|postId|data].
  - destruct (checkRateLimit now (Str w) (rateLimitMap s)) as [rc m] eqn:Hc.
    rewrite <- Hrl in Hc. cbn [fst snd]. split.
    + destruct rc as [|waitTime].
      * by destruct (on_new_post_allowed now ws w hive title content m sg)
          as (_ & _ & ? & _).
      * by rewrite (on_new_post_limited now waitTime ws w hive title content m).
    + intros waitTime ->.
      rewrite (on_new_post_limited now waitTime ws w hive title content m)
        by done.
      fields. repeat (split; [done|]).
      apply emitted_app. fields. by rewrite <- app_assoc.
  - by rewrite on_vote_rate.
  - by rewrite on_delete_post_rate.
  - by rewrite on_create_agent_rate.
Qed.

End Limiter.

Lemma votes_deletions_deployments_not_limited_witness :
  rateLimitMap (on_message lower upper 1000 [] 7 (MsgVote 5 1) two_posts)
  = rateLimitMap two_posts.
Proof.
  apply (votes_deletions_deployments_not_limited lower upper 1000 [] (str "ABC123") 7
           (MsgVote 5 1) two_posts).
  - reflexivity.
  - discriminate.
Defined.

(** ** What a vote tells the clients *)

(** X28.  A vote over the socket on a post that exists is announced
    as it is stored: the post is serialised once, every open session is
    sent the [update_post] frame carrying the post exactly as the list
    holds it afterwards, and then the state file and the database file are
    written, in this order; nothing else is written. *)
Theorem vote_announces_stored_post (ws : nat) (w : list N)
    (postId direction : Z) (p : Post.t) (s : server) :
  w <> [] ->
  find (fun p => bool_decide (Post.id p = postId)) (posts s) = Some p ->
  let s' := on_vote ws (Str w) postId direction s in
  exists p',
    find (fun p => bool_decide (Post.id p = postId)) (posts s') = Some p'
    /\ emitted s s'
       = Stringify (EvUpdatePost p')
         :: map (fun c => Send (Session.ws c) (EvUpdatePost p'))
                (filter (fun c => Session.readyState c = OPEN) (clients s))
         ++ [SaveState; SaveDatabase].
Proof.
  intros Hw Hfind s'. exists (cast_vote w direction p). split.
  - subst s'. rewrite (on_vote_posts ws w postId direction p s Hw Hfind).
    rewrite find_update_first by done. by rewrite Hfind.
  - subst s'. unfold on_vote. destruct w as [|c r]; [done|].
    rewrite Hfind. cbn zeta. rewrite broadcast_trace, frames_filter.
    apply emitted_app.
    destruct (Post.wallet p) as [| |[|d t]]; fields;
      by rewrite <- !app_assoc.
Qed.

Lemma vote_announces_stored_post_witness :
  exists p',
    find (fun p => bool_decide (Post.id p = 5))
         (posts (on_vote 7 (Str (str "ABC123")) 5 (-1) two_posts)) = Some p'
    /\ Post.votes p' = -1
    /\ emitted two_posts (on_vote 7 (Str (str "ABC123")) 5 (-1) two_posts)
       = [Stringify (EvUpdatePost p'); Send 7 (EvUpdatePost p');
          SaveState; SaveDatabase].
Proof.
  destruct (vote_announces_stored_post 7 (str "ABC123") 5 (-1) (own_post 5)
              two_posts) as (p' & Hfind & Hsent);
    [discriminate|reflexivity|].
  exists p'. split; [exact Hfind|].
  split; [vm_compute in Hfind; injection Hfind as <-; reflexivity|].
  exact Hsent.
Defined.

(** ** Handles of registered agents *)

(** X29.  A handle that [isValidXHandle] accepts is, after one leading
    ['@'] is dropped, between 1 and 15 code units long and made of ASCII
    letters, digits and ['_'] only; so the cleaned handle holds no ['@'],
    is accepted as it is, and cleaning it again changes nothing.  The
    handle [registeredAgentToInternal] gives an agent registered under an
    accepted handle is that cleaned handle. *)
Theorem valid_handle_is_clean (h : list N) (a : RegAgent.t) :
  isValidXHandle (Str h) = true ->
  let clean := strip_at h in
  (1 <= length clean <= 15)%nat
  /\ Forall (fun c => is_handle_unit c = true) clean
  /\ (64%N ∉ clean)
  /\ strip_at clean = clean
  /\ isValidXHandle (Str clean) = true
  /\ (RegAgent.xHandle a = h ->
      Agent.handle (registeredAgentToInternal a) = clean).
Proof.
  intros Hvalid clean. unfold isValidXHandle in Hvalid.
  destruct h as [|c r]; [done|]. fold clean in Hvalid.
  apply andb_true_iff in Hvalid as [Hvalid Hmax].
  apply andb_true_iff in Hvalid as [Hall Hmin].
  apply Nat.leb_le in Hmin, Hmax.
  assert (Hunits : Forall (fun c => is_handle_unit c = true) clean).
  { apply Forall_forall. intros x Hx.
    rewrite forallb_forall in Hall. apply Hall. by apply list_elem_of_In. }
  assert (Hno : 64%N ∉ clean).
  { intros Hin. rewrite Forall_forall in Hunits.
    specialize (Hunits _ Hin). vm_compute in Hunits. discriminate. }
  assert (Hfix : strip_at clean = clean).
  { destruct clean as [|x xs]; [done|]. unfold strip_at.
    destruct (decide (x = 64%N)) as [->|Hx];
      [exfalso; apply Hno, list_elem_of_here|].
    destruct x as [|q]; [done|].
    do 7 (try (destruct q as [q|q|]; try done)). }
  split; [lia|]. split; [done|]. split; [done|]. split; [done|]. split.
  - unfold isValidXHandle. destruct clean as [|x xs];
      [simpl in Hmin; lia|].
    cbn zeta. rewrite Hfix, Hall. cbn [andb].
    by rewrite (proj2 (Nat.leb_le _ _) Hmin), (proj2 (Nat.leb_le _ _) Hmax).
  - intros Hx. unfold registeredAgentToInternal. cbn [Agent.handle].
    by rewrite Hx.
Qed.

Lemma valid_handle_is_clean_witness :
  strip_at (str "@snai_agent") = str "snai_agent"
  /\ isValidXHandle (Str (str "snai_agent")) = true.
Proof.
  destruct (valid_handle_is_clean (str "@snai_agent") api_agent)
    as (_ & _ & _ & _ & Hclean & _); [vm_compute; reflexivity|].
  split; [reflexivity|exact Hclean].
Defined.

(** ** The two vote paths of a registered agent *)

Lemma update_first_at {A} (P : A -> bool) (f : A -> A) (l : list A)
    (i : nat) :
  findIndex P l = Some i -> update_first P f l !! i = f <$> l !! i.
Proof.
  revert i. induction l as [|x l IH]; intros i; simpl; [done|].
  destruct (P x); [by intros [= <-]|].
  destruct (findIndex P l) as [j|]; [|done].
  intros [= <-]. simpl. by apply IH.
Qed.

(** X30.  The scheduler respects a vote cast through the REST endpoint.
    After an authenticated, active agent has voted up or down on a post
    through [/api/v1/agents/vote], a scheduler run that draws this agent
    and this post changes nothing: both paths record the vote under the
    same key, ['agent_' + id], and the scheduler only votes where that key
    holds no vote. *)
Theorem scheduler_respects_rest_vote (now later : Z) (key : list N)
    (keyData : KeyData.t) (agent drawn : RegAgent.t) (postId direction : Z)
    (ra rp : nat) (up : bool) (s : server) :
  key <> [] -> postId <> 0 -> direction <> 0 ->
  assoc_get key (agentApiKeys s) = Some keyData ->
  assoc_get (KeyData.agentId keyData) (registeredAgents s) = Some agent ->
  RegAgent.active agent = true ->
  findIndex (fun p => bool_decide (Post.id p = postId)) (posts s) = Some rp ->
  let s1 := agents_vote now (Str key) (Some postId) (Some direction) s in
  getActiveRegisteredAgents s1 !! ra = Some drawn ->
  RegAgent.id drawn = RegAgent.id agent ->
  registeredAgentVote later ra rp up s1 = s1.
Proof.
  intros Hkey Hpid Hdir Hk Ha Hact Hidx s1 Hdrawn Hid.
  pose proof (findIndex_find (fun p => bool_decide (Post.id p = postId))
                (posts s)) as Hfi.
  rewrite Hidx in Hfi. destruct Hfi as (p & Hrp & Hfind).
  destruct (agents_vote_found now key keyData agent postId direction p s)
    as [Hposts _]; try done.
  fold s1 in Hposts.
  set (voteKey := str "agent_" ++ RegAgent.id agent) in *.
  assert (Hsign : vote_sign direction <> 0).
  { unfold vote_sign. repeat case_match; lia. }
  assert (Hvoted : exists p1, posts s1 !! rp = Some p1
                              /\ current_vote voteKey p1 = vote_sign direction).
  { rewrite Hposts.
    destruct (decide (current_vote voteKey p = vote_sign direction))
      as [Hsame|Hnew].
    - rewrite bool_decide_true by done. by exists p.
    - rewrite bool_decide_false by done.
      rewrite (update_first_at _ _ _ rp Hidx), Hrp.
      eexists. split; [reflexivity|].
      unfold agent_cast_vote. cbn zeta. rewrite bool_decide_false by done.
      unfold current_vote at 1. cbn [Post.voters Post.with_vote].
      by rewrite lookup_insert_eq. }
  destruct Hvoted as (p1 & Hp1 & Hcv).
  unfold registeredAgentVote. cbn zeta.
  destruct (_ || _); [done|]. rewrite Hdrawn.
  destruct (take 30 (posts s1) !! rp) as [post|] eqn:Htake; [|done].
  apply lookup_take_Some in Htake as [Htake _].
  rewrite Hp1 in Htake. injection Htake as <-.
  rewrite Hid. fold voteKey. rewrite bool_decide_false; [done|].
  by rewrite Hcv.
Qed.

Lemma scheduler_respects_rest_vote_witness :
  registeredAgentVote 3000 0 0 true
    (agents_vote 2000 (Str (str "key-1")) (Some 5) (Some (-1)) with_api_agent)
  = agents_vote 2000 (Str (str "key-1")) (Some 5) (Some (-1)) with_api_agent.
Proof.
  apply (scheduler_respects_rest_vote 2000 3000 (str "key-1") api_key_data
           api_agent (RegAgent.with_lastActive 2000 api_agent) 5 (-1) 0 0 true
           with_api_agent);
    try discriminate; try reflexivity.
Defined.
